(** * Log processor: the pure-Python reference processor

    A shallow embedding of [PurePythonProcessor]
    (python_orchestrator/log_processor/pure_python.py) and the properties
    its specification states about [parse_logs], [validate_logs],
    [compute_stats], [filter_logs] and [batch_process].

    Modelling conventions.
    - A value returned by [json.loads] is a [json] tree.  A Python [int] is
      a [Z].  A Python [float] is a finite value, an infinity or NaN; a
      finite float is the rational it denotes, and an operation on floats
      rounds its exact result to the nearest binary64 number.
    - [json.loads] itself belongs to the Python library, not to the
      program: the processor is defined in a section over an arbitrary
      decoder [loads], and [json_loads] below is a concrete decoder used to
      run the processor on text.  [list.sort] is modelled as a stable
      insertion sort on every list whose elements [<] orders; on a list
      of numbers that holds NaN the outcome depends on the steps of the
      library's sorting algorithm, and the processor takes [list.sort] on
      such lists as a second parameter, [nan_sort].
    - The length of a list is a [nat] and stands for a length below
      2 ** 46; no longer list fits in memory.  For such a length [n] the
      float of [n] is [n] itself, and the float product [n * q] has, for
      each of q = 0.50, 0.95 and 0.99, the integer part of the exact
      product, which is why [percentile_index] and [py_truediv] compute
      with [n] exactly.
    - A Python call either returns or raises: [result A] is [Ok a] or
      [Raise e].  Only [json.JSONDecodeError] is ever caught by the program;
      [AttributeError], [TypeError] and [OverflowError] escape every [try]
      block of the file.
    - A formatted message [f"Line {idx}: ..."] is kept as the structured
      value it is built from (position, reason and interpolated values).
    - The second part of the file adds properties of the same functions
      and of the data that [generate_test_data] (examples/benchmark.py)
      feeds them, with [json.dumps] as a parameter like [json.loads]. *)

From Stdlib Require Import List String Ascii ZArith QArith Qround Qabs Bool Arith Lia.
From Stdlib Require Import Permutation Sorted DecimalString ZifyNat.
Import ListNotations.

Set Implicit Arguments.

(** ** Floats

    A Python [float] is an IEEE 754 binary64 number.  A finite float is
    kept as the rational it denotes; the two zeros, which compare equal,
    are not told apart.  The result of an operation is the float nearest
    to the exact result, a tie going to the even significand, and an
    infinity beyond the largest float. *)

Inductive float : Type :=
| Finite (q : Q)
| Infinity (negative : bool)
| NaN.

Coercion Finite : Q >-> float.
Bind Scope Q_scope with float.

Definition Qlt_bool (p q : Q) : bool := negb (Qle_bool q p).

(** The integer nearest to [x], the even one of the two at a tie. *)
Definition round_half_even (x : Q) : Z :=
  let f := Qfloor x in
  match (x - inject_Z f ?= 1 # 2)%Q with
  | Lt => f
  | Gt => (f + 1)%Z
  | Eq => if Z.even f then f else (f + 1)%Z
  end.

(** [2 ^ k] for an integer [k]. *)
Definition pow2 (k : Z) : Q :=
  if (0 <=? k)%Z then inject_Z (2 ^ k) else 1 # Z.to_pos (2 ^ (- k)).

(** The exponent [e] with [2 ^ e <= a < 2 ^ (e + 1)], for [a > 0]. *)
Definition floor_log2 (a : Q) : Z :=
  let e := (Z.log2 (Qnum a) - Z.log2 (Zpos (Qden a)))%Z in
  if Qle_bool (pow2 e) a then e else (e - 1)%Z.

(** Rounding to binary64: 53 significant bits, the smallest spacing
    [2 ^ -1074], and an infinity from [2 ^ 1024] on. *)
Definition round_float (x : Q) : float :=
  if Qeq_bool x 0 then Finite 0
  else
    let a := Qabs x in
    let ulp := pow2 (Z.max (floor_log2 a - 52) (-1074)) in
    let r := (inject_Z (round_half_even (a / ulp)) * ulp)%Q in
    if Qle_bool (pow2 1024) r then Infinity (Qlt_bool x 0)
    else Finite (Qred (if Qlt_bool x 0 then - r else r)).

(** [x < y] and [x <= y]: every comparison with NaN is false. *)
Definition float_lt (x y : float) : bool :=
  match x, y with
  | Finite p, Finite q => Qlt_bool p q
  | Infinity s, Infinity t => s && negb t
  | Infinity s, Finite _ => s
  | Finite _, Infinity t => negb t
  | _, _ => false
  end.

Definition float_le (x y : float) : bool :=
  match x, y with
  | Finite p, Finite q => Qle_bool p q
  | Infinity s, Infinity t => s || negb t
  | Infinity s, Finite _ => s
  | Finite _, Infinity t => negb t
  | _, _ => false
  end.

(** [x + y]. *)
Definition float_add (x y : float) : float :=
  match x, y with
  | Finite p, Finite q => round_float (p + q)
  | Infinity s, Infinity t => if Bool.eqb s t then Infinity s else NaN
  | Infinity s, Finite _ => Infinity s
  | Finite _, Infinity t => Infinity t
  | _, _ => NaN
  end.

(** [x / d] for a finite [d > 0]. *)
Definition float_div (x : float) (d : Q) : float :=
  match x with
  | Finite p => round_float (p / d)
  | _ => x
  end.

(** ** Python values *)

#[warnings="-register-all"]
Inductive json : Type :=
| JNull
| JBool (b : bool)
| JInt (n : Z)
| JFloat (x : float)
| JStr (s : string)
| JArr (xs : list json)
| JObj (kvs : list (string * json)).

Inductive pytype : Type :=
| NoneType | TBool | TInt | TFloat | TStr | TList | TDict.

Definition type_of (v : json) : pytype :=
  match v with
  | JNull => NoneType
  | JBool _ => TBool
  | JInt _ => TInt
  | JFloat _ => TFloat
  | JStr _ => TStr
  | JArr _ => TList
  | JObj _ => TDict
  end.

(** ** Exceptions and the error monad *)

Inductive exn : Type :=
| ValueError (msg : string)
| AttributeError (ty : pytype) (attr : string)
| KeyError (key : string)
| TypeError
| OverflowError
| ZeroDivisionError.

Inductive result (A : Type) : Type :=
| Ok (a : A)
| Raise (e : exn).

Arguments Ok {A} a.
Arguments Raise {A} e.

Definition bind {A B : Type} (c : result A) (k : A -> result B) : result B :=
  match c with
  | Ok a => k a
  | Raise e => Raise e
  end.

Declare Scope py_scope.
Delimit Scope py_scope with py.
Notation "x <- c ;; k" := (bind c (fun x => k))
  (at level 100, c at next level, right associativity) : py_scope.
Notation "' p <- c ;; k" := (bind c (fun p => k))
  (at level 100, p pattern, c at next level, right associativity) : py_scope.
Open Scope py_scope.

(** [json.loads(line)] returns a value or raises [json.JSONDecodeError]. *)
Inductive decoded : Type :=
| Decoded (v : json)
| JSONDecodeError (msg : string).

(** ** A concrete decoder

    [json_loads] decodes the JSON grammar of RFC 8259 with the integer /
    float distinction of Python's [json] module and its three literals
    [NaN], [Infinity] and [-Infinity]; a number with a fraction or an
    exponent is the float nearest to its decimal value.  Outside its
    fragment: [\u] escapes are reported as decode errors, and the error
    messages are abbreviated. *)

Module Decoder.

Local Open Scope char_scope.

Definition is_ws (c : ascii) : bool :=
  match c with
  | " " | "009" | "010" | "013" => true
  | _ => false
  end.

Fixpoint skip_ws (s : list ascii) : list ascii :=
  match s with
  | c :: r => if is_ws c then skip_ws r else s
  | [] => []
  end.

Definition digit_of (c : ascii) : option Z :=
  let n := nat_of_ascii c in
  if (48 <=? n)%nat && (n <=? 57)%nat then Some (Z.of_nat (n - 48)) else None.

(** Reads a run of decimal digits: the number read so far and how many. *)
Fixpoint digits (acc : Z) (count : nat) (s : list ascii) : Z * nat * list ascii :=
  match s with
  | c :: r =>
      match digit_of c with
      | Some d => digits (acc * 10 + d)%Z (S count) r
      | None => (acc, count, s)
      end
  | [] => (acc, count, [])
  end.

(** [m * 10 ^ e] as a reduced fraction. *)
Definition scale10 (m e : Z) : Q :=
  if (0 <=? e)%Z then Qred (inject_Z (m * 10 ^ e))
  else Qred (Qmake m (Z.to_pos (10 ^ (- e)))).

Definition parse_exponent (s : list ascii) : option (Z * list ascii) :=
  match s with
  | c :: r =>
      if (c =? "e") || (c =? "E") then
        let '(neg, r1) :=
          match r with
          | "-" :: r' => (true, r')
          | "+" :: r' => (false, r')
          | _ => (false, r)
          end in
        let '(e, k, r2) := digits 0 0 r1 in
        if (k =? 0)%nat then None else Some (if neg then (- e)%Z else e, r2)
      else None
  | [] => None
  end.

Definition parse_number (s : list ascii) : option (json * list ascii) :=
  let '(neg, s1) := match s with "-" :: r => (true, r) | _ => (false, s) end in
  let sgn := fun z : Z => if neg then (- z)%Z else z in
  let int_part :=
    match s1 with
    | "0" :: r => Some (0%Z, r)
    | _ => let '(ip, k, r) := digits 0 0 s1 in
           if (k =? 0)%nat then None else Some (ip, r)
    end in
  match int_part with
  | None => None
  | Some (ip, s2) =>
      let '(mant, fracs, s3) :=
        match s2 with
        | "." :: r =>
            let '(m, j, r') := digits ip 0 r in
            if (j =? 0)%nat then (ip, None, s2) else (m, Some j, r')
        | _ => (ip, None, s2)
        end in
      let shift := match fracs with Some j => Z.of_nat j | None => 0%Z end in
      match parse_exponent s3, fracs with
      | Some (e, s4), _ =>
          Some (JFloat (round_float (scale10 (sgn mant) (e - shift))), s4)
      | None, Some _ => Some (JFloat (round_float (scale10 (sgn mant) (- shift))), s3)
      | None, None => Some (JInt (sgn mant), s3)
      end
  end.

(** The characters of a string literal after its opening quote. *)
Fixpoint parse_chars (s : list ascii) : option (string * list ascii) :=
  match s with
  | [] => None
  | "034" :: r => Some (EmptyString, r)
  | "\" :: e :: r =>
      let esc :=
        match e with
        | "034" => Some "034" | "\" => Some "\" | "/" => Some "/"
        | "b" => Some "008" | "f" => Some "012" | "n" => Some "010"
        | "r" => Some "013" | "t" => Some "009"
        | _ => None
        end in
      match esc, parse_chars r with
      | Some c, Some (str, r') => Some (String c str, r')
      | _, _ => None
      end
  | c :: r =>
      if (nat_of_ascii c <? 32)%nat then None else
      match parse_chars r with
      | Some (str, r') => Some (String c str, r')
      | None => None
      end
  end.

(** A later occurrence of a key replaces the earlier value, as in a dict. *)
Fixpoint dict_set (k : string) (v : json) (d : list (string * json))
  : list (string * json) :=
  match d with
  | [] => [(k, v)]
  | (k', v') :: d' =>
      if String.eqb k k' then (k, v) :: d' else (k', v') :: dict_set k v d'
  end.

Fixpoint parse_value (fuel : nat) (s : list ascii) : option (json * list ascii) :=
  match fuel with
  | O => None
  | S fuel' =>
      match s with
      | "n" :: "u" :: "l" :: "l" :: r => Some (JNull, r)
      | "t" :: "r" :: "u" :: "e" :: r => Some (JBool true, r)
      | "f" :: "a" :: "l" :: "s" :: "e" :: r => Some (JBool false, r)
      | "N" :: "a" :: "N" :: r => Some (JFloat NaN, r)
      | "I" :: "n" :: "f" :: "i" :: "n" :: "i" :: "t" :: "y" :: r =>
          Some (JFloat (Infinity false), r)
      | "-" :: "I" :: "n" :: "f" :: "i" :: "n" :: "i" :: "t" :: "y" :: r =>
          Some (JFloat (Infinity true), r)
      | "034" :: r =>
          match parse_chars r with
          | Some (str, r') => Some (JStr str, r')
          | None => None
          end
      | "[" :: r =>
          match skip_ws r with
          | "]" :: r' => Some (JArr [], r')
          | r' => parse_elements fuel' r' []
          end
      | "{" :: r =>
          match skip_ws r with
          | "}" :: r' => Some (JObj [], r')
          | r' => parse_members fuel' r' []
          end
      | _ => parse_number s
      end
  end
with parse_elements (fuel : nat) (s : list ascii) (acc : list json)
  : option (json * list ascii) :=
  match fuel with
  | O => None
  | S fuel' =>
      match parse_value fuel' s with
      | Some (v, r) =>
          match skip_ws r with
          | "," :: r' => parse_elements fuel' (skip_ws r') (acc ++ [v])
          | "]" :: r' => Some (JArr (acc ++ [v]), r')
          | _ => None
          end
      | None => None
      end
  end
with parse_members (fuel : nat) (s : list ascii) (acc : list (string * json))
  : option (json * list ascii) :=
  match fuel with
  | O => None
  | S fuel' =>
      match s with
      | "034" :: r =>
          match parse_chars r with
          | Some (k, r1) =>
              match skip_ws r1 with
              | ":" :: r2 =>
                  match parse_value fuel' (skip_ws r2) with
                  | Some (v, r3) =>
                      match skip_ws r3 with
                      | "," :: r4 => parse_members fuel' (skip_ws r4) (dict_set k v acc)
                      | "}" :: r4 => Some (JObj (dict_set k v acc), r4)
                      | _ => None
                      end
                  | None => None
                  end
              | _ => None
              end
          | None => None
          end
      | _ => None
      end
  end.

End Decoder.

Open Scope string_scope.
Open Scope list_scope.

(** Example lines are written with ['] where the JSON text has the
    double quote; [json_text] puts the double quotes back. *)
Fixpoint json_text (s : string) : string :=
  match s with
  | EmptyString => EmptyString
  | String c rest =>
      String (if Ascii.eqb c "'" then "034"%char else c) (json_text rest)
  end.

Definition json_loads (line : string) : decoded :=
  let s := Decoder.skip_ws (list_ascii_of_string line) in
  match Decoder.parse_value (2 * List.length s + 2) s with
  | Some (v, rest) =>
      match Decoder.skip_ws rest with
      | [] => Decoded v
      | _ => JSONDecodeError "Extra data"
      end
  | None => JSONDecodeError "Expecting value"
  end.

(** ** Python operations on values *)

(** [bool(v)]: the truth value of [v]. *)
Definition truthy (v : json) : bool :=
  match v with
  | JNull => false
  | JBool b => b
  | JInt n => negb (n =? 0)%Z
  | JFloat (Finite q) => negb (Qeq_bool q 0)
  | JFloat _ => true
  | JStr s => negb (String.eqb s "")
  | JArr xs => match xs with [] => false | _ => true end
  | JObj kvs => match kvs with [] => false | _ => true end
  end.

Definition is_none (v : json) : bool :=
  match v with JNull => true | _ => false end.

(** [isinstance(v, int)]; [bool] is a subclass of [int]. *)
Definition isinstance_int (v : json) : bool :=
  match v with JInt _ | JBool _ => true | _ => false end.

(** [isinstance(v, (int, float))]. *)
Definition isinstance_int_float (v : json) : bool :=
  match v with JInt _ | JBool _ | JFloat _ => true | _ => false end.

Definition is_float (v : json) : bool :=
  match v with JFloat _ => true | _ => false end.

Definition is_nan (v : json) : bool :=
  match v with JFloat NaN => true | _ => false end.

(** A number other than NaN. *)
Definition ordered (v : json) : bool :=
  isinstance_int_float v && negb (is_nan v).

(** The int a value of type [int] or [bool] denotes ([True] is 1). *)
Definition int_of (v : json) : option Z :=
  match v with
  | JInt n => Some n
  | JBool b => Some (if b then 1 else 0)%Z
  | _ => None
  end.

(** The number a numeric value denotes, exactly: an int of any size is
    the rational it is, not the float nearest to it. *)
Definition num_of (v : json) : option float :=
  match v with
  | JBool b => Some (Finite (if b then 1 else 0))
  | JInt n => Some (Finite (inject_Z n))
  | JFloat x => Some x
  | _ => None
  end.

(** The value of a finite number, 0 for any other value. *)
Definition value (v : json) : Q :=
  match num_of v with Some (Finite q) => q | _ => 0%Q end.

(** [v == s] for a string literal [s]. *)
Definition py_eq_str (v : json) (s : string) : bool :=
  match v with JStr t => String.eqb t s | _ => false end.

(** [v == n] for an [int] [n]. *)
Definition py_eq_int (v : json) (n : Z) : bool :=
  match num_of v with
  | Some (Finite q) => Qeq_bool q (inject_Z n)
  | _ => false
  end.

(** [hash(v)] succeeds on everything but lists and dicts. *)
Definition hashable (v : json) : bool :=
  match v with JArr _ | JObj _ => false | _ => true end.

(** Two floats that are the same dict key: equal floats, and NaN with
    itself.  A dict compares a key by identity before it compares by
    [==], and [json.loads] returns one and the same NaN object for every
    NaN it reads. *)
Definition same_float (x y : float) : bool :=
  match x, y with
  | Finite p, Finite q => Qeq_bool p q
  | Infinity s, Infinity t => Bool.eqb s t
  | NaN, NaN => true
  | _, _ => false
  end.

(** Equality of two hashable values used as dict keys. *)
Definition key_eq (a b : json) : bool :=
  match num_of a, num_of b with
  | Some x, Some y => same_float x y
  | None, None =>
      match a, b with
      | JNull, JNull => true
      | JStr s, JStr t => String.eqb s t
      | _, _ => false
      end
  | _, _ => false
  end.

(** The ordering operators.  Numbers compare by value, an int with a
    float exactly, and strings lexicographically; [None], dicts and
    values of different kinds raise [TypeError].  Python orders two lists
    lexicographically; the one place where the processor can compare two
    lists is the sort of [durations], and a duration list that holds a
    list makes [sum(durations)] raise [TypeError] right after, so the
    comparison raises it here already. *)
Definition py_lt (a b : json) : result bool :=
  match num_of a, num_of b with
  | Some x, Some y => Ok (float_lt x y)
  | None, None =>
      match a, b with
      | JStr s, JStr t => Ok (String.ltb s t)
      | _, _ => Raise TypeError
      end
  | _, _ => Raise TypeError
  end.

Definition py_le (a b : json) : result bool :=
  match num_of a, num_of b with
  | Some x, Some y => Ok (float_le x y)
  | None, None =>
      match a, b with
      | JStr s, JStr t => Ok (String.leb s t)
      | _, _ => Raise TypeError
      end
  | _, _ => Raise TypeError
  end.

(** [a >= b] is [b <= a]. *)
Definition py_ge (a b : json) : result bool := py_le b a.

(** [a < b] and [a <= b] on two numbers. *)
Definition number_lt (a b : json) : bool :=
  match num_of a, num_of b with
  | Some x, Some y => float_lt x y
  | _, _ => false
  end.

Definition number_le (a b : json) : bool :=
  match num_of a, num_of b with
  | Some x, Some y => float_le x y
  | _, _ => false
  end.

(** [d.get(k)] on the items of a dict. *)
Fixpoint lookup (k : string) (kvs : list (string * json)) : option json :=
  match kvs with
  | [] => None
  | (k', v) :: rest => if String.eqb k k' then Some v else lookup k rest
  end.

(** [entry.get(k, default)]: only a dict has the attribute [get]. *)
Definition py_get (entry : json) (k : string) (default : json) : result json :=
  match entry with
  | JObj kvs => Ok (match lookup k kvs with Some v => v | None => default end)
  | _ => Raise (AttributeError (type_of entry) "get")
  end.

(** [k in entry]: key membership for a dict, element membership for a
    list, substring test for a string, [TypeError] otherwise. *)
Definition py_contains (k : string) (entry : json) : result bool :=
  match entry with
  | JObj kvs => Ok (match lookup k kvs with Some _ => true | None => false end)
  | JArr xs => Ok (existsb (fun x => py_eq_str x k) xs)
  | JStr s => Ok (match String.index 0 k s with Some _ => true | None => false end)
  | _ => Raise TypeError
  end.

(** [entry[k]] for a string [k]. *)
Definition py_getitem (entry : json) (k : string) : result json :=
  match entry with
  | JObj kvs => match lookup k kvs with Some v => Ok v | None => Raise (KeyError k) end
  | _ => Raise TypeError
  end.

(** [int(x)] truncates towards zero. *)
Definition py_int (x : Q) : Z :=
  if Qle_bool 0 x then Qfloor x else Qceiling x.

(** A [for] loop whose body updates the loop state or raises. *)
Fixpoint for_each {S A : Type} (body : S -> A -> result S) (items : list A) (s : S)
  : result S :=
  match items with
  | [] => Ok s
  | x :: rest => s' <- body s x ;; for_each body rest s'
  end.

(** [float(n)] for an int [n]: the float nearest to [n], and
    [OverflowError] when that is no finite float. *)
Definition float_of_int (n : Z) : result float :=
  match round_float (inject_Z n) with
  | Infinity _ => Raise OverflowError
  | x => Ok x
  end.

(** The float that [+] makes of an operand standing next to a float. *)
Definition py_float (v : json) : result float :=
  match v with
  | JFloat x => Ok x
  | _ => match int_of v with
         | Some n => float_of_int n
         | None => Raise TypeError
         end
  end.

(** [a + b]: exact on two ints; with a float on one side the other side
    is converted to a float first. *)
Definition py_add (a b : json) : result json :=
  match int_of a, int_of b with
  | Some m, Some n => Ok (JInt (m + n))
  | _, _ =>
      if isinstance_int_float a && isinstance_int_float b then
        x <- py_float a ;;
        y <- py_float b ;;
        Ok (JFloat (float_add x y))
      else Raise TypeError
  end.

(** [sum(values)]: starts from the int 0 and adds from left to right.
    (From CPython 3.12 on, [sum] carries a correction term along a run of
    floats, which can change the last bit of a float sum; no statement
    below fixes the bits of a sum of floats.) *)
Definition py_sum (values : list json) : result json :=
  for_each py_add values (JInt 0).

(** [total / n] for the length [n] of a list: the quotient of two ints is
    rounded once, and is an [OverflowError] when it is too large for a
    float; a float is divided by the float of [n], which is [n] itself
    for every length a list can have. *)
Definition py_truediv (total : json) (n : nat) : result json :=
  match n with
  | O => Raise ZeroDivisionError
  | S _ =>
      match total with
      | JFloat x => Ok (JFloat (float_div x (inject_Z (Z.of_nat n))))
      | _ =>
          match int_of total with
          | Some m =>
              match round_float (inject_Z m / inject_Z (Z.of_nat n)) with
              | Infinity _ => Raise OverflowError
              | x => Ok (JFloat x)
              end
          | None => Raise TypeError
          end
      end
  end.

(** A stable sort that only uses [<]: each element is inserted before
    the first one that is not smaller.  On a list whose elements [<]
    orders every stable sort returns the same list. *)
Fixpoint insert_sorted (x : json) (sorted : list json) : result (list json) :=
  match sorted with
  | [] => Ok [x]
  | y :: rest =>
      smaller <- py_lt y x ;;
      if (smaller : bool) then r <- insert_sorted x rest ;; Ok (y :: r)
      else Ok (x :: y :: rest)
  end.

Fixpoint insertion_sort (values : list json) : result (list json) :=
  match values with
  | [] => Ok []
  | x :: rest => sorted <- insertion_sort rest ;; insert_sorted x sorted
  end.

(** [enumerate(items, start)]. *)
Definition enumerate {A : Type} (items : list A) (start : nat) : list (nat * A) :=
  combine (seq start (List.length items)) items.

(** [d[k] += 1] on a [defaultdict(int)], kept in insertion order. *)
Fixpoint incr (k : json) (d : list (json * nat)) : list (json * nat) :=
  match d with
  | [] => [(k, 1%nat)]
  | (k', c) :: rest => if key_eq k k' then (k', S c) :: rest else (k', c) :: incr k rest
  end.

Definition dict_incr (k : json) (d : list (json * nat)) : result (list (json * nat)) :=
  if hashable k then Ok (incr k d) else Raise TypeError.

(** ** The processor *)

(** [PythonLogStats].  The duration fields hold Python numbers: the
    average is a float, the others are elements of the duration list (or
    the float [0.0]). *)
Record PythonLogStats : Type := {
  total_count : nat;
  error_count : nat;
  warn_count : nat;
  info_count : nat;
  avg_duration_ms : json;
  min_duration_ms : json;
  max_duration_ms : json;
  p50_duration_ms : json;
  p95_duration_ms : json;
  p99_duration_ms : json;
  status_code_distribution : list (json * nat);
  error_count_by_code : list (json * nat)
}.

(** The text after [f"Line {idx}: "] in a validation message, with the
    values it interpolates. *)
Inductive reason : Type :=
| JsonParseError (e : string)
| MissingTimestamp
| InvalidLevel (level : json)
| InvalidDuration (duration : json)
| InvalidStatusCode (status : json).

(** One entry of the [errors] list of [validate_logs]. *)
Record rejection : Type := Line { position : nat; why : reason }.

Definition valid_levels : list string := ["ERROR"; "WARN"; "INFO"; "DEBUG"].

(** [level_to_num] of [filter_logs]. *)
Definition level_to_num : list (string * nat) :=
  [("ERROR", 3%nat); ("WARN", 2%nat); ("INFO", 1%nat); ("DEBUG", 0%nat)].

Fixpoint assoc (k : string) (table : list (string * nat)) : option nat :=
  match table with
  | [] => None
  | (k', n) :: rest => if String.eqb k k' then Some n else assoc k rest
  end.

(** [level_to_num.get(key, 0)]: the key is hashed first. *)
Definition level_to_num_get (key : json) : result nat :=
  if hashable key then
    Ok (match key with
        | JStr s => match assoc s level_to_num with Some n => n | None => 0%nat end
        | _ => 0%nat
        end)
  else Raise TypeError.

Section Processor.

Variable loads : string -> decoded.

(** [values.sort()] on a list of numbers that holds NaN.  Every
    comparison with NaN is false, so [<] does not order such a list and
    what the sort leaves depends on the comparisons the library's
    algorithm happens to make. *)
Variable nan_sort : list json -> list json.

(** *** parse_logs *)

Definition parse_logs (log_lines : list string) : result (list json) :=
  for_each
    (fun results line =>
       match loads line with
       | Decoded entry => Ok (results ++ [entry])
       | JSONDecodeError e => Raise (ValueError ("Parse error: " ++ e)%string)
       end)
    log_lines [].

(** *** validate_logs *)

(** The body of the loop over [enumerate(log_lines, 1)]; each [Ok] that
    does not count the line is a [continue]. *)
Definition validate_step (st : nat * list rejection) (item : nat * string)
  : result (nat * list rejection) :=
  let '(valid_count, errors) := st in
  let '(idx, line) := item in
  match loads line with
  | JSONDecodeError e => Ok (valid_count, errors ++ [Line idx (JsonParseError e)])
  | Decoded entry =>
      timestamp <- py_get entry "timestamp" JNull ;;
      if negb (truthy timestamp) then
        Ok (valid_count, errors ++ [Line idx MissingTimestamp])
      else
      level <- py_get entry "level" (JStr "") ;;
      if negb (existsb (py_eq_str level) valid_levels) then
        Ok (valid_count, errors ++ [Line idx (InvalidLevel level)])
      else
      duration <- py_get entry "duration_ms" JNull ;;
      bad_duration <-
        (if is_none duration then Ok false
         else if negb (isinstance_int_float duration) then Ok true
         else py_lt duration (JInt 0)) ;;
      if (bad_duration : bool) then
        Ok (valid_count, errors ++ [Line idx (InvalidDuration duration)])
      else
      status <- py_get entry "status_code" JNull ;;
      bad_status <-
        (if is_none status then Ok false
         else if negb (isinstance_int status) then Ok true
         else
           above <- py_le (JInt 100) status ;;
           if (above : bool) then below <- py_le status (JInt 599) ;; Ok (negb below)
           else Ok true) ;;
      if (bad_status : bool) then
        Ok (valid_count, errors ++ [Line idx (InvalidStatusCode status)])
      else Ok (S valid_count, errors)
  end.

Definition validate_logs (log_lines : list string) : result (nat * list rejection) :=
  for_each validate_step (enumerate log_lines 1) (0%nat, []).

(** *** compute_stats *)

(** The first loop: lines that do not decode are skipped. *)
Definition parse_entries (log_lines : list string) : list json :=
  flat_map
    (fun line =>
       match loads line with
       | Decoded entry => [entry]
       | JSONDecodeError _ => []
       end)
    log_lines.

(** [sum(1 for e in entries if e.get('level') == name)]. *)
Definition count_level (name : string) (entries : list json) : result nat :=
  for_each
    (fun count e =>
       level <- py_get e "level" JNull ;;
       Ok (if py_eq_str level name then S count else count))
    entries 0%nat.

(** [[e[k] for e in entries if k in e and e[k] is not None]]. *)
Definition collect (k : string) (entries : list json) : result (list json) :=
  for_each
    (fun acc e =>
       present <- py_contains k e ;;
       if (present : bool) then
         v <- py_getitem e k ;;
         if is_none v then Ok acc else Ok (acc ++ [v])
       else Ok acc)
    entries [].

(** The index [min(int(len(durations) * q), len(durations) - 1)]; the
    product is taken exactly, which gives the integer part of the float
    product for every length below 2 ** 46. *)
Definition percentile_index (n : nat) (q : Q) : nat :=
  Z.to_nat (Z.min (py_int (inject_Z (Z.of_nat n) * q)) (Z.of_nat n - 1)).

(** [durations.sort()]. *)
Definition list_sort (values : list json) : result (list json) :=
  if forallb isinstance_int_float values && existsb is_nan values
  then Ok (nan_sort values)
  else insertion_sort values.

(** The [if durations: ... else: ...] block: average, minimum, maximum
    and the three percentiles. *)
Definition duration_stats (durations : list json)
  : result (json * json * json * json * json * json) :=
  match durations with
  | [] => Ok (JFloat 0, JFloat 0, JFloat 0, JFloat 0, JFloat 0, JFloat 0)
  | _ :: _ =>
      sorted <- list_sort durations ;;
      total <- py_sum sorted ;;
      let n := List.length sorted in
      avg_duration <- py_truediv total n ;;
      let min_duration := nth 0 sorted JNull in
      let max_duration := nth (n - 1) sorted JNull in
      let p50 := nth (percentile_index n (50 # 100)) sorted JNull in
      let p95 := nth (percentile_index n (95 # 100)) sorted JNull in
      let p99 := nth (percentile_index n (99 # 100)) sorted JNull in
      Ok (avg_duration, min_duration, max_duration, p50, p95, p99)
  end.

(** The loop that fills [status_code_distribution]. *)
Definition distribution (entries : list json) : result (list (json * nat)) :=
  for_each
    (fun d entry =>
       present <- py_contains "status_code" entry ;;
       if (present : bool) then
         code <- py_getitem entry "status_code" ;;
         if is_none code then Ok d else dict_incr code d
       else Ok d)
    entries [].

(** The loop that fills [error_count_by_code]. *)
Definition error_codes (entries : list json) : result (list (json * nat)) :=
  for_each
    (fun d entry =>
       code <- py_get entry "status_code" JNull ;;
       if is_none code then Ok d
       else
         is_error <- py_ge code (JInt 400) ;;
         if (is_error : bool) then dict_incr code d else Ok d)
    entries [].

Definition compute_stats (log_lines : list string) : result PythonLogStats :=
  let entries := parse_entries log_lines in
  match entries with
  | [] => Raise (ValueError "No valid log entries found")
  | _ :: _ =>
      errors <- count_level "ERROR" entries ;;
      warns <- count_level "WARN" entries ;;
      infos <- count_level "INFO" entries ;;
      durations <- collect "duration_ms" entries ;;
      '(avg, lo, hi, p50, p95, p99) <- duration_stats durations ;;
      by_status <- distribution entries ;;
      by_error <- error_codes entries ;;
      Ok {| total_count := List.length entries;
            error_count := errors;
            warn_count := warns;
            info_count := infos;
            avg_duration_ms := avg;
            min_duration_ms := lo;
            max_duration_ms := hi;
            p50_duration_ms := p50;
            p95_duration_ms := p95;
            p99_duration_ms := p99;
            status_code_distribution := by_status;
            error_count_by_code := by_error |}
  end.

(** *** filter_logs *)

(** [level_to_num.get(min_level, 0) if min_level else 0]. *)
Definition min_level_num (min_level : option string) : result nat :=
  match min_level with
  | None => Ok 0%nat
  | Some name => if truthy (JStr name) then level_to_num_get (JStr name) else Ok 0%nat
  end.

(** [if status_codes:] holds for a list that is given and not empty. *)
Definition codes_given (status_codes : option (list Z)) : bool :=
  match status_codes with
  | Some (_ :: _) => true
  | _ => false
  end.

(** The body of the filtering loop. *)
Definition filter_step (threshold : nat) (min_duration_ms : option Q)
    (status_codes : option (list Z)) (filtered : list json) (line : string)
  : result (list json) :=
  match loads line with
  | JSONDecodeError _ => Ok filtered
  | Decoded entry =>
      level <- py_get entry "level" (JStr "DEBUG") ;;
      entry_level_num <- level_to_num_get level ;;
      if (entry_level_num <? threshold)%nat then Ok filtered else
      too_fast <-
        match min_duration_ms with
        | None => Ok false
        | Some m =>
            duration <- py_get entry "duration_ms" JNull ;;
            if is_none duration then Ok true else py_lt duration (JFloat m)
        end ;;
      if (too_fast : bool) then Ok filtered else
      unwanted <-
        (if codes_given status_codes then
           status <- py_get entry "status_code" JNull ;;
           if is_none status then Ok true
           else Ok (negb (existsb (py_eq_int status)
                            (match status_codes with Some l => l | None => [] end)))
         else Ok false) ;;
      if (unwanted : bool) then Ok filtered else Ok (filtered ++ [entry])
  end.

Definition filter_logs (log_lines : list string) (min_level : option string)
    (min_duration_ms : option Q) (status_codes : option (list Z))
  : result (list json) :=
  threshold <- min_level_num min_level ;;
  for_each (filter_step threshold min_duration_ms status_codes) log_lines [].

(** *** batch_process *)

Definition batch_process (log_lines : list string)
  : result (PythonLogStats * list rejection) :=
  '(_, errors) <- validate_logs log_lines ;;
  stats <- compute_stats log_lines ;;
  Ok (stats, errors).

End Processor.

(** ** Vocabulary of the specification *)

Definition is_object (v : json) : bool :=
  match v with JObj _ => true | _ => false end.

(** The value of field [k] in a record; [None] when the field is absent. *)
Definition field (k : string) (v : json) : json :=
  match v with
  | JObj kvs => match lookup k kvs with Some x => x | None => JNull end
  | _ => JNull
  end.

(** The values of the records that carry field [k] (present and not
    null), in input order. *)
Definition carried (k : string) (entries : list json) : list json :=
  flat_map (fun e => if is_none (field k e) then [] else [field k e]) entries.

(** A record whose [duration_ms] and [status_code], when carried, are
    numbers. *)
Definition well_typed (v : json) : bool :=
  is_object v
  && (is_none (field "duration_ms" v) || isinstance_int_float (field "duration_ms" v))
  && (is_none (field "status_code" v) || isinstance_int_float (field "status_code" v)).

(** [a] and [b] are numbers, neither of them NaN, and [a <= b]. *)
Definition num_le (a b : json) : Prop := number_le a b = true.

(** [a] and [b] are numbers, neither of them NaN, and [a == b]. *)
Definition num_eq (a b : json) : Prop :=
  number_le a b = true /\ number_le b a = true.

(** The sum of the ints of a list. *)
Fixpoint int_total (values : list json) : Z :=
  match values with
  | [] => 0%Z
  | v :: rest => (match int_of v with Some n => n | None => 0 end + int_total rest)%Z
  end.

(** A list of numbers in ascending order. *)
Definition ascending (values : list json) : Prop := StronglySorted num_le values.

(** The float a number denotes, a finite one in lowest terms, so that
    equal numbers have the same key. *)
Definition key_of (v : json) : float :=
  match num_of v with
  | Some (Finite q) => Finite (Qred q)
  | Some x => x
  | None => NaN
  end.

Definition reduced (x : float) : Prop :=
  match x with Finite q => Qred q = q | _ => True end.

(** [avg] is what [sum(sorted) / len(sorted)] evaluates to. *)
Definition float_average (sorted : list json) (avg : json) : Prop :=
  exists sum,
    py_sum sorted = Ok sum /\ py_truediv sum (List.length sorted) = Ok avg.

(** The duration statistics of the specification: the durations sorted
    ascending, each percentile the element at index [floor(n * q)] clamped
    to [n - 1]; the average is the float [sum / len] of the sorted list,
    which for durations that are all ints is their arithmetic mean rounded
    to the nearest float. *)
Definition nearest_rank (durations : list json) (st : PythonLogStats) : Prop :=
  let n := List.length durations in
  exists sorted,
    Permutation durations sorted
    /\ ascending sorted
    /\ p50_duration_ms st = nth (Nat.min (n * 50 / 100) (n - 1)) sorted JNull
    /\ p95_duration_ms st = nth (Nat.min (n * 95 / 100) (n - 1)) sorted JNull
    /\ p99_duration_ms st = nth (Nat.min (n * 99 / 100) (n - 1)) sorted JNull
    /\ float_average sorted (avg_duration_ms st)
    /\ (forallb isinstance_int durations = true ->
        avg_duration_ms st
        = JFloat (round_float (inject_Z (int_total durations) / inject_Z (Z.of_nat n)))).

(** All six duration statistics are the float [0.0]. *)
Definition zero_durations (st : PythonLogStats) : Prop :=
  avg_duration_ms st = JFloat 0 /\ min_duration_ms st = JFloat 0
  /\ max_duration_ms st = JFloat 0 /\ p50_duration_ms st = JFloat 0
  /\ p95_duration_ms st = JFloat 0 /\ p99_duration_ms st = JFloat 0.

(** The level that [filter_logs] reads from a record ([DEBUG] when the
    field is absent). *)
Definition level_of (entry : json) : json :=
  match entry with
  | JObj kvs => match lookup "level" kvs with Some x => x | None => JStr "DEBUG" end
  | _ => JStr "DEBUG"
  end.

(** The status-code predicate of the specification: the field is present
    and its value is a member of [codes]. *)
Definition status_in (codes : list Z) (entry : json) : bool :=
  is_object entry
  && negb (is_none (field "status_code" entry))
  && existsb (py_eq_int (field "status_code" entry)) codes.

(** The validation rules of a record, each with the reason it reports. *)
Definition rule_timestamp (entry : json) : option reason :=
  if truthy (field "timestamp" entry) then None else Some MissingTimestamp.

Definition rule_level (entry : json) : option reason :=
  let level :=
    match entry with
    | JObj kvs => match lookup "level" kvs with Some x => x | None => JStr "" end
    | _ => JStr ""
    end in
  if existsb (py_eq_str level) valid_levels then None else Some (InvalidLevel level).

Definition rule_duration (entry : json) : option reason :=
  let duration := field "duration_ms" entry in
  if is_none duration then None
  else if isinstance_int_float duration && negb (number_lt duration (JInt 0)) then None
  else Some (InvalidDuration duration).

Definition rule_status (entry : json) : option reason :=
  let status := field "status_code" entry in
  if is_none status then None
  else if isinstance_int status
          && Qle_bool 100 (value status) && Qle_bool (value status) 599 then None
  else Some (InvalidStatusCode status).

(** The rules in the order of the specification. *)
Definition rules : list (json -> option reason) :=
  [rule_timestamp; rule_level; rule_duration; rule_status].

(** The reason of the first rule that the record violates. *)
Fixpoint first_violation (checks : list (json -> option reason)) (entry : json)
  : option reason :=
  match checks with
  | [] => None
  | check :: rest =>
      match check entry with
      | Some why => Some why
      | None => first_violation rest entry
      end
  end.

(** The severity rank of a level: [level_to_num.get(level, 0)] on a
    hashable value. *)
Definition rank (level : json) : nat :=
  match level with
  | JStr s => match assoc s level_to_num with Some n => n | None => 0%nat end
  | _ => 0%nat
  end.

(** The threshold that [filter_logs] derives from [min_level]. *)
Definition threshold_of (min_level : option string) : nat :=
  match min_level with
  | None => 0%nat
  | Some name => rank (JStr name)
  end.

(** The duration predicate: not applied without a minimum, else the
    record carries a number that is not below it. *)
Definition duration_passes (min_duration_ms : option Q) (entry : json) : bool :=
  match min_duration_ms with
  | None => true
  | Some m =>
      negb (is_none (field "duration_ms" entry))
      && isinstance_int_float (field "duration_ms" entry)
      && negb (number_lt (field "duration_ms" entry) (JFloat m))
  end.

(** The status-code predicate, applied when a non-empty list is given. *)
Definition status_passes (status_codes : option (list Z)) (entry : json) : bool :=
  if codes_given status_codes
  then status_in (match status_codes with Some l => l | None => [] end) entry
  else true.

(** The three predicates of [filter_logs], joined by [and]. *)
Definition passes (threshold : nat) (min_duration_ms : option Q)
    (status_codes : option (list Z)) (entry : json) : bool :=
  (threshold <=? rank (level_of entry))%nat
  && duration_passes min_duration_ms entry
  && status_passes status_codes entry.

(** A record on which no check of [filter_logs] can raise. *)
Definition filterable (min_duration_ms : option Q) (entry : json) : bool :=
  is_object entry
  && hashable (level_of entry)
  && match min_duration_ms with
     | None => true
     | Some _ =>
         is_none (field "duration_ms" entry)
         || isinstance_int_float (field "duration_ms" entry)
     end.

(** [d.get(k, 0)] on a histogram. *)
Fixpoint count_of (k : json) (d : list (json * nat)) : nat :=
  match d with
  | [] => 0%nat
  | (k', c) :: rest => if key_eq k k' then c else count_of k rest
  end.

(** The number of values of a list that equal [k] as dict keys. *)
Definition occurrences (k : json) (values : list json) : nat :=
  List.length (filter (key_eq k) values).

(** The number of records whose [level] is [name]. *)
Definition with_level (name : string) (entries : list json) : nat :=
  List.length (filter (fun e => py_eq_str (field "level" e) name) entries).

(** A status code that counts as an error: [code >= 400]. *)
Definition is_error_code (code : json) : bool := number_le (JInt 400) code.

(** A rejection moved [k] lines further down. *)
Definition shift (k : nat) (r : rejection) : rejection :=
  Line (k + position r) (why r).

Section Specification.

Variable loads : string -> decoded.
Variable nan_sort : list json -> list json.

Definition malformed (line : string) : bool :=
  match loads line with JSONDecodeError _ => true | Decoded _ => false end.

(** A line that does not decode, or decodes to a JSON object. *)
Definition object_shaped (line : string) : bool :=
  match loads line with JSONDecodeError _ => true | Decoded v => is_object v end.

(** The expression [(compute_stats(lines), validate_logs(lines)[1])]:
    two independent calls, evaluated from left to right. *)
Definition independent_calls (log_lines : list string)
  : result (PythonLogStats * list rejection) :=
  stats <- compute_stats loads nan_sort log_lines ;;
  '(_, errors) <- validate_logs loads log_lines ;;
  Ok (stats, errors).

(** What [validate_logs] reports for one line at position [idx]. *)
Definition verdict (idx : nat) (line : string) : option rejection :=
  match loads line with
  | JSONDecodeError e => Some (Line idx (JsonParseError e))
  | Decoded entry =>
      match first_violation rules entry with
      | Some why => Some (Line idx why)
      | None => None
      end
  end.

(** The verdicts of the lines numbered from [start], in input order. *)
Definition rejections_from (start : nat) (lines : list string) : list rejection :=
  flat_map
    (fun item => match verdict (fst item) (snd item) with
                 | Some r => [r]
                 | None => []
                 end)
    (enumerate lines start).

End Specification.

(** ** The benchmark data (examples/benchmark.py) *)

(** [str(n)] for a natural number and an int. *)
Definition decimal (n : nat) : string := NilZero.string_of_uint (Nat.to_uint n).

Definition decimal_int (n : Z) : string := NilZero.string_of_int (Z.to_int n).

(** The format [{n:02d}]: at least two digits, padded with a zero. *)
Definition two_digits (n : nat) : string :=
  if (String.length (decimal n) <? 2)%nat then ("0" ++ decimal n)%string
  else decimal n.

Definition levels : list string := ["DEBUG"; "INFO"; "WARN"; "ERROR"].

Definition messages : list string :=
  ["User logged in successfully"; "Database query executed"; "Cache hit for key";
   "API request completed"; "File uploaded"; "Email sent to user";
   "Payment processed"; "Session created"; "Connection established";
   "Request timeout"].

Definition status_codes : list Z :=
  [200; 201; 204; 400; 401; 403; 404; 500; 502; 503]%Z.

(** The dict [log] that round [i] of [generate_test_data] builds; the
    float [5.0 + (i % 200) * 2.5] is kept in lowest terms, the form in
    which a decoder returns it. *)
Definition test_log (i : nat) : json :=
  JObj
    [("timestamp",
      JStr ("2024-01-15T" ++ two_digits ((i / 3600) mod 24) ++ ":"
            ++ two_digits ((i / 60) mod 60) ++ ":" ++ two_digits (i mod 60)
            ++ "Z")%string);
     ("level", JStr (nth (i mod List.length levels) levels ""));
     ("message", JStr (nth (i mod List.length messages) messages ""));
     ("duration_ms", JFloat (Qred (5 + inject_Z (Z.of_nat (i mod 200)) * (5 # 2)))%Q);
     ("status_code", JInt (nth (i mod List.length status_codes) status_codes 0%Z));
     ("user_id", JStr ("user_" ++ decimal (i mod 1000))%string)].

(** [generate_test_data(count)], over the serializer [json.dumps]. *)
Definition generate_test_data (dumps : json -> string) (count : nat) : list string :=
  map (fun i => dumps (test_log i)) (seq 0 count).

(** The text that [json.dumps] writes for a flat record of strings
    without escapes, ints and non-negative floats that are a multiple of
    one half (other floats are outside this serializer). *)
Definition quote : string := String "034"%char EmptyString.

Definition dumps_scalar (v : json) : string :=
  match v with
  | JNull => "null"
  | JBool true => "true"
  | JBool false => "false"
  | JInt n => decimal_int n
  | JFloat (Finite q) =>
      match Qden (Qred q) with
      | 1%positive => (decimal_int (Qnum (Qred q)) ++ ".0")%string
      | 2%positive => (decimal_int (Qnum (Qred q) / 2) ++ ".5")%string
      | _ => "NaN"
      end
  | JFloat (Infinity false) => "Infinity"
  | JFloat (Infinity true) => "-Infinity"
  | JFloat NaN => "NaN"
  | JStr s => (quote ++ s ++ quote)%string
  | _ => "null"
  end.

Definition json_dumps (v : json) : string :=
  match v with
  | JObj kvs =>
      ("{" ++ String.concat ", "
                (map (fun kv => quote ++ fst kv ++ quote ++ ": " ++ dumps_scalar (snd kv))
                   kvs)
       ++ "}")%string
  | _ => dumps_scalar v
  end.

(** ** Example batches *)

(** [list.sort] starts by looking for the run at the front of the list,
    which goes on as long as no element is smaller than the one before
    it; a list that is one such run is left as it is.  [single_run] is
    [list.sort] on those lists: it stands for [nan_sort] where the
    processor is run on an example. *)
Definition single_run (values : list json) : list json := values.

Definition batch_with_malformed_line : list string :=
  [json_text "{'level': 'INFO'}"; "{not json"; json_text "{'level': 'WARN'}"].

(** The three-line batch of the specification. *)
Definition three_line_batch : list string :=
  [json_text "{'timestamp':'2024-01-15T10:30:00Z','level':'INFO','duration_ms':45.2,'status_code':200}";
   json_text "{'timestamp':'','level':'ERROR'}";
   json_text "{'timestamp':'2024-01-15T10:30:01Z','level':'BAD'}"].

(** A record that breaks every rule at once. *)
Definition all_wrong_line : string :=
  json_text "{'timestamp':'','level':'BAD','duration_ms':-1,'status_code':42}".

(** A line that is valid JSON but not an object. *)
Definition batch_with_number_line : list string :=
  [json_text "{'timestamp':'2024-01-15T10:30:00Z','level':'INFO'}"; "42"].

(** A record whose [duration_ms] is a string. *)
Definition batch_with_string_duration : list string :=
  [json_text "{'timestamp':'2024-01-15T10:30:00Z','level':'INFO','duration_ms':'slow'}"].

(** Ten records whose durations are 10, 20, ..., 100, in no order. *)
Definition ten_durations_batch : list string :=
  [json_text "{'duration_ms': 30}"; json_text "{'duration_ms': 10}"; json_text "{'duration_ms': 100}";
   json_text "{'duration_ms': 20}"; json_text "{'duration_ms': 50}"; json_text "{'duration_ms': 40}";
   json_text "{'duration_ms': 70}"; json_text "{'duration_ms': 60}"; json_text "{'duration_ms': 90}";
   json_text "{'duration_ms': 80}"].

(** Records without [duration_ms], one of them with a null one, and a
    line that does not decode. *)
Definition batch_without_durations : list string :=
  [json_text "{'timestamp':'2024-01-15T10:30:00Z','level':'ERROR','status_code':500}";
   "not json";
   json_text "{'timestamp':'2024-01-15T10:30:01Z','level':'INFO','duration_ms':null}"].

(** A record that obeys every rule of [validate_logs] and whose
    [duration_ms] is the int 10 ** 400. *)
Fixpoint repeat_string (s : string) (n : nat) : string :=
  match n with
  | O => EmptyString
  | S k => (s ++ repeat_string s k)%string
  end.

Definition huge_duration_batch : list string :=
  [json_text ("{'timestamp':'2024-01-15T10:30:00Z','level':'INFO','duration_ms':1"
              ++ repeat_string "0" 400 ++ "}")].

(** Five records whose durations are 5.0, NaN, 4.0, NaN, 1.0: no
    duration is smaller than the one before it, because no comparison
    with NaN holds. *)
Definition nan_durations_batch : list string :=
  [json_text "{'duration_ms': 5.0}"; json_text "{'duration_ms': NaN}";
   json_text "{'duration_ms': 4.0}"; json_text "{'duration_ms': NaN}";
   json_text "{'duration_ms': 1.0}"].

(** Two records whose durations are NaN and 1.0. *)
Definition nan_first_batch : list string :=
  [json_text "{'duration_ms': NaN}"; json_text "{'duration_ms': 1.0}"].

(** Three records whose duration is 0.1. *)
Definition three_tenths_batch : list string :=
  [json_text "{'duration_ms': 0.1}"; json_text "{'duration_ms': 0.1}";
   json_text "{'duration_ms': 0.1}"].

(** A line that is valid JSON but a list, not an object. *)
Definition batch_with_array_line : list string := ["[1, 2]"].

(** The sample batch of the module: three records that obey every
    rule. *)
Definition sample_logs : list string :=
  [json_text "{'timestamp': '2024-01-15T10:30:00Z', 'level': 'ERROR', 'message': 'Database connection failed', 'duration_ms': 1250.5, 'status_code': 500, 'user_id': 'user_123'}";
   json_text "{'timestamp': '2024-01-15T10:30:01Z', 'level': 'INFO', 'message': 'Request processed successfully', 'duration_ms': 45.2, 'status_code': 200, 'user_id': 'user_456'}";
   json_text "{'timestamp': '2024-01-15T10:30:02Z', 'level': 'WARN', 'message': 'High memory usage detected', 'duration_ms': 890.0, 'status_code': 200, 'user_id': 'user_789'}"].

(** ** The decoder on a record *)

Unset Implicit Arguments.

Example json_loads_record :
  json_loads (json_text "{'timestamp': '', 'level': 'ERROR', 'duration_ms': 45.2, 'status_code': 200}")
  = Decoded (JObj [("timestamp", JStr ""); ("level", JStr "ERROR");
                   ("duration_ms", JFloat (round_float (226 # 5))); ("status_code", JInt 200)]).
Proof. vm_compute. reflexivity. Qed.

(** ** Loops and the error monad *)

Lemma bind_ok {A B : Type} (c : result A) (k : A -> result B) (b : B) :
  bind c k = Ok b -> exists a, c = Ok a /\ k a = Ok b.
Proof.
  destruct c as [a | e]; simpl; intros H; [exists a; auto | discriminate].
Qed.

Lemma bind_raise {A B : Type} (c : result A) (k : A -> result B) (e : exn) :
  bind c k = Raise e -> c = Raise e \/ exists a, c = Ok a /\ k a = Raise e.
Proof.
  destruct c as [a | e']; simpl; intros H.
  - right. exists a. split; [reflexivity | exact H].
  - left. injection H as ->. reflexivity.
Qed.

Lemma for_each_app {S A : Type} (body : S -> A -> result S) (l1 l2 : list A) (s : S) :
  for_each body (l1 ++ l2) s = (s' <- for_each body l1 s ;; for_each body l2 s').
Proof.
  revert s; induction l1 as [| x l1 IH]; intros s; simpl; [reflexivity |].
  destruct (body s x) as [s' | e]; simpl; [apply IH | reflexivity].
Qed.

(** A list that holds an element satisfying [p] splits at the first one. *)
Lemma split_first {A : Type} (p : A -> bool) (l : list A) :
  existsb p l = true ->
  exists pre x post,
    l = pre ++ x :: post /\ forallb (fun y => negb (p y)) pre = true /\ p x = true.
Proof.
  induction l as [| a l IH]; simpl; [discriminate |].
  destruct (p a) eqn:Ha; simpl.
  - intros _. exists [], a, l. auto.
  - intros H. destruct (IH H) as (pre & x & post & -> & Hpre & Hx).
    exists (a :: pre), x, post. simpl. rewrite Ha. auto.
Qed.

Lemma enumerate_cons {A : Type} (x : A) (l : list A) (start : nat) :
  enumerate (x :: l) start = (start, x) :: enumerate l (S start).
Proof. reflexivity. Qed.

(** ** parse_logs *)

Section ParseLogs.

Variable loads : string -> decoded.

Lemma parse_entries_app (l1 l2 : list string) :
  parse_entries loads (l1 ++ l2) = parse_entries loads l1 ++ parse_entries loads l2.
Proof. apply flat_map_app. Qed.

Lemma parse_entries_all_decoded (lines : list string) :
  existsb (malformed loads) lines = false ->
  List.length (parse_entries loads lines) = List.length lines.
Proof.
  induction lines as [| line lines IH]; simpl; [reflexivity |].
  unfold malformed at 1. destruct (loads line); simpl; [| discriminate].
  intros H. rewrite (IH H). reflexivity.
Qed.

Lemma parse_loop_decoded (lines : list string) (acc : list json) :
  forallb (fun l => negb (malformed loads l)) lines = true ->
  for_each
    (fun results line =>
       match loads line with
       | Decoded entry => Ok (results ++ [entry])
       | JSONDecodeError e => Raise (ValueError ("Parse error: " ++ e)%string)
       end) lines acc
  = Ok (acc ++ parse_entries loads lines).
Proof.
  revert acc; induction lines as [| line lines IH]; intros acc; simpl.
  - rewrite app_nil_r. reflexivity.
  - unfold malformed at 1. destruct (loads line) as [v | e]; simpl; [| discriminate].
    intros H. rewrite (IH _ H), <- app_assoc. reflexivity.
Qed.

(** A batch without malformed line: one result per line, in input order. *)
Lemma parse_logs_all_decoded (lines : list string) :
  existsb (malformed loads) lines = false ->
  parse_logs loads lines = Ok (parse_entries loads lines).
Proof.
  intros H. unfold parse_logs. rewrite parse_loop_decoded; [reflexivity |].
  clear -H. induction lines as [| l lines IH]; simpl in *; [reflexivity |].
  apply orb_false_elim in H as [-> H]. simpl. auto.
Qed.

(** C1, as amended: a batch that holds a malformed line is aborted as a
    whole.  [parse_logs] raises [ValueError] with the decode error of the
    first malformed line and returns no result for any line. *)
Theorem parse_logs_aborts_on_malformed (lines : list string) :
  existsb (malformed loads) lines = true ->
  exists pre line post e,
    lines = pre ++ line :: post
    /\ existsb (malformed loads) pre = false
    /\ loads line = JSONDecodeError e
    /\ parse_logs loads lines = Raise (ValueError ("Parse error: " ++ e)%string).
Proof.
  intros H. destruct (split_first _ _ H) as (pre & line & post & -> & Hpre & Hline).
  unfold malformed in Hline. destruct (loads line) as [v | e] eqn:E; [discriminate |].
  exists pre, line, post, e. repeat split; auto.
  - clear -Hpre. induction pre as [| l pre IH]; simpl in *; [reflexivity |].
    apply andb_prop in Hpre as [Hl Hpre]. apply negb_true_iff in Hl. rewrite Hl. auto.
  - unfold parse_logs. rewrite for_each_app, parse_loop_decoded by exact Hpre.
    simpl. rewrite E. reflexivity.
Qed.

End ParseLogs.

Lemma parse_logs_aborts_on_malformed_witness :
  existsb (malformed json_loads) batch_with_malformed_line = true
  /\ exists pre line post e,
       batch_with_malformed_line = pre ++ line :: post
       /\ existsb (malformed json_loads) pre = false
       /\ json_loads line = JSONDecodeError e
       /\ parse_logs json_loads batch_with_malformed_line
          = Raise (ValueError ("Parse error: " ++ e)%string).
Proof.
  split; [reflexivity |].
  apply (parse_logs_aborts_on_malformed json_loads batch_with_malformed_line).
  reflexivity.
Defined.

(** C1, as stated, fails: on a batch with a malformed second line
    [parse_logs] returns no list of results at all. *)
Lemma parse_logs_does_not_isolate :
  existsb (malformed json_loads) batch_with_malformed_line = true
  /\ ~ (exists results,
          parse_logs json_loads batch_with_malformed_line = Ok results
          /\ List.length results = List.length batch_with_malformed_line).
Proof.
  split; [reflexivity |].
  intros (results & H & _). vm_compute in H. discriminate.
Qed.

(** ** validate_logs *)

Section ValidateLogs.

Variable loads : string -> decoded.

Lemma validate_step_malformed (valid_count : nat) (errors : list rejection)
    (idx : nat) (line e : string) :
  loads line = JSONDecodeError e ->
  validate_step loads (valid_count, errors) (idx, line)
  = Ok (valid_count, errors ++ [Line idx (JsonParseError e)]).
Proof. intros H. unfold validate_step. rewrite H. reflexivity. Qed.

Lemma validate_step_not_object (st : nat * list rejection) (idx : nat)
    (line : string) (v : json) :
  loads line = Decoded v -> is_object v = false ->
  validate_step loads st (idx, line) = Raise (AttributeError (type_of v) "get").
Proof.
  intros H Hv. destruct st as [valid_count errors]. unfold validate_step.
  rewrite H. destruct v; try discriminate; reflexivity.
Qed.

Lemma check_duration (duration : json) :
  (if is_none duration then Ok false
   else if negb (isinstance_int_float duration) then Ok true
   else py_lt duration (JInt 0))
  = Ok (negb (is_none duration
              || isinstance_int_float duration && negb (number_lt duration (JInt 0)))).
Proof.
  destruct duration; cbn -[float_lt]; try reflexivity;
    rewrite negb_involutive; reflexivity.
Qed.

Lemma check_status (status : json) :
  (if is_none status then Ok false
   else if negb (isinstance_int status) then Ok true
   else
     above <- py_le (JInt 100) status ;;
     if (above : bool) then below <- py_le status (JInt 599) ;; Ok (negb below)
     else Ok true)
  = Ok (negb (is_none status
              || isinstance_int status
                 && Qle_bool 100 (value status) && Qle_bool (value status) 599)).
Proof.
  destruct status; cbn -[Qle_bool]; try reflexivity;
    destruct (Qle_bool _ _); reflexivity.
Qed.

(** On a record the loop body never raises, and what it appends is the
    reason of the first violated rule. *)
Lemma validate_step_record (valid_count : nat) (errors : list rejection)
    (idx : nat) (line : string) (entry : json) :
  loads line = Decoded entry -> is_object entry = true ->
  validate_step loads (valid_count, errors) (idx, line)
  = match first_violation rules entry with
    | None => Ok (S valid_count, errors)
    | Some why => Ok (valid_count, errors ++ [Line idx why])
    end.
Proof.
  intros H Hobj. destruct entry as [| | | | | |kvs]; try discriminate.
  unfold validate_step. rewrite H. cbn [py_get bind first_violation rules].
  rewrite check_duration, check_status. cbn [bind].
  unfold rule_timestamp, rule_level, rule_duration, rule_status. cbn [field].
  destruct (truthy _); cbn [negb]; [| reflexivity].
  destruct (existsb _ valid_levels); cbn [negb]; [| reflexivity].
  destruct (is_none (match lookup "duration_ms" kvs with Some x => x | None => JNull end));
    cbn [orb negb];
    [| destruct (isinstance_int_float _ && negb (number_lt _ _)); cbn [negb];
       [| reflexivity]];
    (destruct (is_none (match lookup "status_code" kvs with Some x => x | None => JNull end));
     cbn [orb negb]; [reflexivity |];
     destruct (isinstance_int _ && Qle_bool 100 _ && Qle_bool _ 599); reflexivity).
Qed.

(** One line moves exactly one unit: to the count or to the list. *)
Lemma validate_step_one_unit (valid_count : nat) (errors : list rejection)
    (idx : nat) (line : string) :
  object_shaped loads line = true ->
  validate_step loads (valid_count, errors) (idx, line) = Ok (S valid_count, errors)
  \/ exists why,
       validate_step loads (valid_count, errors) (idx, line)
       = Ok (valid_count, errors ++ [Line idx why]).
Proof.
  unfold object_shaped. destruct (loads line) as [v | e] eqn:E; intros H.
  - rewrite (validate_step_record _ _ _ _ _ E H).
    destruct (first_violation rules v) as [why |]; [right; exists why |]; auto.
  - right. exists (JsonParseError e). apply validate_step_malformed, E.
Qed.

Lemma validate_loop (lines : list string) (start valid_count : nat)
    (errors : list rejection) :
  forallb (object_shaped loads) lines = true ->
  exists valid_count' added,
    for_each (validate_step loads) (enumerate lines start) (valid_count, errors)
    = Ok (valid_count', errors ++ added)
    /\ (valid_count' + List.length added = valid_count + List.length lines)%nat
    /\ StronglySorted lt (map position added)
    /\ Forall (fun r => start <= position r < start + List.length lines)%nat added.
Proof.
  revert start valid_count errors.
  induction lines as [| line lines IH]; intros start valid_count errors H.
  - exists valid_count, []. cbn. rewrite app_nil_r.
    repeat split; auto; constructor.
  - cbn [forallb] in H. apply andb_prop in H as [Hline Hrest].
    rewrite enumerate_cons. cbn [for_each].
    destruct (validate_step_one_unit valid_count errors start line Hline)
      as [E | (why & E)]; rewrite E; cbn [bind].
    + destruct (IH (S start) (S valid_count) errors Hrest)
        as (v' & added & Hrun & Hcount & Hsorted & Hpos).
      exists v', added. repeat split; auto.
      * cbn [List.length]. lia.
      * eapply Forall_impl; [| exact Hpos]. cbn. intros; lia.
    + destruct (IH (S start) valid_count (errors ++ [Line start why]) Hrest)
        as (v' & added & Hrun & Hcount & Hsorted & Hpos).
      exists v', (Line start why :: added).
      rewrite Hrun, <- app_assoc. repeat split; auto.
      * cbn [List.length]. lia.
      * cbn [map position]. constructor; [exact Hsorted |].
        rewrite Forall_map. eapply Forall_impl; [| exact Hpos]. cbn. intros; lia.
      * constructor; [cbn; lia |].
        eapply Forall_impl; [| exact Hpos]. cbn. intros; lia.
Qed.

(** C3, as amended: on a batch whose lines are malformed or decode to a
    JSON object, [validate_logs] returns a pair whose two parts add up to
    the number of lines, each line giving one unit to the count or to the
    rejection list, and the rejections follow input order. *)
Theorem validate_logs_accounts_for_every_line (lines : list string) :
  forallb (object_shaped loads) lines = true ->
  exists valid_count rejections,
    validate_logs loads lines = Ok (valid_count, rejections)
    /\ (valid_count + List.length rejections = List.length lines)%nat
    /\ StronglySorted lt (map position rejections)
    /\ Forall (fun r => 1 <= position r <= List.length lines)%nat rejections.
Proof.
  intros H. destruct (validate_loop lines 1 0 [] H)
    as (v' & added & Hrun & Hcount & Hsorted & Hpos).
  exists v', added. unfold validate_logs. rewrite Hrun. repeat split; auto.
  eapply Forall_impl; [| exact Hpos]. cbn. intros; lia.
Qed.

(** The loop raises only at a line that decodes to something else than
    an object, and then with the [AttributeError] of that value. *)
Lemma validate_loop_raise (lines : list string) (start : nat)
    (st : nat * list rejection) (e : exn) :
  for_each (validate_step loads) (enumerate lines start) st = Raise e ->
  exists pre line post v,
    lines = pre ++ line :: post
    /\ forallb (object_shaped loads) pre = true
    /\ loads line = Decoded v
    /\ is_object v = false
    /\ e = AttributeError (type_of v) "get".
Proof.
  revert start st. induction lines as [| line lines IH]; intros start st H.
  - discriminate.
  - rewrite enumerate_cons in H. cbn [for_each] in H.
    destruct (object_shaped loads line) eqn:Hshape.
    + destruct st as [valid_count errors].
      destruct (validate_step_one_unit valid_count errors start line Hshape)
        as [E | (why & E)]; rewrite E in H; cbn [bind] in H;
        destruct (IH _ _ H) as (pre & l & post & v & -> & Hpre & Hl & Hv & ->);
        exists (line :: pre), l, post, v; cbn [forallb]; rewrite Hshape; auto.
    + unfold object_shaped in Hshape.
      destruct (loads line) as [v | msg] eqn:E; [| discriminate].
      rewrite (validate_step_not_object st start line v E Hshape) in H.
      cbn in H. injection H as <-.
      exists [], line, lines, v. auto.
Qed.

End ValidateLogs.

Lemma validate_logs_accounts_for_every_line_witness :
  forallb (object_shaped json_loads) three_line_batch = true
  /\ exists valid_count rejections,
       validate_logs json_loads three_line_batch = Ok (valid_count, rejections)
       /\ (valid_count + List.length rejections = List.length three_line_batch)%nat
       /\ StronglySorted lt (map position rejections)
       /\ Forall (fun r => 1 <= position r <= List.length three_line_batch)%nat
            rejections.
Proof.
  split; [reflexivity |].
  apply (validate_logs_accounts_for_every_line json_loads three_line_batch).
  reflexivity.
Defined.

(** C3, as stated, fails: a line that decodes to a number makes
    [validate_logs] raise [AttributeError], so no pair is returned. *)
Lemma validate_logs_raises_on_number_line :
  validate_logs json_loads batch_with_number_line = Raise (AttributeError TInt "get")
  /\ ~ (exists valid_count rejections,
          validate_logs json_loads batch_with_number_line
          = Ok (valid_count, rejections)
          /\ (valid_count + List.length rejections
              = List.length batch_with_number_line)%nat).
Proof.
  split; [reflexivity |].
  intros (valid_count & rejections & H & _). vm_compute in H. discriminate.
Qed.

(** C6: the loop body of [validate_logs] checks a line in the order
    parse, timestamp, level, duration_ms, status_code and stops at the
    first violation: a malformed line gets the parse error alone, a record
    gets the reason of the first rule of [rules] it violates and no other,
    and a record that violates none is counted.  On the three-line batch
    of the specification the result is one valid line and the rejections
    of line 2 (missing timestamp) and line 3 (invalid level). *)
Theorem validate_logs_reports_first_violation :
  (forall loads valid_count errors idx line e,
      loads line = JSONDecodeError e ->
      validate_step loads (valid_count, errors) (idx, line)
      = Ok (valid_count, errors ++ [Line idx (JsonParseError e)]))
  /\ (forall loads valid_count errors idx line entry,
        loads line = Decoded entry -> is_object entry = true ->
        validate_step loads (valid_count, errors) (idx, line)
        = match first_violation
                  [rule_timestamp; rule_level; rule_duration; rule_status] entry with
          | None => Ok (S valid_count, errors)
          | Some why => Ok (valid_count, errors ++ [Line idx why])
          end)
  /\ validate_logs json_loads three_line_batch
     = Ok (1%nat, [Line 2 MissingTimestamp; Line 3 (InvalidLevel (JStr "BAD"))]).
Proof.
  split; [| split].
  - intros. apply validate_step_malformed; assumption.
  - intros. apply validate_step_record; assumption.
  - reflexivity.
Qed.

Lemma validate_logs_reports_first_violation_witness :
  json_loads all_wrong_line
  = Decoded (JObj [("timestamp", JStr ""); ("level", JStr "BAD");
                   ("duration_ms", JInt (-1)); ("status_code", JInt 42)])
  /\ validate_step json_loads (0%nat, []) (1%nat, all_wrong_line)
     = Ok (0%nat, [Line 1 MissingTimestamp]).
Proof.
  split; [reflexivity |].
  rewrite (proj1 (proj2 validate_logs_reports_first_violation)
             json_loads 0%nat [] 1%nat all_wrong_line
             (JObj [("timestamp", JStr ""); ("level", JStr "BAD");
                    ("duration_ms", JInt (-1)); ("status_code", JInt 42)])
             eq_refl eq_refl).
  reflexivity.
Defined.

(** ** compute_stats: the entries and the level counts *)

Section Entries.

Variable loads : string -> decoded.
Variable nan_sort : list json -> list json.

Lemma parse_entries_object_shaped (lines : list string) :
  forallb (object_shaped loads) lines = true ->
  forallb is_object (parse_entries loads lines) = true.
Proof.
  induction lines as [| line lines IH]; cbn; [reflexivity |].
  unfold object_shaped at 1. intros H. apply andb_prop in H as [Hl Hrest].
  destruct (loads line); cbn; [rewrite Hl |]; auto.
Qed.

Lemma count_loop_objects (name : string) (entries : list json) (count : nat) :
  forallb is_object entries = true ->
  exists n,
    for_each
      (fun count e =>
         level <- py_get e "level" JNull ;;
         Ok (if py_eq_str level name then S count else count))
      entries count = Ok n.
Proof.
  revert count. induction entries as [| e entries IH]; intros count H; cbn.
  - exists count. reflexivity.
  - cbn in H. apply andb_prop in H as [He Hrest].
    destruct e; try discriminate. cbn. apply IH, Hrest.
Qed.

Lemma count_level_raise (name : string) (pre post : list json) (v : json) :
  forallb is_object pre = true -> is_object v = false ->
  count_level name (pre ++ v :: post) = Raise (AttributeError (type_of v) "get").
Proof.
  intros Hpre Hv. unfold count_level. rewrite for_each_app.
  destruct (count_loop_objects name pre 0 Hpre) as [n ->]. cbn.
  destruct v; try discriminate; reflexivity.
Qed.

(** The counts succeed only when every entry is an object. *)
Lemma count_level_objects (name : string) (entries : list json) (n : nat) :
  count_level name entries = Ok n -> forallb is_object entries = true.
Proof.
  intros H. destruct (forallb is_object entries) eqn:E; [reflexivity |].
  assert (Hex : existsb (fun v => negb (is_object v)) entries = true).
  { clear -E. induction entries as [| e l IH]; cbn in *; [discriminate |].
    destruct (is_object e); cbn in *; auto. }
  destruct (split_first _ _ Hex) as (pre & v & post & -> & Hpre & Hv).
  rewrite count_level_raise in H; [discriminate | | ].
  - clear -Hpre. induction pre as [| e l IH]; cbn in *; [reflexivity |].
    apply andb_prop in Hpre as [He Hl]. apply negb_true_iff in He.
    rewrite negb_false_iff in He. rewrite He. auto.
  - apply negb_true_iff, Hv.
Qed.

Lemma collect_loop (k : string) (entries acc : list json) :
  forallb is_object entries = true ->
  for_each
    (fun acc e =>
       present <- py_contains k e ;;
       if (present : bool) then
         v <- py_getitem e k ;;
         if is_none v then Ok acc else Ok (acc ++ [v])
       else Ok acc)
    entries acc
  = Ok (acc ++ carried k entries).
Proof.
  revert acc. induction entries as [| e entries IH]; intros acc H; cbn.
  - rewrite app_nil_r. reflexivity.
  - cbn in H. apply andb_prop in H as [He Hrest].
    destruct e as [| | | | | |kvs]; try discriminate. cbn.
    destruct (lookup k kvs) as [v |]; cbn.
    + destruct (is_none v); cbn; rewrite (IH _ Hrest); [reflexivity |].
      rewrite <- app_assoc. reflexivity.
    + apply IH, Hrest.
Qed.

Lemma collect_objects (k : string) (entries : list json) :
  forallb is_object entries = true ->
  collect k entries = Ok (carried k entries).
Proof. intros H. unfold collect. rewrite collect_loop by exact H. reflexivity. Qed.

(** A line that decodes to something else than an object makes
    [compute_stats] raise the [AttributeError] of the first such value. *)
Lemma compute_stats_raise_not_object (pre post : list string) (line : string) (v : json) :
  forallb (object_shaped loads) pre = true ->
  loads line = Decoded v -> is_object v = false ->
  compute_stats loads nan_sort (pre ++ line :: post) = Raise (AttributeError (type_of v) "get").
Proof.
  intros Hpre Hline Hv. unfold compute_stats.
  rewrite parse_entries_app. cbn [parse_entries flat_map]. rewrite Hline.
  cbn [app]. fold (parse_entries loads post).
  assert (E : count_level "ERROR" (parse_entries loads pre ++ v :: parse_entries loads post)
              = Raise (AttributeError (type_of v) "get")).
  { apply count_level_raise; [apply parse_entries_object_shaped, Hpre | exact Hv]. }
  destruct (parse_entries loads pre ++ v :: parse_entries loads post) eqn:El.
  - destruct (parse_entries loads pre); discriminate.
  - rewrite E. reflexivity.
Qed.

(** C4: for every batch [batch_process] yields what the two independent
    calls yield: the same pair of statistics and rejections when both
    return, and the same exception when one of them raises. *)
Theorem batch_process_is_independent_calls (lines : list string) :
  batch_process loads nan_sort lines = independent_calls loads nan_sort lines
  /\ (forall stats rejections,
        batch_process loads nan_sort lines = Ok (stats, rejections)
        <-> compute_stats loads nan_sort lines = Ok stats
            /\ exists valid_count,
                 validate_logs loads lines = Ok (valid_count, rejections)).
Proof.
  split.
  2: { intros stats rejections. unfold batch_process.
       destruct (validate_logs loads lines) as [[valid_count errors] | e]; cbn.
       - destruct (compute_stats loads nan_sort lines) as [st | e]; cbn; split.
         + intros H. injection H as -> ->. split; [reflexivity | eauto].
         + intros [H [n Hn]]. injection H as ->. injection Hn as _ ->. reflexivity.
         + discriminate.
         + intros [H _]. discriminate.
       - split; [discriminate | intros [_ [n Hn]]; discriminate]. }
  unfold batch_process, independent_calls.
  destruct (validate_logs loads lines) as [[valid_count errors] | e] eqn:Ev; cbn.
  - destruct (compute_stats loads nan_sort lines); reflexivity.
  - unfold validate_logs in Ev.
    destruct (validate_loop_raise loads lines 1 _ e Ev)
      as (pre & line & post & v & -> & Hpre & Hline & Hv & ->).
    rewrite (compute_stats_raise_not_object pre post line v Hpre Hline Hv).
    reflexivity.
Qed.

End Entries.

(** ** Sorting and summing the durations *)

Lemma number_num_of (v : json) (x : float) :
  num_of v = Some x -> isinstance_int_float v = true.
Proof. destruct v; try discriminate; reflexivity. Qed.

Lemma num_of_number (v : json) :
  isinstance_int_float v = true -> exists x, num_of v = Some x.
Proof. destruct v; try discriminate; eexists; reflexivity. Qed.

Lemma ordered_number (v : json) :
  ordered v = true -> isinstance_int_float v = true.
Proof. unfold ordered. intros H. apply andb_prop in H as [H _]. exact H. Qed.

Lemma ordered_num_of (v : json) :
  ordered v = true -> exists x, num_of v = Some x /\ x <> NaN.
Proof.
  destruct v as [| b | n | [q | s |] | | |]; try discriminate; intros _;
    eexists; (split; [reflexivity | discriminate]).
Qed.

Lemma forallb_ordered (values : list json) :
  forallb ordered values
  = forallb isinstance_int_float values && negb (existsb is_nan values).
Proof.
  induction values as [| v values IH]; cbn; [reflexivity |]. rewrite IH.
  unfold ordered. rewrite negb_orb.
  destruct (isinstance_int_float v), (is_nan v),
    (forallb isinstance_int_float values), (existsb is_nan values); reflexivity.
Qed.

Lemma py_lt_numbers (a b : json) :
  isinstance_int_float a = true -> isinstance_int_float b = true ->
  py_lt a b = Ok (number_lt a b).
Proof.
  intros Ha Hb. unfold py_lt, number_lt.
  destruct (num_of_number a Ha) as [x ->], (num_of_number b Hb) as [y ->].
  reflexivity.
Qed.

Lemma py_lt_raise (a b : json) (e : exn) : py_lt a b = Raise e -> e = TypeError.
Proof.
  unfold py_lt. destruct (num_of a), (num_of b); try congruence.
  destruct a, b; congruence.
Qed.

Lemma py_le_raise (a b : json) (e : exn) : py_le a b = Raise e -> e = TypeError.
Proof.
  unfold py_le. destruct (num_of a), (num_of b); try congruence.
  destruct a, b; congruence.
Qed.

Lemma Qlt_bool_true (p q : Q) : Qlt_bool p q = true -> (p <= q)%Q.
Proof.
  unfold Qlt_bool. intros H. apply negb_true_iff in H.
  apply Qlt_le_weak, Qnot_le_lt. intros C. apply Qle_bool_iff in C. congruence.
Qed.

Lemma Qlt_bool_false (p q : Q) : Qlt_bool p q = false -> (q <= p)%Q.
Proof.
  unfold Qlt_bool. intros H. apply negb_false_iff in H. apply Qle_bool_iff, H.
Qed.

(** On floats other than NaN, [<=] is a total preorder that agrees with
    [<]. *)
Lemma float_lt_le (x y : float) : float_lt x y = true -> float_le x y = true.
Proof.
  destruct x as [p | [|] |], y as [q | [|] |]; cbn; try congruence.
  intros H. apply Qle_bool_iff, Qlt_bool_true, H.
Qed.

Lemma float_not_lt_le (x y : float) :
  x <> NaN -> y <> NaN -> float_lt y x = false -> float_le x y = true.
Proof.
  destruct x as [p | [|] |], y as [q | [|] |]; cbn; try congruence; intros _ _.
  intros H. apply Qle_bool_iff, Qlt_bool_false, H.
Qed.

Lemma float_le_trans (x y z : float) :
  float_le x y = true -> float_le y z = true -> float_le x z = true.
Proof.
  destruct x as [p | [|] |], y as [q | [|] |], z as [r | [|] |]; cbn;
    try congruence.
  intros H1 H2. apply Qle_bool_iff in H1, H2. apply Qle_bool_iff.
  eapply Qle_trans; eauto.
Qed.

Lemma float_le_antisym (x y : float) :
  float_le x y = true -> float_le y x = true -> same_float x y = true.
Proof.
  destruct x as [p | [|] |], y as [q | [|] |]; cbn; try congruence.
  intros H1 H2. apply Qle_bool_iff in H1, H2. apply Qeq_bool_iff, Qle_antisym; auto.
Qed.

Lemma number_lt_le (a b : json) : number_lt a b = true -> num_le a b.
Proof.
  unfold num_le, number_lt, number_le.
  destruct (num_of a), (num_of b); try discriminate. apply float_lt_le.
Qed.

Lemma number_not_lt_le (a b : json) :
  ordered a = true -> ordered b = true -> number_lt b a = false -> num_le a b.
Proof.
  intros Ha Hb. unfold num_le, number_lt, number_le.
  destruct (ordered_num_of a Ha) as (x & -> & Hx).
  destruct (ordered_num_of b Hb) as (y & -> & Hy).
  apply float_not_lt_le; assumption.
Qed.

Lemma num_le_trans (a b c : json) : num_le a b -> num_le b c -> num_le a c.
Proof.
  unfold num_le, number_le.
  destruct (num_of a), (num_of b), (num_of c); try discriminate.
  apply float_le_trans.
Qed.

(** What [<=] holds of is a pair of numbers without NaN. *)
Lemma num_le_ordered (a b : json) : num_le a b -> ordered a = true /\ ordered b = true.
Proof.
  unfold num_le, number_le, ordered.
  destruct a as [| ? | ? | [? | ? |] | | |]; cbn; try discriminate;
    destruct b as [| ? | ? | [? | ? |] | | |]; cbn; try discriminate; auto.
Qed.

Lemma insert_sorted_perm (x : json) (sorted r : list json) :
  insert_sorted x sorted = Ok r -> Permutation (x :: sorted) r.
Proof.
  revert r. induction sorted as [| y rest IH]; intros r H; cbn in H.
  - injection H as <-. apply Permutation_refl.
  - apply bind_ok in H as (smaller & _ & H). destruct smaller.
    + apply bind_ok in H as (r' & Hr' & H). injection H as <-.
      rewrite perm_swap. apply perm_skip, IH, Hr'.
    + injection H as <-. apply Permutation_refl.
Qed.

Lemma insertion_sort_perm (values sorted : list json) :
  insertion_sort values = Ok sorted -> Permutation values sorted.
Proof.
  revert sorted. induction values as [| x rest IH]; intros sorted H; cbn in H.
  - injection H as <-. constructor.
  - apply bind_ok in H as (s & Hs & H).
    rewrite <- (insert_sorted_perm _ _ _ H). apply perm_skip, IH, Hs.
Qed.

Lemma insert_sorted_raise (x : json) (sorted : list json) (e : exn) :
  insert_sorted x sorted = Raise e -> e = TypeError.
Proof.
  induction sorted as [| y rest IH]; cbn; [discriminate |].
  intros H. apply bind_raise in H as [H | (smaller & _ & H)].
  - eapply py_lt_raise, H.
  - destruct smaller; [| discriminate].
    apply bind_raise in H as [H | (r & _ & H)]; [auto | discriminate].
Qed.

Lemma insertion_sort_raise (values : list json) (e : exn) :
  insertion_sort values = Raise e -> e = TypeError.
Proof.
  induction values as [| x rest IH]; cbn; [discriminate |].
  intros H. apply bind_raise in H as [H | (s & _ & H)]; [auto |].
  eapply insert_sorted_raise, H.
Qed.

Lemma forallb_perm {A : Type} (p : A -> bool) (l l' : list A) :
  Permutation l l' -> forallb p l = forallb p l'.
Proof.
  induction 1; cbn; try congruence.
  destruct (p x), (p y); reflexivity.
Qed.

Lemma existsb_perm {A : Type} (p : A -> bool) (l l' : list A) :
  Permutation l l' -> existsb p l = existsb p l'.
Proof.
  induction 1; cbn; try congruence.
  destruct (p x), (p y); reflexivity.
Qed.

Lemma insert_sorted_ordered (x : json) (sorted : list json) :
  ordered x = true ->
  forallb ordered sorted = true ->
  ascending sorted ->
  exists r, insert_sorted x sorted = Ok r /\ ascending r.
Proof.
  intros Hx. induction sorted as [| y rest IH]; intros Hnum Hasc; cbn.
  - exists [x]. split; [reflexivity |]. repeat constructor.
  - cbn in Hnum. apply andb_prop in Hnum as [Hy Hrest].
    apply StronglySorted_inv in Hasc as [Hasc Hall].
    rewrite (py_lt_numbers y x (ordered_number y Hy) (ordered_number x Hx)). cbn.
    destruct (number_lt y x) eqn:Hlt.
    + destruct (IH Hrest Hasc) as (r & Hr & Hr_asc). rewrite Hr. cbn.
      exists (y :: r). split; [reflexivity |]. constructor; [exact Hr_asc |].
      eapply Permutation_Forall; [apply insert_sorted_perm, Hr |].
      constructor; [apply number_lt_le, Hlt | exact Hall].
    + exists (x :: y :: rest). split; [reflexivity |].
      pose proof (number_not_lt_le x y Hx Hy Hlt) as Hle.
      constructor; [constructor; assumption |].
      constructor; [exact Hle |].
      eapply Forall_impl; [| exact Hall]. cbn. intros b Hb.
      eapply num_le_trans; eauto.
Qed.

(** A list of numbers without NaN sorts without error into an ascending
    list. *)
Lemma insertion_sort_ordered (values : list json) :
  forallb ordered values = true ->
  exists sorted, insertion_sort values = Ok sorted /\ ascending sorted.
Proof.
  induction values as [| x rest IH]; cbn; intros H.
  - exists []. split; [reflexivity | constructor].
  - apply andb_prop in H as [Hx Hrest].
    destruct (IH Hrest) as (s & Hs & Hasc). rewrite Hs. cbn.
    apply insert_sorted_ordered; auto.
    rewrite <- (forallb_perm _ _ _ (insertion_sort_perm _ _ Hs)). exact Hrest.
Qed.

(** *** The sum *)

Lemma float_of_int_raise (n : Z) (e : exn) :
  float_of_int n = Raise e -> e = OverflowError.
Proof. unfold float_of_int. destruct (round_float _); congruence. Qed.

Lemma py_float_raise (v : json) (e : exn) :
  isinstance_int_float v = true -> py_float v = Raise e -> e = OverflowError.
Proof.
  destruct v; try discriminate; intros _; cbn; try discriminate;
    apply float_of_int_raise.
Qed.

(** On two numbers [+] can only fail by overflow. *)
Lemma py_add_numbers (a b : json) (e : exn) :
  isinstance_int_float a = true -> isinstance_int_float b = true ->
  py_add a b = Raise e -> e = OverflowError.
Proof.
  intros Ha Hb. unfold py_add. rewrite Ha, Hb. cbn [andb].
  destruct (int_of a), (int_of b); try discriminate;
    (intros H; apply bind_raise in H as [H | (x & _ & H)];
     [eapply py_float_raise; [| exact H]; assumption
     | apply bind_raise in H as [H | (y & _ & H)];
       [eapply py_float_raise; [| exact H]; assumption | discriminate]]).
Qed.

Lemma py_add_raise (a b : json) (e : exn) :
  py_add a b = Raise e -> e = TypeError \/ e = OverflowError.
Proof.
  destruct (isinstance_int_float a && isinstance_int_float b) eqn:Hab.
  - apply andb_prop in Hab as [Ha Hb]. intros H. right.
    apply (py_add_numbers a b e Ha Hb H).
  - unfold py_add. rewrite Hab.
    destruct (int_of a), (int_of b); try discriminate;
      intros H; injection H as <-; auto.
Qed.

Lemma py_add_ok (a b c : json) :
  py_add a b = Ok c ->
  isinstance_int_float a = true /\ isinstance_int_float b = true
  /\ isinstance_int_float c = true.
Proof.
  unfold py_add. destruct (int_of a) as [m |] eqn:Ea, (int_of b) as [n |] eqn:Eb.
  - intros H. injection H as <-.
    destruct a; try discriminate; destruct b; try discriminate; auto.
  - destruct (isinstance_int_float a), (isinstance_int_float b); cbn [andb];
      try discriminate.
    intros H. apply bind_ok in H as (x & _ & H). apply bind_ok in H as (y & _ & H).
    injection H as <-. auto.
  - destruct (isinstance_int_float a), (isinstance_int_float b); cbn [andb];
      try discriminate.
    intros H. apply bind_ok in H as (x & _ & H). apply bind_ok in H as (y & _ & H).
    injection H as <-. auto.
  - destruct (isinstance_int_float a), (isinstance_int_float b); cbn [andb];
      try discriminate.
    intros H. apply bind_ok in H as (x & _ & H). apply bind_ok in H as (y & _ & H).
    injection H as <-. auto.
Qed.

Lemma py_add_floats (x y : float) :
  py_add (JFloat x) (JFloat y) = Ok (JFloat (float_add x y)).
Proof. reflexivity. Qed.

Lemma py_add_zero_float (y : float) :
  py_add (JInt 0) (JFloat y) = Ok (JFloat (float_add 0 y)).
Proof. reflexivity. Qed.

Lemma py_add_ints (m : Z) (b : json) (n : Z) :
  int_of b = Some n -> py_add (JInt m) b = Ok (JInt (m + n)).
Proof. intros H. unfold py_add. cbn [int_of]. rewrite H. reflexivity. Qed.

Lemma py_sum_loop_ok (values : list json) (acc t : json) :
  for_each py_add values acc = Ok t ->
  forallb isinstance_int_float values = true.
Proof.
  revert acc. induction values as [| v rest IH]; intros acc H; [reflexivity |].
  cbn [for_each] in H. apply bind_ok in H as (acc' & Hadd & H).
  cbn [forallb]. rewrite (IH _ H), andb_true_r. apply py_add_ok in Hadd. tauto.
Qed.

(** The sum of numbers is a number. *)
Lemma py_sum_loop_number (values : list json) (acc t : json) :
  isinstance_int_float acc = true ->
  for_each py_add values acc = Ok t ->
  isinstance_int_float t = true.
Proof.
  revert acc. induction values as [| v rest IH]; intros acc Hacc H.
  - cbn in H. congruence.
  - cbn [for_each] in H. apply bind_ok in H as (acc' & Hadd & H).
    apply py_add_ok in Hadd. eapply IH; [| exact H]. tauto.
Qed.

Lemma py_sum_loop_raise (values : list json) (acc : json) (e : exn) :
  for_each py_add values acc = Raise e -> e = TypeError \/ e = OverflowError.
Proof.
  revert acc. induction values as [| v rest IH]; intros acc H; [discriminate |].
  cbn [for_each] in H. apply bind_raise in H as [H | (acc' & _ & H)].
  - eapply py_add_raise, H.
  - eapply IH, H.
Qed.

(** On numbers the sum can only fail by overflow. *)
Lemma py_sum_loop_numbers (values : list json) (acc : json) (e : exn) :
  isinstance_int_float acc = true ->
  forallb isinstance_int_float values = true ->
  for_each py_add values acc = Raise e -> e = OverflowError.
Proof.
  revert acc. induction values as [| v rest IH]; intros acc Hacc H Hr; [discriminate |].
  cbn [forallb] in H. apply andb_prop in H as [Hv Hrest].
  cbn [for_each] in Hr. apply bind_raise in Hr as [Hr | (acc' & Hadd & Hr)].
  - apply (py_add_numbers acc v e Hacc Hv Hr).
  - apply py_add_ok in Hadd. eapply IH; [| exact Hrest | exact Hr]. tauto.
Qed.

(** A run of floats adds up to a float and never fails. *)
Lemma py_sum_loop_floats (values : list json) (x : float) :
  forallb is_float values = true ->
  exists y, for_each py_add values (JFloat x) = Ok (JFloat y).
Proof.
  revert x. induction values as [| v rest IH]; intros x H.
  - exists x. reflexivity.
  - cbn [forallb] in H. apply andb_prop in H as [Hv Hrest].
    destruct v as [| | | y | | |]; try discriminate.
    cbn [for_each]. rewrite py_add_floats. cbn [bind]. apply IH, Hrest.
Qed.

Lemma py_sum_floats (values : list json) :
  forallb is_float values = true -> values <> [] ->
  exists x, py_sum values = Ok (JFloat x).
Proof.
  intros H Hne. unfold py_sum. destruct values as [| v rest]; [congruence |].
  cbn [forallb] in H. apply andb_prop in H as [Hv Hrest].
  destruct v as [| | | y | | |]; try discriminate.
  cbn [for_each]. rewrite py_add_zero_float. cbn [bind].
  apply py_sum_loop_floats, Hrest.
Qed.

Lemma int_of_isinstance (v : json) :
  isinstance_int v = true -> exists n, int_of v = Some n.
Proof. destruct v; try discriminate; eexists; reflexivity. Qed.

(** Ints add up exactly. *)
Lemma py_sum_loop_ints (values : list json) (a : Z) :
  forallb isinstance_int values = true ->
  for_each py_add values (JInt a) = Ok (JInt (a + int_total values)).
Proof.
  revert a. induction values as [| v rest IH]; intros a H.
  - cbn. rewrite Z.add_0_r. reflexivity.
  - cbn [forallb] in H. apply andb_prop in H as [Hv Hrest].
    destruct (int_of_isinstance v Hv) as [n Hn].
    cbn [for_each int_total]. rewrite (py_add_ints a v n Hn), Hn. cbn [bind].
    rewrite (IH _ Hrest). f_equal. f_equal. lia.
Qed.

Lemma int_total_perm (l l' : list json) :
  Permutation l l' -> int_total l = int_total l'.
Proof. induction 1; cbn; lia. Qed.

(** *** The division *)

Lemma py_truediv_raise (total : json) (n : nat) (e : exn) :
  isinstance_int_float total = true -> n <> 0%nat ->
  py_truediv total n = Raise e -> e = OverflowError.
Proof.
  intros Ht Hn. destruct n as [| n]; [congruence |]. unfold py_truediv.
  destruct total as [| ? | ? | ? | | |]; try discriminate; cbn [int_of];
    destruct (round_float _); congruence.
Qed.

Lemma py_truediv_float (x : float) (n : nat) :
  n <> 0%nat -> exists avg, py_truediv (JFloat x) n = Ok avg.
Proof.
  intros Hn. destruct n as [| n]; [congruence |]. eexists. reflexivity.
Qed.

Lemma py_truediv_int (m : Z) (n : nat) (avg : json) :
  py_truediv (JInt m) n = Ok avg ->
  avg = JFloat (round_float (inject_Z m / inject_Z (Z.of_nat n))).
Proof.
  destruct n as [| n]; [discriminate |]. unfold py_truediv. cbn [int_of].
  destruct (round_float _); congruence.
Qed.

(** The index of a percentile is the integer floor of [n * q], capped. *)
Lemma percentile_index_floor (n pct : nat) :
  percentile_index n (Z.of_nat pct # 100) = Nat.min (n * pct / 100) (n - 1).
Proof.
  unfold percentile_index, py_int.
  assert (Hnonneg : Qle_bool 0 (inject_Z (Z.of_nat n) * (Z.of_nat pct # 100)) = true).
  { apply Qle_bool_iff. apply Qmult_le_0_compat.
    - unfold Qle; cbn. lia.
    - unfold Qle; cbn. lia. }
  rewrite Hnonneg. unfold Qfloor, Qmult, inject_Z. cbn [Qnum Qden].
  change (Z.pos (1 * 100)) with 100%Z.
  destruct n as [| n].
  - cbn. reflexivity.
  - rewrite <- Nat2Z.inj_mul.
    replace (Z.of_nat (S n * pct) / 100)%Z with (Z.of_nat (S n * pct / 100))
      by (rewrite Nat2Z.inj_div; reflexivity).
    replace (Z.of_nat (S n) - 1)%Z with (Z.of_nat (S n - 1)) by lia.
    rewrite <- Nat2Z.inj_min. apply Nat2Z.id.
Qed.

(** ** compute_stats: the duration block and the two histograms *)

Section DurationBlock.

Variable nan_sort : list json -> list json.

Lemma list_sort_ordered (values : list json) :
  existsb is_nan values = false -> list_sort nan_sort values = insertion_sort values.
Proof. intros H. unfold list_sort. rewrite H, andb_false_r. reflexivity. Qed.

Lemma list_sort_raise (values : list json) (e : exn) :
  list_sort nan_sort values = Raise e -> e = TypeError.
Proof.
  unfold list_sort. destruct (_ && _); [discriminate | apply insertion_sort_raise].
Qed.

(** What the block returns on a non-empty duration list. *)
Lemma duration_stats_inv (durations : list json) (avg lo hi p50 p95 p99 : json) :
  durations <> [] ->
  duration_stats nan_sort durations = Ok (avg, lo, hi, p50, p95, p99) ->
  exists sorted,
    list_sort nan_sort durations = Ok sorted
    /\ forallb isinstance_int_float durations = true
    /\ float_average sorted avg
    /\ lo = nth 0 sorted JNull
    /\ hi = nth (List.length sorted - 1) sorted JNull
    /\ p50 = nth (percentile_index (List.length sorted) (50 # 100)) sorted JNull
    /\ p95 = nth (percentile_index (List.length sorted) (95 # 100)) sorted JNull
    /\ p99 = nth (percentile_index (List.length sorted) (99 # 100)) sorted JNull.
Proof.
  intros Hne H. destruct durations as [| d rest]; [congruence |].
  unfold duration_stats in H.
  apply bind_ok in H as (sorted & Hsort & H).
  apply bind_ok in H as (t & Hsum & H).
  apply bind_ok in H as (a & Hdiv & H).
  injection H as <- <- <- <- <- <-.
  exists sorted. split; [exact Hsort |]. split.
  - unfold list_sort in Hsort.
    destruct (forallb isinstance_int_float (d :: rest)) eqn:Hnum; [reflexivity |].
    cbn [andb] in Hsort.
    rewrite (forallb_perm _ _ _ (insertion_sort_perm _ _ Hsort)) in Hnum.
    unfold py_sum in Hsum. rewrite (py_sum_loop_ok _ _ _ Hsum) in Hnum. discriminate.
  - split; [exists t; auto |]. repeat split.
Qed.

(** Without NaN the sorted list is the ascending arrangement of the
    durations. *)
Lemma list_sort_ascending (durations sorted : list json) :
  forallb isinstance_int_float durations = true ->
  existsb is_nan durations = false ->
  list_sort nan_sort durations = Ok sorted ->
  Permutation durations sorted /\ ascending sorted.
Proof.
  intros Hnum Hnan H. rewrite (list_sort_ordered _ Hnan) in H.
  split; [apply insertion_sort_perm, H |].
  destruct (insertion_sort_ordered durations) as (sorted' & Hs & Hasc).
  - rewrite forallb_ordered, Hnum, Hnan. reflexivity.
  - rewrite H in Hs. injection Hs as <-. exact Hasc.
Qed.

Lemma duration_stats_ok_numbers (durations : list json)
    (r : json * json * json * json * json * json) :
  duration_stats nan_sort durations = Ok r ->
  forallb isinstance_int_float durations = true.
Proof.
  destruct durations as [| d rest] eqn:E; [reflexivity |]. rewrite <- E.
  destruct r as [[[[[avg lo] hi] p50] p95] p99]. intros H.
  apply duration_stats_inv in H; [| subst; discriminate].
  destruct H as (sorted & _ & H & _). exact H.
Qed.

(** The block returns as soon as the sorted list adds up and divides. *)
Lemma duration_stats_returns (durations sorted : list json) (t : json) :
  list_sort nan_sort durations = Ok sorted ->
  py_sum sorted = Ok t ->
  (exists avg, py_truediv t (List.length sorted) = Ok avg) ->
  exists r, duration_stats nan_sort durations = Ok r.
Proof.
  intros Hsort Hsum [avg Hdiv]. destruct durations as [| d rest]; [eexists; reflexivity |].
  unfold duration_stats. rewrite Hsort. cbn [bind]. rewrite Hsum. cbn [bind].
  rewrite Hdiv. cbn [bind]. eexists. reflexivity.
Qed.

(** A sorted list of floats adds up and divides. *)
Lemma duration_stats_sorted_floats (durations sorted : list json) :
  list_sort nan_sort durations = Ok sorted ->
  Permutation durations sorted ->
  forallb is_float durations = true ->
  exists r, duration_stats nan_sort durations = Ok r.
Proof.
  intros Hsort Hperm Hf. destruct durations as [| d rest] eqn:E; [eexists; reflexivity |].
  rewrite <- E in *.
  assert (Hne : sorted <> []).
  { intros C. rewrite C in Hperm. apply Permutation_sym, Permutation_nil in Hperm.
    congruence. }
  rewrite (forallb_perm _ _ _ Hperm) in Hf.
  destruct (py_sum_floats sorted Hf Hne) as [x Hx].
  apply (duration_stats_returns _ sorted (JFloat x) Hsort Hx).
  apply py_truediv_float. destruct sorted; [congruence | discriminate].
Qed.

(** Floats without NaN: the block needs nothing of [nan_sort] and cannot
    overflow. *)
Lemma duration_stats_ordered_floats (durations : list json) :
  forallb is_float durations = true ->
  existsb is_nan durations = false ->
  exists r, duration_stats nan_sort durations = Ok r.
Proof.
  intros Hf Hnan.
  assert (Hnum : forallb isinstance_int_float durations = true).
  { rewrite forallb_forall in Hf |- *. intros v Hv. specialize (Hf v Hv).
    destruct v; try discriminate; reflexivity. }
  destruct (insertion_sort_ordered durations) as (sorted & Hs & _).
  { rewrite forallb_ordered, Hnum, Hnan. reflexivity. }
  pose proof (insertion_sort_perm _ _ Hs) as Hperm.
  rewrite <- (list_sort_ordered _ Hnan) in Hs.
  eapply duration_stats_sorted_floats; eauto.
Qed.

(** From here on [nan_sort] is what it stands for: a rearrangement of
    the list it is given. *)
Hypothesis nan_sort_permutes : forall values, Permutation values (nan_sort values).

Lemma list_sort_perm (values sorted : list json) :
  list_sort nan_sort values = Ok sorted -> Permutation values sorted.
Proof.
  unfold list_sort. destruct (_ && _).
  - intros H. injection H as <-. apply nan_sort_permutes.
  - apply insertion_sort_perm.
Qed.

Lemma list_sort_numbers (values : list json) :
  forallb isinstance_int_float values = true ->
  exists sorted, list_sort nan_sort values = Ok sorted.
Proof.
  intros Hnum. unfold list_sort. rewrite Hnum. cbn [andb].
  destruct (existsb is_nan values) eqn:Hnan; [eexists; reflexivity |].
  destruct (insertion_sort_ordered values) as (sorted & Hs & _).
  - rewrite forallb_ordered, Hnum, Hnan. reflexivity.
  - exists sorted. exact Hs.
Qed.

(** The block fails with [TypeError] or with [OverflowError] and in no
    other way, and on numbers with [OverflowError] alone. *)
Lemma duration_stats_raise (durations : list json) (e : exn) :
  duration_stats nan_sort durations = Raise e ->
  (e = TypeError \/ e = OverflowError)
  /\ (forallb isinstance_int_float durations = true -> e = OverflowError).
Proof.
  destruct durations as [| d rest] eqn:E; [discriminate |]. rewrite <- E.
  assert (Hne : durations <> []) by (subst; discriminate).
  replace (duration_stats nan_sort durations)
    with (sorted <- list_sort nan_sort durations ;;
          total <- py_sum sorted ;;
          avg_duration <- py_truediv total (List.length sorted) ;;
          Ok (avg_duration, nth 0 sorted JNull,
              nth (List.length sorted - 1) sorted JNull,
              nth (percentile_index (List.length sorted) (50 # 100)) sorted JNull,
              nth (percentile_index (List.length sorted) (95 # 100)) sorted JNull,
              nth (percentile_index (List.length sorted) (99 # 100)) sorted JNull))
    by (rewrite E; reflexivity).
  intros H. apply bind_raise in H as [H | (sorted & Hs & H)].
  - rewrite (list_sort_raise _ _ H). split; [auto |]. intros Hnum.
    destruct (list_sort_numbers _ Hnum) as [sorted Hs]. rewrite Hs in H.
    discriminate.
  - pose proof (list_sort_perm _ _ Hs) as Hperm.
    assert (Hlen : List.length sorted <> 0%nat).
    { rewrite <- (Permutation_length Hperm). subst durations. discriminate. }
    apply bind_raise in H as [H | (t & Hsum & H)].
    + split; [eapply py_sum_loop_raise, H |]. intros Hnum.
      rewrite (forallb_perm _ _ _ Hperm) in Hnum.
      eapply py_sum_loop_numbers; [| exact Hnum | exact H]. reflexivity.
    + apply bind_raise in H as [H | (a & _ & H)]; [| discriminate].
      assert (He : e = OverflowError).
      { eapply py_truediv_raise; [| exact Hlen | exact H].
        eapply py_sum_loop_number; [| exact Hsum]. reflexivity. }
      subst e. auto.
Qed.

End DurationBlock.

Lemma incr_hashable (code : json) (d : list (json * nat)) :
  isinstance_int_float code = true -> dict_incr code d = Ok (incr code d).
Proof. intros H. unfold dict_incr. destruct code; try discriminate; reflexivity. Qed.

Lemma dict_incr_raise (code : json) (d : list (json * nat)) (e : exn) :
  dict_incr code d = Raise e -> e = TypeError.
Proof. unfold dict_incr. destruct (hashable code); congruence. Qed.

Lemma distribution_loop (entries : list json) (d : list (json * nat)) :
  forallb well_typed entries = true ->
  exists d',
    for_each
      (fun d entry =>
         present <- py_contains "status_code" entry ;;
         if (present : bool) then
           code <- py_getitem entry "status_code" ;;
           if is_none code then Ok d else dict_incr code d
         else Ok d)
      entries d = Ok d'.
Proof.
  revert d. induction entries as [| e entries IH]; intros d H; cbn [for_each].
  - eexists; reflexivity.
  - cbn [forallb] in H. apply andb_prop in H as [He Hrest].
    unfold well_typed in He. apply andb_prop in He as [He Hstatus].
    apply andb_prop in He as [Hobj _].
    destruct e as [| | | | | |kvs]; try discriminate. cbn in Hstatus |- *.
    destruct (lookup "status_code" kvs) as [code |]; cbn; [| apply IH, Hrest].
    destruct (is_none code) eqn:Hn; cbn; [apply IH, Hrest |].
    cbn in Hstatus. rewrite (incr_hashable _ _ Hstatus). cbn. apply IH, Hrest.
Qed.

Lemma distribution_loop_raise (entries : list json) (d : list (json * nat)) (e : exn) :
  forallb is_object entries = true ->
  for_each
    (fun d entry =>
       present <- py_contains "status_code" entry ;;
       if (present : bool) then
         code <- py_getitem entry "status_code" ;;
         if is_none code then Ok d else dict_incr code d
       else Ok d)
    entries d = Raise e ->
  e = TypeError.
Proof.
  revert d. induction entries as [| x entries IH]; intros d Hobj H; cbn [for_each] in H.
  - discriminate.
  - cbn [forallb] in Hobj. apply andb_prop in Hobj as [Hx Hrest].
    destruct x as [| | | | | |kvs]; try discriminate. cbn in H.
    destruct (lookup "status_code" kvs) as [code |]; cbn in H; [| eapply IH; eauto].
    destruct (is_none code); cbn in H; [eapply IH; eauto |].
    apply bind_raise in H as [H | (d' & _ & H)];
      [eapply dict_incr_raise, H | eapply IH; eauto].
Qed.

Lemma py_ge_number (code : json) :
  isinstance_int_float code = true ->
  py_ge code (JInt 400) = Ok (is_error_code code).
Proof.
  intros H. unfold py_ge, py_le, is_error_code, number_le.
  destruct (num_of_number code H) as [x ->]. reflexivity.
Qed.

Lemma error_codes_loop (entries : list json) (d : list (json * nat)) :
  forallb well_typed entries = true ->
  exists d',
    for_each
      (fun d entry =>
         code <- py_get entry "status_code" JNull ;;
         if is_none code then Ok d
         else
           is_error <- py_ge code (JInt 400) ;;
           if (is_error : bool) then dict_incr code d else Ok d)
      entries d = Ok d'.
Proof.
  revert d. induction entries as [| e entries IH]; intros d H; cbn [for_each].
  - eexists; reflexivity.
  - cbn [forallb] in H. apply andb_prop in H as [He Hrest].
    unfold well_typed in He. apply andb_prop in He as [He Hstatus].
    apply andb_prop in He as [Hobj _].
    destruct e as [| | | | | |kvs]; try discriminate.
    cbn [py_get bind]. cbn [field] in Hstatus.
    set (code := match lookup "status_code" kvs with Some x => x | None => JNull end)
      in *.
    destruct (is_none code) eqn:Hn; [apply IH, Hrest |].
    cbn [orb] in Hstatus. rewrite (py_ge_number _ Hstatus). cbn [bind].
    destruct (is_error_code code); [| apply IH, Hrest].
    rewrite (incr_hashable _ _ Hstatus). cbn [bind]. apply IH, Hrest.
Qed.

(** The second histogram loop succeeds only on numeric status codes. *)
Lemma error_codes_loop_ok (entries : list json) (d d' : list (json * nat)) :
  forallb is_object entries = true ->
  for_each
    (fun d entry =>
       code <- py_get entry "status_code" JNull ;;
       if is_none code then Ok d
       else
         is_error <- py_ge code (JInt 400) ;;
         if (is_error : bool) then dict_incr code d else Ok d)
    entries d = Ok d' ->
  forallb (fun e => is_none (field "status_code" e)
                    || isinstance_int_float (field "status_code" e)) entries = true.
Proof.
  revert d. induction entries as [| x entries IH]; intros d Hobj H; [reflexivity |].
  cbn [for_each] in H. cbn [forallb] in Hobj |- *.
  apply andb_prop in Hobj as [Hx Hrest].
  destruct x as [| | | | | |kvs]; try discriminate.
  apply bind_ok in H as (d1 & Hstep & H). rewrite (IH _ Hrest H), andb_true_r.
  cbn in Hstep |- *. destruct (is_none _) eqn:Hn; [reflexivity |]. cbn.
  apply bind_ok in Hstep as (b & Hge & _).
  unfold py_ge, py_le in Hge. cbn [num_of] in Hge.
  destruct (num_of _) as [q |] eqn:Eq; [| discriminate].
  eapply number_num_of, Eq.
Qed.

Lemma error_codes_loop_raise (entries : list json) (d : list (json * nat)) (e : exn) :
  forallb is_object entries = true ->
  for_each
    (fun d entry =>
       code <- py_get entry "status_code" JNull ;;
       if is_none code then Ok d
       else
         is_error <- py_ge code (JInt 400) ;;
         if (is_error : bool) then dict_incr code d else Ok d)
    entries d = Raise e ->
  e = TypeError.
Proof.
  revert d. induction entries as [| x entries IH]; intros d Hobj H; cbn [for_each] in H.
  - discriminate.
  - cbn [forallb] in Hobj. apply andb_prop in Hobj as [Hx Hrest].
    destruct x as [| | | | | |kvs]; try discriminate.
    apply bind_raise in H as [H | (d1 & _ & H)]; [| eapply IH; eauto].
    cbn in H. destruct (is_none _); [discriminate |].
    apply bind_raise in H as [H | (b & _ & H)];
      [destruct (num_of _) in H; congruence |].
    destruct b; [eapply dict_incr_raise, H | discriminate].
Qed.

Lemma count_level_raise_kind (name : string) (entries : list json) (e : exn) :
  count_level name entries = Raise e -> exists ty, e = AttributeError ty "get".
Proof.
  unfold count_level. generalize 0%nat.
  induction entries as [| x entries IH]; intros n H; cbn [for_each] in H.
  - discriminate.
  - apply bind_raise in H as [H | (n' & _ & H)]; [| eapply IH, H].
    destruct x; cbn in H; try discriminate; injection H as <-; eauto.
Qed.

Lemma carried_numbers (k : string) (entries : list json) :
  forallb (fun e => is_none (field k e) || isinstance_int_float (field k e)) entries
  = forallb isinstance_int_float (carried k entries).
Proof.
  induction entries as [| e entries IH]; cbn; [reflexivity |].
  rewrite IH. destruct (is_none (field k e)) eqn:Hn; cbn; reflexivity.
Qed.

Lemma forallb_andb {A : Type} (p q : A -> bool) (l : list A) :
  forallb (fun x => p x && q x) l = forallb p l && forallb q l.
Proof.
  induction l as [| x l IH]; cbn; [reflexivity |]. rewrite IH.
  destruct (p x), (q x), (forallb p l), (forallb q l); reflexivity.
Qed.

Lemma well_typed_split (entries : list json) :
  forallb well_typed entries
  = forallb is_object entries
    && forallb isinstance_int_float (carried "duration_ms" entries)
    && forallb isinstance_int_float (carried "status_code" entries).
Proof.
  unfold well_typed. rewrite !forallb_andb, <- !carried_numbers. reflexivity.
Qed.

(** ** compute_stats as a whole *)

Section ComputeStats.

Variable loads : string -> decoded.
Variable nan_sort : list json -> list json.

(** What a returned [PythonLogStats] tells about the batch. *)
Lemma compute_stats_inv (lines : list string) (st : PythonLogStats) :
  compute_stats loads nan_sort lines = Ok st ->
  parse_entries loads lines <> []
  /\ forallb well_typed (parse_entries loads lines) = true
  /\ total_count st = List.length (parse_entries loads lines)
  /\ duration_stats nan_sort (carried "duration_ms" (parse_entries loads lines))
     = Ok (avg_duration_ms st, min_duration_ms st, max_duration_ms st,
           p50_duration_ms st, p95_duration_ms st, p99_duration_ms st).
Proof.
  unfold compute_stats. set (entries := parse_entries loads lines).
  destruct entries as [| e0 rest] eqn:E; [discriminate |]. rewrite <- E. intros H.
  apply bind_ok in H as (errors & Herr & H).
  apply bind_ok in H as (warns & _ & H).
  apply bind_ok in H as (infos & _ & H).
  pose proof (count_level_objects _ _ _ Herr) as Hobj.
  rewrite (collect_objects _ _ Hobj) in H. cbn [bind] in H.
  apply bind_ok in H as ([[[[[avg lo] hi] p50] p95] p99] & Hdur & H).
  apply bind_ok in H as (by_status & _ & H).
  apply bind_ok in H as (by_error & Hcodes & H).
  injection H as <-. cbn. repeat split; auto.
  - rewrite E. discriminate.
  - rewrite well_typed_split, Hobj, (duration_stats_ok_numbers _ _ _ Hdur).
    rewrite <- carried_numbers. unfold error_codes in Hcodes.
    rewrite (error_codes_loop_ok _ _ _ Hobj Hcodes). reflexivity.
Qed.

(** On well-typed records the call does what the duration block does:
    it returns when the block returns and raises what the block raises. *)
Lemma compute_stats_well_typed (lines : list string) :
  parse_entries loads lines <> [] ->
  forallb well_typed (parse_entries loads lines) = true ->
  match duration_stats nan_sort (carried "duration_ms" (parse_entries loads lines)) with
  | Ok _ => exists st, compute_stats loads nan_sort lines = Ok st
  | Raise e => compute_stats loads nan_sort lines = Raise e
  end.
Proof.
  unfold compute_stats. cbv zeta. generalize (parse_entries loads lines).
  intros entries Hne Htyped. destruct entries as [| e0 rest]; [congruence |].
  set (entries := e0 :: rest) in *.
  pose proof Htyped as Hsplit. rewrite well_typed_split in Hsplit.
  apply andb_prop in Hsplit as [Hsplit _]. apply andb_prop in Hsplit as [Hobj Hdur].
  unfold count_level.
  destruct (count_loop_objects "ERROR" entries 0 Hobj) as (n1 & ->).
  destruct (count_loop_objects "WARN" entries 0 Hobj) as (n2 & ->).
  destruct (count_loop_objects "INFO" entries 0 Hobj) as (n3 & ->).
  rewrite (collect_objects _ _ Hobj). cbn [bind].
  destruct (duration_stats nan_sort (carried "duration_ms" entries))
    as [[[[[[avg lo] hi] p50] p95] p99] | e]; [| reflexivity].
  cbn [bind]. unfold distribution, error_codes.
  destruct (distribution_loop entries [] Htyped) as (d1 & ->).
  destruct (error_codes_loop entries [] Htyped) as (d2 & ->).
  cbn. eexists; reflexivity.
Qed.

(** Well-typed records whose durations are floats without NaN. *)
Lemma compute_stats_ordered_floats (lines : list string) :
  parse_entries loads lines <> [] ->
  forallb well_typed (parse_entries loads lines) = true ->
  forallb is_float (carried "duration_ms" (parse_entries loads lines)) = true ->
  existsb is_nan (carried "duration_ms" (parse_entries loads lines)) = false ->
  exists st, compute_stats loads nan_sort lines = Ok st.
Proof.
  intros Hne Htyped Hf Hnan. pose proof (compute_stats_well_typed lines Hne Htyped) as H.
  destruct (duration_stats_ordered_floats nan_sort _ Hf Hnan) as [r Hr].
  rewrite Hr in H. exact H.
Qed.

Hypothesis nan_sort_permutes : forall values, Permutation values (nan_sort values).

(** The exceptions that leave [compute_stats]. *)
Lemma compute_stats_raise_kind (lines : list string) (e : exn) :
  compute_stats loads nan_sort lines = Raise e ->
  (parse_entries loads lines = [] /\ e = ValueError "No valid log entries found")
  \/ (parse_entries loads lines <> []
      /\ (e = TypeError \/ e = OverflowError \/ exists ty, e = AttributeError ty "get")).
Proof.
  unfold compute_stats. set (entries := parse_entries loads lines).
  destruct entries as [| e0 rest] eqn:E.
  - intros H. injection H as <-. left. auto.
  - rewrite <- E. intros H. right. split; [rewrite E; discriminate |].
    apply bind_raise in H as [H | (errors & Herr & H)];
      [right; right; eapply count_level_raise_kind, H |].
    apply bind_raise in H as [H | (warns & _ & H)];
      [right; right; eapply count_level_raise_kind, H |].
    apply bind_raise in H as [H | (infos & _ & H)];
      [right; right; eapply count_level_raise_kind, H |].
    pose proof (count_level_objects _ _ _ Herr) as Hobj.
    rewrite (collect_objects _ _ Hobj) in H. cbn [bind] in H.
    apply bind_raise in H as [H | ([[[[[avg lo] hi] p50] p95] p99] & _ & H)].
    { destruct (duration_stats_raise nan_sort nan_sort_permutes _ _ H) as [[-> | ->] _];
        auto. }
    apply bind_raise in H as [H | (by_status & _ & H)];
      [left; eapply distribution_loop_raise; eauto |].
    apply bind_raise in H as [H | (by_error & _ & H)];
      [left; eapply error_codes_loop_raise; eauto | discriminate].
Qed.

(** On well-typed records the call returns or raises [OverflowError]. *)
Lemma compute_stats_numbers (lines : list string) :
  parse_entries loads lines <> [] ->
  forallb well_typed (parse_entries loads lines) = true ->
  (exists st, compute_stats loads nan_sort lines = Ok st)
  \/ compute_stats loads nan_sort lines = Raise OverflowError.
Proof.
  intros Hne Htyped. pose proof (compute_stats_well_typed lines Hne Htyped) as H.
  destruct (duration_stats nan_sort _) as [r | e] eqn:E; [left; exact H |].
  right. rewrite H. f_equal.
  apply (proj2 (duration_stats_raise nan_sort nan_sort_permutes _ _ E)).
  rewrite well_typed_split in Htyped. apply andb_prop in Htyped as [Htyped _].
  apply andb_prop in Htyped as [_ Hd]. exact Hd.
Qed.

(** On well-typed records whose durations are floats the call returns. *)
Lemma compute_stats_floats (lines : list string) :
  parse_entries loads lines <> [] ->
  forallb well_typed (parse_entries loads lines) = true ->
  forallb is_float (carried "duration_ms" (parse_entries loads lines)) = true ->
  exists st, compute_stats loads nan_sort lines = Ok st.
Proof.
  intros Hne Htyped Hf. pose proof (compute_stats_well_typed lines Hne Htyped) as H.
  set (durations := carried "duration_ms" (parse_entries loads lines)) in *.
  assert (Hnum : forallb isinstance_int_float durations = true).
  { rewrite forallb_forall in Hf |- *. intros v Hv. specialize (Hf v Hv).
    destruct v; try discriminate; reflexivity. }
  destruct (list_sort_numbers nan_sort durations Hnum) as [sorted Hs].
  destruct (duration_stats_sorted_floats nan_sort durations sorted Hs
              (list_sort_perm nan_sort nan_sort_permutes _ _ Hs) Hf) as [r Hr].
  rewrite Hr in H. exact H.
Qed.

(** C2, as amended: [compute_stats] raises the [ValueError] of an empty
    population if and only if no line of the batch parses.  When at
    least one line parses, the call returns statistics only if every
    parsed line is a record (a JSON object) whose [duration_ms] and
    [status_code], where carried, are numbers.  On such records it
    returns unless [sum(durations) / len(durations)] raises
    [OverflowError] on an int that is too large for a float, which cannot
    happen when the durations are floats.  A parsed line of another shape
    aborts the call with [AttributeError], [TypeError] or
    [OverflowError]. *)
Theorem compute_stats_completes_iff_well_typed (lines : list string) :
  (compute_stats loads nan_sort lines = Raise (ValueError "No valid log entries found")
   <-> parse_entries loads lines = [])
  /\ (forall st,
        compute_stats loads nan_sort lines = Ok st ->
        parse_entries loads lines <> []
        /\ forallb well_typed (parse_entries loads lines) = true)
  /\ (parse_entries loads lines <> [] ->
      forallb well_typed (parse_entries loads lines) = true ->
      (exists st, compute_stats loads nan_sort lines = Ok st)
      \/ compute_stats loads nan_sort lines = Raise OverflowError)
  /\ (parse_entries loads lines <> [] ->
      forallb well_typed (parse_entries loads lines) = true ->
      forallb is_float (carried "duration_ms" (parse_entries loads lines)) = true ->
      exists st, compute_stats loads nan_sort lines = Ok st)
  /\ (parse_entries loads lines <> [] ->
      forallb well_typed (parse_entries loads lines) = false ->
      compute_stats loads nan_sort lines = Raise TypeError
      \/ compute_stats loads nan_sort lines = Raise OverflowError
      \/ exists ty, compute_stats loads nan_sort lines = Raise (AttributeError ty "get")).
Proof.
  split; [| split; [| split; [| split]]].
  - split.
    + intros H.
      apply compute_stats_raise_kind in H as [[H _] | [_ [H | [H | [ty H]]]]];
        [exact H | discriminate | discriminate | discriminate].
    + intros H. unfold compute_stats. rewrite H. reflexivity.
  - intros st H. apply compute_stats_inv in H. tauto.
  - apply compute_stats_numbers.
  - apply compute_stats_floats.
  - intros Hne Hbad. destruct (compute_stats loads nan_sort lines) as [st | e] eqn:E.
    + apply compute_stats_inv in E. destruct E as (_ & E & _). congruence.
    + apply compute_stats_raise_kind in E as [[H _] | [_ [H | [H | [ty H]]]]];
        [congruence | left | right; left | right; right; exists ty]; congruence.
Qed.

End ComputeStats.

Lemma compute_stats_completes_iff_well_typed_witness :
  (exists st, compute_stats json_loads single_run three_line_batch = Ok st)
  /\ compute_stats json_loads single_run huge_duration_batch = Raise OverflowError
  /\ (exists ty,
        compute_stats json_loads single_run batch_with_number_line
        = Raise (AttributeError ty "get")).
Proof.
  pose proof (compute_stats_completes_iff_well_typed json_loads single_run
                (fun values => Permutation_refl values)) as H.
  split; [| split].
  - apply (proj1 (proj2 (proj2 (proj2 (H three_line_batch)))));
      [discriminate | reflexivity | reflexivity].
  - destruct (proj1 (proj2 (proj2 (H huge_duration_batch)))) as [[st Hst] | Hraise];
      [discriminate | reflexivity | | exact Hraise].
    vm_compute in Hst. discriminate.
  - destruct (proj2 (proj2 (proj2 (proj2 (H batch_with_number_line)))))
      as [Hr | [Hr | Hr]]; [discriminate | reflexivity | | | exact Hr];
      vm_compute in Hr; discriminate.
Defined.

(** C2, as stated, fails: the one line of the batch parses, and a string
    in [duration_ms] aborts the call with [TypeError]. *)
Lemma compute_stats_aborts_on_string_duration :
  parse_entries json_loads batch_with_string_duration <> []
  /\ compute_stats json_loads single_run batch_with_string_duration = Raise TypeError
  /\ ~ ((forall st, compute_stats json_loads single_run batch_with_string_duration <> Ok st)
        <-> parse_entries json_loads batch_with_string_duration = []).
Proof.
  split; [discriminate |]. split; [reflexivity |].
  intros [H _]. assert (E : parse_entries json_loads batch_with_string_duration = []).
  { apply H. intros st C. vm_compute in C. discriminate. }
  vm_compute in E. discriminate.
Qed.

Section DurationStatistics.

Variable loads : string -> decoded.
Variable nan_sort : list json -> list json.

Lemma durations_give_entries (lines : list string) :
  carried "duration_ms" (parse_entries loads lines) <> [] ->
  parse_entries loads lines <> [].
Proof. intros H E. rewrite E in H. apply H. reflexivity. Qed.

(** The sorted durations behind the statistics of a batch without NaN. *)
Lemma compute_stats_sorted (lines : list string) (st : PythonLogStats) :
  compute_stats loads nan_sort lines = Ok st ->
  carried "duration_ms" (parse_entries loads lines) <> [] ->
  existsb is_nan (carried "duration_ms" (parse_entries loads lines)) = false ->
  let n := List.length (carried "duration_ms" (parse_entries loads lines)) in
  exists sorted,
    Permutation (carried "duration_ms" (parse_entries loads lines)) sorted
    /\ ascending sorted
    /\ forallb ordered sorted = true
    /\ float_average sorted (avg_duration_ms st)
    /\ min_duration_ms st = nth 0 sorted JNull
    /\ max_duration_ms st = nth (n - 1) sorted JNull
    /\ p50_duration_ms st = nth (Nat.min (n * 50 / 100) (n - 1)) sorted JNull
    /\ p95_duration_ms st = nth (Nat.min (n * 95 / 100) (n - 1)) sorted JNull
    /\ p99_duration_ms st = nth (Nat.min (n * 99 / 100) (n - 1)) sorted JNull.
Proof.
  intros H Hne Hnan. apply compute_stats_inv in H as (_ & _ & _ & H).
  apply duration_stats_inv in H; [| exact Hne].
  destruct H as (sorted & Hsort & Hnum & Havg & Hlo & Hhi & H50 & H95 & H99).
  destruct (list_sort_ascending nan_sort _ _ Hnum Hnan Hsort) as [Hperm Hasc].
  rewrite <- (Permutation_length Hperm) in Hhi, H50, H95, H99.
  change (50 # 100) with (Z.of_nat 50 # 100) in H50.
  change (95 # 100) with (Z.of_nat 95 # 100) in H95.
  change (99 # 100) with (Z.of_nat 99 # 100) in H99.
  rewrite percentile_index_floor in H50, H95, H99.
  exists sorted. repeat split; auto.
  rewrite forallb_ordered, <- (forallb_perm _ _ _ Hperm), <- (existsb_perm _ _ _ Hperm).
  rewrite Hnum, Hnan. reflexivity.
Qed.

(** The percentiles and the average of a non-empty duration list. *)
Lemma compute_stats_percentiles (lines : list string) (st : PythonLogStats) :
  compute_stats loads nan_sort lines = Ok st ->
  carried "duration_ms" (parse_entries loads lines) <> [] ->
  existsb is_nan (carried "duration_ms" (parse_entries loads lines)) = false ->
  nearest_rank (carried "duration_ms" (parse_entries loads lines)) st.
Proof.
  intros H Hne Hnan.
  destruct (compute_stats_sorted lines st H Hne Hnan)
    as (sorted & Hperm & Hasc & _ & Havg & _ & _ & H50 & H95 & H99).
  exists sorted. split; [exact Hperm |]. split; [exact Hasc |].
  split; [exact H50 |]. split; [exact H95 |]. split; [exact H99 |].
  split; [exact Havg |].
  intros Hint. destruct Havg as (sum & Hsum & Hdiv).
  rewrite (forallb_perm _ _ _ Hperm) in Hint.
  unfold py_sum in Hsum. rewrite (py_sum_loop_ints _ _ Hint) in Hsum.
  injection Hsum as <-. apply py_truediv_int in Hdiv.
  rewrite <- (int_total_perm _ _ Hperm), <- (Permutation_length Hperm) in Hdiv.
  exact Hdiv.
Qed.

(** Without durations the block takes its [else] branch. *)
Lemma compute_stats_zero_durations (lines : list string) (st : PythonLogStats) :
  compute_stats loads nan_sort lines = Ok st ->
  carried "duration_ms" (parse_entries loads lines) = [] ->
  zero_durations st.
Proof.
  intros H Hnone. apply compute_stats_inv in H as (_ & _ & _ & H).
  rewrite Hnone in H. cbn in H. unfold zero_durations.
  injection H as <- <- <- <- <- <-. repeat split.
Qed.

(** Without durations the call returns on well-typed records. *)
Lemma compute_stats_no_durations (lines : list string) :
  parse_entries loads lines <> [] ->
  forallb well_typed (parse_entries loads lines) = true ->
  carried "duration_ms" (parse_entries loads lines) = [] ->
  exists st, compute_stats loads nan_sort lines = Ok st.
Proof.
  intros Hne Htyped Hnone.
  pose proof (compute_stats_well_typed loads nan_sort lines Hne Htyped) as H.
  rewrite Hnone in H. exact H.
Qed.

End DurationStatistics.

(** C5, as amended: on a batch on which [compute_stats] returns, in
    which a parsed record carries [duration_ms] and no duration is NaN,
    the collected durations are sorted ascending and each of the
    percentiles 0.50, 0.95 and 0.99 is the element at index
    [min(floor(n * q), n - 1)]; the average is the float that
    [sum(durations) / len(durations)] evaluates to, which is the
    arithmetic mean rounded to the nearest float when the durations are
    ints.  Over the ten durations 10, 20, ..., 100 the call yields
    p50 = 60, p95 = 100 and the average 55.0. *)
Theorem compute_stats_nearest_rank_percentiles :
  (forall loads nan_sort lines st,
      compute_stats loads nan_sort lines = Ok st ->
      carried "duration_ms" (parse_entries loads lines) <> [] ->
      existsb is_nan (carried "duration_ms" (parse_entries loads lines)) = false ->
      nearest_rank (carried "duration_ms" (parse_entries loads lines)) st)
  /\ (forall nan_sort,
        exists st,
          compute_stats json_loads nan_sort ten_durations_batch = Ok st
          /\ p50_duration_ms st = JInt 60
          /\ p95_duration_ms st = JInt 100
          /\ avg_duration_ms st = JFloat 55).
Proof.
  split.
  - intros loads nan_sort lines st H Hne Hnan.
    apply (compute_stats_percentiles loads nan_sort lines st H Hne Hnan).
  - intros nan_sort. eexists. split; [vm_compute; reflexivity |]. cbn.
    repeat split.
Qed.

Lemma compute_stats_nearest_rank_percentiles_witness :
  carried "duration_ms" (parse_entries json_loads ten_durations_batch) <> []
  /\ exists st,
       compute_stats json_loads single_run ten_durations_batch = Ok st
       /\ nearest_rank
            (carried "duration_ms" (parse_entries json_loads ten_durations_batch)) st.
Proof.
  split; [discriminate |].
  destruct (compute_stats json_loads single_run ten_durations_batch) as [st | e] eqn:E;
    [| vm_compute in E; discriminate].
  exists st. split; [reflexivity |].
  apply (proj1 compute_stats_nearest_rank_percentiles
           json_loads single_run ten_durations_batch st E);
    [discriminate | reflexivity].
Defined.

(** C5, as stated, fails in three ways.  A record whose [duration_ms] is
    the int 10 ** 400 makes the call raise [OverflowError], so that no
    percentile is computed.  The durations 5.0, NaN, 4.0, NaN, 1.0 are
    left in that order by the sort, so that p50 = 4.0 and p95 = 1.0 are
    not taken from an ascending list.  Three durations 0.1 have an
    average above all of them, which is not their arithmetic mean. *)
Lemma compute_stats_percentiles_fail :
  (carried "duration_ms" (parse_entries json_loads huge_duration_batch) <> []
   /\ compute_stats json_loads single_run huge_duration_batch = Raise OverflowError)
  /\ (exists st,
        compute_stats json_loads single_run nan_durations_batch = Ok st
        /\ p50_duration_ms st = JFloat 4 /\ p95_duration_ms st = JFloat 1
        /\ ~ nearest_rank
               (carried "duration_ms" (parse_entries json_loads nan_durations_batch)) st)
  /\ (exists st,
        compute_stats json_loads single_run three_tenths_batch = Ok st
        /\ Forall (fun d => number_lt d (avg_duration_ms st) = true)
             (carried "duration_ms" (parse_entries json_loads three_tenths_batch))).
Proof.
  split; [split; [discriminate | reflexivity] |]. split.
  - eexists. split; [vm_compute; reflexivity |]. cbn [p50_duration_ms p95_duration_ms].
    split; [reflexivity |]. split; [reflexivity |].
    intros (sorted & Hperm & Hasc & _).
    assert (Hin : In (JFloat NaN) sorted).
    { eapply Permutation_in; [exact Hperm |]. vm_compute. auto. }
    assert (Hall : Forall (fun v => ordered v = true) sorted).
    { clear -Hasc Hperm.
      assert (Hlen : (2 <= List.length sorted)%nat)
        by (rewrite <- (Permutation_length Hperm); vm_compute; lia).
      destruct Hasc as [| a l Hl Ha]; [cbn in Hlen; lia |].
      destruct l as [| b l]; [cbn in Hlen; lia |].
      constructor.
      - apply Forall_inv in Ha. apply (num_le_ordered _ _ Ha).
      - eapply Forall_impl; [| exact Ha]. intros v Hv. apply (num_le_ordered _ _ Hv). }
    rewrite Forall_forall in Hall. specialize (Hall _ Hin). discriminate.
  - eexists. split; [vm_compute; reflexivity |].
    vm_compute. repeat constructor.
Qed.

(** C9, as amended: on a batch in which a line parses, every parsed line
    is a record whose [status_code], where carried, is a number, and no
    parsed record carries a non-null [duration_ms], [compute_stats]
    returns statistics whose avg, min, max, p50, p95 and p99 are all the
    float 0.0; and whenever it returns on a batch without durations,
    these six are 0.0. *)
Theorem compute_stats_without_durations (loads : string -> decoded)
    (nan_sort : list json -> list json) (lines : list string) :
  parse_entries loads lines <> [] ->
  carried "duration_ms" (parse_entries loads lines) = [] ->
  (forallb well_typed (parse_entries loads lines) = true ->
   exists st, compute_stats loads nan_sort lines = Ok st /\ zero_durations st)
  /\ (forall st, compute_stats loads nan_sort lines = Ok st -> zero_durations st).
Proof.
  intros Hne Hnone. split.
  - intros Htyped.
    destruct (compute_stats_no_durations loads nan_sort lines Hne Htyped Hnone)
      as [st Hst].
    exists st. split; [exact Hst |].
    apply (compute_stats_zero_durations loads nan_sort lines st Hst Hnone).
  - intros st Hst. apply (compute_stats_zero_durations loads nan_sort lines st Hst Hnone).
Qed.

Lemma compute_stats_without_durations_witness :
  parse_entries json_loads batch_without_durations <> []
  /\ carried "duration_ms" (parse_entries json_loads batch_without_durations) = []
  /\ exists st,
       compute_stats json_loads single_run batch_without_durations = Ok st
       /\ zero_durations st.
Proof.
  split; [discriminate |]. split; [reflexivity |].
  apply (proj1 (compute_stats_without_durations json_loads single_run
                  batch_without_durations ltac:(discriminate) eq_refl)).
  reflexivity.
Defined.

(** C9, as stated, fails: the line [[1, 2]] parses and carries no
    [duration_ms], and the call raises [AttributeError] instead of
    reporting six zeros. *)
Lemma compute_stats_raises_on_array_line :
  parse_entries json_loads batch_with_array_line <> []
  /\ carried "duration_ms" (parse_entries json_loads batch_with_array_line) = []
  /\ compute_stats json_loads single_run batch_with_array_line
     = Raise (AttributeError TList "get")
  /\ ~ (exists st,
          compute_stats json_loads single_run batch_with_array_line = Ok st
          /\ zero_durations st).
Proof.
  split; [discriminate |]. split; [reflexivity |]. split; [reflexivity |].
  intros (st & H & _). vm_compute in H. discriminate.
Qed.

(** ** filter_logs *)

Section FilterLogs.

Variable loads : string -> decoded.

(** What one round of the filtering loop can do. *)
Lemma filter_step_inv (threshold : nat) (min_duration_ms : option Q)
    (status_codes : option (list Z)) (filtered out : list json) (line : string) :
  filter_step loads threshold min_duration_ms status_codes filtered line = Ok out ->
  out = filtered
  \/ exists entry,
       loads line = Decoded entry /\ is_object entry = true
       /\ out = filtered ++ [entry]
       /\ (codes_given status_codes = true ->
           status_in (match status_codes with Some l => l | None => [] end) entry
           = true).
Proof.
  unfold filter_step. destruct (loads line) as [entry | msg]; [| intros H; left; congruence].
  intros H. apply bind_ok in H as (level & Hlevel & H).
  assert (Hobj : is_object entry = true) by (destruct entry; try discriminate; reflexivity).
  apply bind_ok in H as (n & _ & H).
  destruct (n <? threshold)%nat; [left; congruence |].
  apply bind_ok in H as (too_fast & _ & H).
  destruct too_fast; [left; congruence |].
  apply bind_ok in H as (unwanted & Hcodes & H).
  destruct unwanted; [left; congruence |].
  right. exists entry. injection H as <-. repeat split; auto.
  intros Hgiven. rewrite Hgiven in Hcodes. unfold status_in. rewrite Hobj. cbn [andb].
  destruct entry as [| | | | | |kvs]; try discriminate. cbn in Hcodes |- *.
  destruct (is_none _); cbn in Hcodes |- *; [discriminate |].
  injection Hcodes as Hcodes. apply negb_false_iff in Hcodes. exact Hcodes.
Qed.

Lemma filter_loop_inv (threshold : nat) (min_duration_ms : option Q)
    (status_codes : option (list Z)) (P : json -> Prop)
    (lines : list string) (filtered out : list json) :
  (forall line entry,
      In line lines -> loads line = Decoded entry -> is_object entry = true ->
      (codes_given status_codes = true ->
       status_in (match status_codes with Some l => l | None => [] end) entry = true) ->
      P entry) ->
  Forall P filtered ->
  for_each (filter_step loads threshold min_duration_ms status_codes) lines filtered
  = Ok out ->
  Forall P out.
Proof.
  revert filtered. induction lines as [| line lines IH]; intros filtered HP Hacc H.
  - cbn in H. injection H as <-. exact Hacc.
  - cbn [for_each] in H. apply bind_ok in H as (mid & Hstep & H).
    apply (IH mid); [intros l e Hl; apply HP; right; exact Hl | | exact H].
    apply filter_step_inv in Hstep as [-> | (entry & Hline & Hobj & -> & Hcodes)];
      [exact Hacc |].
    apply Forall_app. split; [exact Hacc |]. constructor; [| constructor].
    apply (HP line entry); auto. left. reflexivity.
Qed.

Lemma parse_entries_in (lines : list string) (line : string) (entry : json) :
  In line lines -> loads line = Decoded entry -> In entry (parse_entries loads lines).
Proof.
  intros Hin Hline. unfold parse_entries. apply in_flat_map.
  exists line. split; [exact Hin |]. rewrite Hline. left. reflexivity.
Qed.

(** C8, as amended: when a status-code list that is not empty is
    supplied, every record in the output of [filter_logs] is a parsed
    record whose [status_code] is present and is a member of the list, so a
    record lacking [status_code] is left out; an empty list is treated as
    no list at all and the status-code predicate is not applied. *)
Theorem filter_logs_status_codes (lines : list string) (min_level : option string)
    (min_duration_ms : option Q) (codes : list Z) :
  (codes <> [] ->
   forall out,
     filter_logs loads lines min_level min_duration_ms (Some codes) = Ok out ->
     Forall (fun entry =>
               In entry (parse_entries loads lines)
               /\ field "status_code" entry <> JNull
               /\ existsb (py_eq_int (field "status_code" entry)) codes = true)
            out)
  /\ filter_logs loads lines min_level min_duration_ms (Some [])
     = filter_logs loads lines min_level min_duration_ms None.
Proof.
  split; [| reflexivity].
  intros Hne out H. unfold filter_logs in H.
  apply bind_ok in H as (threshold & _ & H).
  eapply filter_loop_inv; [| constructor | exact H].
  intros line entry Hin Hline Hobj Hcodes. cbn beta.
  split; [eapply parse_entries_in; eauto |].
  assert (Hgiven : codes_given (Some codes) = true)
    by (destruct codes; [congruence | reflexivity]).
  specialize (Hcodes Hgiven). unfold status_in in Hcodes.
  apply andb_prop in Hcodes as [Hcodes Hmember].
  apply andb_prop in Hcodes as [_ Hpresent].
  split; [| exact Hmember].
  intros E. rewrite E in Hpresent. discriminate.
Qed.

(** The threshold of a [min_level] that is no level name. *)
Lemma min_level_num_unknown (name : string) :
  ~ In name valid_levels -> min_level_num (Some name) = Ok 0%nat.
Proof.
  intros Hnot. unfold min_level_num. destruct (truthy (JStr name)); [| reflexivity].
  unfold level_to_num_get. cbn [hashable level_to_num assoc].
  destruct (String.eqb_spec name "ERROR") as [-> | _]; [exfalso; apply Hnot; cbn; auto |].
  destruct (String.eqb_spec name "WARN") as [-> | _]; [exfalso; apply Hnot; cbn; auto |].
  destruct (String.eqb_spec name "INFO") as [-> | _]; [exfalso; apply Hnot; cbn; auto |].
  destruct (String.eqb_spec name "DEBUG") as [-> | _]; [exfalso; apply Hnot; cbn; auto 6 |].
  reflexivity.
Qed.

(** With threshold 0 and no other predicate a record passes. *)
Lemma filter_loop_threshold_zero (lines : list string) (filtered : list json) :
  forallb (fun e => is_object e && hashable (level_of e)) (parse_entries loads lines)
  = true ->
  for_each (filter_step loads 0 None None) lines filtered
  = Ok (filtered ++ parse_entries loads lines).
Proof.
  revert filtered. induction lines as [| line lines IH]; intros filtered H; cbn.
  - rewrite app_nil_r. reflexivity.
  - cbn in H. unfold filter_step at 1. destruct (loads line) as [entry | msg]; cbn in H |- *.
    + apply andb_prop in H as [He Hrest]. apply andb_prop in He as [Hobj Hhash].
      destruct entry as [| | | | | |kvs]; try discriminate. cbn in Hhash |- *.
      unfold level_to_num_get. rewrite Hhash. cbn.
      rewrite (IH _ Hrest), <- app_assoc. reflexivity.
    + apply IH, H.
Qed.

(** C10: a [min_level] that is not empty and is none of ERROR, WARN,
    INFO, DEBUG gives the threshold 0, so [filter_logs] behaves as if no
    minimum level had been given: the level check excludes no record, and
    with no other predicate every parsed record is in the output whatever
    its level. *)
Theorem filter_logs_unknown_min_level (name : string) :
  name <> "" -> ~ In name ["ERROR"; "WARN"; "INFO"; "DEBUG"] ->
  min_level_num (Some name) = Ok 0%nat
  /\ (forall lines min_duration_ms status_codes,
        filter_logs loads lines (Some name) min_duration_ms status_codes
        = filter_logs loads lines None min_duration_ms status_codes)
  /\ (forall level n, level_to_num_get level = Ok n -> (n <? 0)%nat = false)
  /\ (forall lines,
        forallb (fun e => is_object e && hashable (level_of e))
          (parse_entries loads lines) = true ->
        filter_logs loads lines (Some name) None None
        = Ok (parse_entries loads lines)).
Proof.
  intros _ Hnot. pose proof (min_level_num_unknown name Hnot) as Hzero.
  split; [exact Hzero |]. split; [| split].
  - intros lines d s. unfold filter_logs. rewrite Hzero. reflexivity.
  - intros level n _. reflexivity.
  - intros lines H. unfold filter_logs. rewrite Hzero. cbn [bind].
    rewrite (filter_loop_threshold_zero lines [] H). reflexivity.
Qed.

End FilterLogs.

Lemma filter_logs_status_codes_witness :
  exists out,
    filter_logs json_loads three_line_batch None None (Some [200%Z; 404%Z]) = Ok out
    /\ List.length out = 1%nat
    /\ Forall (fun entry =>
                 In entry (parse_entries json_loads three_line_batch)
                 /\ field "status_code" entry <> JNull
                 /\ existsb (py_eq_int (field "status_code" entry)) [200%Z; 404%Z] = true)
              out.
Proof.
  eexists. split; [vm_compute; reflexivity |]. split; [reflexivity |].
  apply (proj1 (filter_logs_status_codes json_loads three_line_batch None None
                  [200%Z; 404%Z])); [discriminate |].
  vm_compute. reflexivity.
Defined.

(** C8, as stated, fails for the empty set: all three records pass, two
    of them without [status_code]. *)
Lemma filter_logs_ignores_empty_code_set :
  exists out,
    filter_logs json_loads three_line_batch None None (Some []) = Ok out
    /\ List.length out = 3%nat
    /\ ~ Forall (fun entry =>
                   field "status_code" entry <> JNull
                   /\ existsb (py_eq_int (field "status_code" entry)) [] = true)
                out.
Proof.
  eexists. split; [vm_compute; reflexivity |]. split; [reflexivity |].
  intros H. apply Forall_inv in H. destruct H as [_ H]. discriminate.
Qed.

Lemma filter_logs_unknown_min_level_witness :
  filter_logs json_loads three_line_batch (Some "CRITICAL") None None
  = Ok (parse_entries json_loads three_line_batch)
  /\ List.length (parse_entries json_loads three_line_batch) = 3%nat.
Proof.
  split; [| reflexivity].
  apply (filter_logs_unknown_min_level json_loads "CRITICAL").
  - discriminate.
  - cbn. intros [H | [H | [H | [H | []]]]]; discriminate.
  - reflexivity.
Defined.

(** ** Order and permutation of the percentiles *)

Lemma num_le_refl (a : json) : ordered a = true -> num_le a a.
Proof.
  intros H. unfold num_le, number_le.
  destruct (ordered_num_of a H) as ([p | [|] |] & -> & Hx); cbn; try congruence.
  apply Qle_bool_iff, Qle_refl.
Qed.

Lemma ascending_nth (sorted : list json) (i j : nat) :
  ascending sorted -> forallb ordered sorted = true ->
  (i <= j)%nat -> (j < List.length sorted)%nat ->
  num_le (nth i sorted JNull) (nth j sorted JNull).
Proof.
  intros Hasc. revert i j. induction Hasc as [| a l Hl IH Hall]; intros i j Hord Hij Hj.
  - cbn in Hj. lia.
  - cbn [forallb] in Hord. apply andb_prop in Hord as [Ha Hrest].
    destruct j as [| j].
    + assert (i = 0)%nat as -> by lia. apply num_le_refl, Ha.
    + cbn in Hj. destruct i as [| i].
      * cbn [nth]. rewrite Forall_forall in Hall. apply Hall, nth_In. lia.
      * cbn [nth]. apply IH; [exact Hrest | lia | lia].
Qed.

Lemma ordered_nth (values : list json) (i : nat) :
  forallb ordered values = true -> (i < List.length values)%nat ->
  ordered (nth i values JNull) = true.
Proof.
  intros H Hi. rewrite forallb_forall in H. apply H, nth_In, Hi.
Qed.

Lemma rank_in_range (n pct : nat) :
  (0 < n)%nat -> (Nat.min (n * pct / 100) (n - 1) < n)%nat.
Proof. intros H. lia. Qed.

Lemma rank_monotone (n p q : nat) :
  (p <= q)%nat -> (Nat.min (n * p / 100) (n - 1) <= Nat.min (n * q / 100) (n - 1))%nat.
Proof.
  intros H. apply Nat.min_le_compat_r. apply Nat.Div0.div_le_mono. nia.
Qed.

(** Two lists in the order of an antisymmetric relation that hold the
    same elements are the same list. *)
Lemma sorted_unique {A : Type} (R : A -> A -> Prop) (l l' : list A) :
  (forall a b, R a b -> R b a -> a = b) ->
  StronglySorted R l -> StronglySorted R l' -> Permutation l l' -> l = l'.
Proof.
  intros Hanti Hl. revert l'. induction Hl as [| a l Hl IH Ha]; intros l' Hl' Hperm.
  - apply Permutation_nil in Hperm. congruence.
  - destruct Hl' as [| b l' Hl' Hb].
    + apply Permutation_sym, Permutation_nil in Hperm. discriminate.
    + assert (E : a = b).
      { assert (Hin_a : In a (b :: l')) by (eapply Permutation_in; [exact Hperm | left; auto]).
        assert (Hin_b : In b (a :: l))
          by (eapply Permutation_in; [apply Permutation_sym, Hperm | left; auto]).
        destruct Hin_a as [-> | Hin_a]; [reflexivity |].
        destruct Hin_b as [-> | Hin_b]; [reflexivity |].
        rewrite Forall_forall in Ha, Hb. apply Hanti; auto. }
      subst b. f_equal. apply IH; [exact Hl' |].
      eapply Permutation_cons_inv, Hperm.
Qed.

(** The order of the keys: [<=] on floats in lowest terms. *)
Lemma key_order_antisym (x y : float) :
  reduced x /\ reduced y /\ float_le x y = true ->
  reduced y /\ reduced x /\ float_le y x = true ->
  x = y.
Proof.
  intros (Hx & Hy & H1) (_ & _ & H2).
  destruct x as [p | [|] |], y as [q | [|] |]; cbn in *; try congruence.
  apply Qle_bool_iff in H1, H2. f_equal. rewrite <- Hx, <- Hy.
  apply Qred_complete, Qle_antisym; assumption.
Qed.

Lemma key_of_reduced (v : json) : reduced (key_of v).
Proof.
  unfold key_of. destruct (num_of v) as [[q | s |] |]; cbn; auto.
  apply Qred_complete, Qred_correct.
Qed.

Lemma key_of_le (a b : json) : num_le a b -> float_le (key_of a) (key_of b) = true.
Proof.
  unfold num_le, number_le, key_of.
  destruct (num_of a) as [[p | [|] |] |], (num_of b) as [[q | [|] |] |]; cbn;
    try congruence.
  intros H. apply Qle_bool_iff in H. apply Qle_bool_iff. rewrite !Qred_correct. exact H.
Qed.

Lemma ascending_keys (sorted : list json) :
  ascending sorted ->
  StronglySorted (fun x y => reduced x /\ reduced y /\ float_le x y = true)
    (map key_of sorted).
Proof.
  induction 1 as [| a l Hl IH Ha]; cbn; constructor; [exact IH |].
  rewrite Forall_map. eapply Forall_impl; [| exact Ha]. cbn. intros b Hab.
  split; [apply key_of_reduced |]. split; [apply key_of_reduced |].
  apply key_of_le, Hab.
Qed.

(** Numbers with the same key are equal. *)
Lemma key_of_num_eq (a b : json) :
  ordered a = true -> ordered b = true -> key_of a = key_of b -> num_eq a b.
Proof.
  intros Ha Hb. unfold num_eq, number_le, key_of.
  destruct (ordered_num_of a Ha) as ([p | [|] |] & -> & Hx);
    destruct (ordered_num_of b Hb) as ([q | [|] |] & -> & Hy);
    cbn; try congruence; auto.
  intros E. injection E as E.
  assert (Hpq : (p == q)%Q).
  { rewrite <- (Qred_correct p), <- (Qred_correct q), E. reflexivity. }
  split; apply Qle_bool_iff; rewrite Hpq; apply Qle_refl.
Qed.

(** Two ascending arrangements of the same numbers agree, position by
    position, on the numbers they hold. *)
Lemma ascending_perm_nth (s s' : list json) (i : nat) :
  ascending s -> ascending s' -> Permutation s s' ->
  forallb ordered s = true -> (i < List.length s)%nat ->
  num_eq (nth i s JNull) (nth i s' JNull).
Proof.
  intros Hs Hs' Hperm Hord Hi.
  assert (E : map key_of s = map key_of s').
  { apply (sorted_unique (fun x y => reduced x /\ reduced y /\ float_le x y = true)).
    - apply key_order_antisym.
    - apply ascending_keys, Hs.
    - apply ascending_keys, Hs'.
    - apply Permutation_map, Hperm. }
  assert (Ei : nth i (map key_of s) (key_of JNull) = nth i (map key_of s') (key_of JNull))
    by (rewrite E; reflexivity).
  rewrite !(map_nth key_of) in Ei.
  apply key_of_num_eq; [apply ordered_nth; assumption | | exact Ei].
  apply ordered_nth.
  - rewrite <- (forallb_perm _ _ _ Hperm). exact Hord.
  - rewrite <- (Permutation_length Hperm). exact Hi.
Qed.

Section Percentiles.

Variable loads : string -> decoded.
Variable nan_sort : list json -> list json.

Lemma parse_entries_perm (lines lines' : list string) :
  Permutation lines lines' ->
  Permutation (parse_entries loads lines) (parse_entries loads lines').
Proof. intros H. unfold parse_entries. apply Permutation_flat_map, H. Qed.

Lemma carried_perm (k : string) (entries entries' : list json) :
  Permutation entries entries' -> Permutation (carried k entries) (carried k entries').
Proof. intros H. unfold carried. apply Permutation_flat_map, H. Qed.

(** C7, as amended: when the duration population is not empty and holds
    no NaN, the percentiles that [compute_stats] returns are numbers with
    p50 <= p95 <= p99, and whenever [compute_stats] returns on a
    reordering of the input lines it returns percentiles with the same
    values; it does return on every reordering when the durations are
    floats. *)
Theorem percentiles_ordered_and_order_independent (lines : list string)
    (st : PythonLogStats) :
  compute_stats loads nan_sort lines = Ok st ->
  carried "duration_ms" (parse_entries loads lines) <> [] ->
  existsb is_nan (carried "duration_ms" (parse_entries loads lines)) = false ->
  num_le (p50_duration_ms st) (p95_duration_ms st)
  /\ num_le (p95_duration_ms st) (p99_duration_ms st)
  /\ (forall lines' st',
        Permutation lines lines' ->
        compute_stats loads nan_sort lines' = Ok st' ->
        num_eq (p50_duration_ms st) (p50_duration_ms st')
        /\ num_eq (p95_duration_ms st) (p95_duration_ms st')
        /\ num_eq (p99_duration_ms st) (p99_duration_ms st'))
  /\ (forallb is_float (carried "duration_ms" (parse_entries loads lines)) = true ->
      forall lines',
        Permutation lines lines' ->
        exists st', compute_stats loads nan_sort lines' = Ok st').
Proof.
  intros Hst Hne Hnan.
  set (durations := carried "duration_ms" (parse_entries loads lines)) in *.
  destruct (compute_stats_inv loads nan_sort lines st Hst) as (Hentries & Htyped & _ & _).
  destruct (compute_stats_sorted loads nan_sort lines st Hst Hne Hnan)
    as (sorted & Hperm & Hasc & Hord & _ & _ & _ & H50 & H95 & H99).
  fold durations in Hperm, H50, H95, H99.
  pose proof (Permutation_length Hperm) as Hlen.
  assert (Hpos : (0 < List.length durations)%nat)
    by (destruct durations; [congruence | cbn; lia]).
  assert (Hin : forall pct,
             (Nat.min (List.length durations * pct / 100) (List.length durations - 1)
              < List.length sorted)%nat)
    by (intros pct; rewrite <- Hlen; apply rank_in_range, Hpos).
  split; [| split; [| split]].
  - rewrite H50, H95. apply ascending_nth; auto. apply rank_monotone. lia.
  - rewrite H95, H99. apply ascending_nth; auto. apply rank_monotone. lia.
  - intros lines' st' Hlines Hst'.
    pose proof (parse_entries_perm lines lines' Hlines) as Hentries_perm.
    pose proof (carried_perm "duration_ms" _ _ Hentries_perm) as Hdur_perm.
    fold durations in Hdur_perm.
    assert (Hne' : carried "duration_ms" (parse_entries loads lines') <> []).
    { intros E. rewrite E in Hdur_perm.
      apply Permutation_sym, Permutation_nil in Hdur_perm. congruence. }
    assert (Hnan' : existsb is_nan (carried "duration_ms" (parse_entries loads lines'))
                    = false)
      by (rewrite <- (existsb_perm _ _ _ Hdur_perm); exact Hnan).
    destruct (compute_stats_sorted loads nan_sort lines' st' Hst' Hne' Hnan')
      as (sorted' & Hperm' & Hasc' & _ & _ & _ & _ & H50' & H95' & H99').
    rewrite <- (Permutation_length Hdur_perm) in H50', H95', H99'.
    assert (Hss : Permutation sorted sorted').
    { rewrite <- Hperm, <- Hperm'. exact Hdur_perm. }
    rewrite H50, H95, H99, H50', H95', H99'.
    split; [| split]; apply ascending_perm_nth; auto.
  - intros Hf lines' Hlines.
    pose proof (parse_entries_perm lines lines' Hlines) as Hentries_perm.
    pose proof (carried_perm "duration_ms" _ _ Hentries_perm) as Hdur_perm.
    fold durations in Hdur_perm.
    apply compute_stats_ordered_floats.
    + intros E. rewrite E in Hentries_perm.
      apply Permutation_sym, Permutation_nil in Hentries_perm. congruence.
    + rewrite <- (forallb_perm _ _ _ Hentries_perm). exact Htyped.
    + rewrite <- (forallb_perm _ _ _ Hdur_perm). exact Hf.
    + rewrite <- (existsb_perm _ _ _ Hdur_perm). exact Hnan.
Qed.

End Percentiles.

Lemma percentiles_ordered_and_order_independent_witness :
  exists st,
    compute_stats json_loads single_run ten_durations_batch = Ok st
    /\ num_le (p50_duration_ms st) (p95_duration_ms st)
    /\ num_le (p95_duration_ms st) (p99_duration_ms st)
    /\ exists st',
         compute_stats json_loads single_run (rev ten_durations_batch) = Ok st'
         /\ num_eq (p50_duration_ms st) (p50_duration_ms st')
         /\ num_eq (p95_duration_ms st) (p95_duration_ms st')
         /\ num_eq (p99_duration_ms st) (p99_duration_ms st').
Proof.
  destruct (compute_stats json_loads single_run ten_durations_batch) as [st | e] eqn:E;
    [| vm_compute in E; discriminate].
  exists st. split; [reflexivity |].
  destruct (percentiles_ordered_and_order_independent json_loads single_run
              ten_durations_batch st E ltac:(discriminate) eq_refl)
    as (H1 & H2 & H3 & _).
  split; [exact H1 |]. split; [exact H2 |].
  destruct (compute_stats json_loads single_run (rev ten_durations_batch))
    as [st' | e] eqn:E'; [| vm_compute in E'; discriminate].
  exists st'. split; [reflexivity |].
  apply (H3 (rev ten_durations_batch) st' (Permutation_rev _) E').
Defined.

(** C7, as stated, fails on durations that hold NaN.  The durations 5.0,
    NaN, 4.0, NaN, 1.0 stay in that order when sorted, and the call
    returns p50 = 4.0 above p95 = 1.0.  The two durations NaN, 1.0 give
    p50 = 1.0, and the same lines in the other order give p50 = NaN. *)
Lemma percentiles_unordered_with_nan :
  (carried "duration_ms" (parse_entries json_loads nan_durations_batch) <> []
   /\ exists st,
        compute_stats json_loads single_run nan_durations_batch = Ok st
        /\ p50_duration_ms st = JFloat 4
        /\ p95_duration_ms st = JFloat 1
        /\ ~ num_le (p50_duration_ms st) (p95_duration_ms st))
  /\ (exists st st',
        compute_stats json_loads single_run nan_first_batch = Ok st
        /\ compute_stats json_loads single_run (rev nan_first_batch) = Ok st'
        /\ p50_duration_ms st = JFloat 1
        /\ p50_duration_ms st' = JFloat NaN
        /\ ~ num_eq (p50_duration_ms st) (p50_duration_ms st')).
Proof.
  split.
  - split; [discriminate |]. eexists. split; [vm_compute; reflexivity |].
    cbn [p50_duration_ms p95_duration_ms].
    split; [reflexivity |]. split; [reflexivity |]. intros H. vm_compute in H.
    discriminate.
  - eexists. eexists. split; [vm_compute; reflexivity |].
    split; [vm_compute; reflexivity |]. cbn [p50_duration_ms].
    split; [reflexivity |]. split; [reflexivity |]. intros [H _]. vm_compute in H.
    discriminate.
Qed.

(** * Further properties of the processor *)

(** ** parse_logs and validate_logs as functions of the batch *)

Section Batches.

Variable loads : string -> decoded.

Lemma parse_entries_decoded (lines : list string) :
  existsb (malformed loads) lines = false ->
  Forall2 (fun line entry => loads line = Decoded entry) lines
    (parse_entries loads lines).
Proof.
  induction lines as [| line lines IH]; cbn; [constructor |].
  unfold malformed at 1. destruct (loads line) as [v | e] eqn:E; cbn; [| discriminate].
  intros H. constructor; [exact E | apply IH, H].
Qed.

Lemma parse_loop_returns (lines : list string) (acc results : list json) :
  for_each
    (fun results line =>
       match loads line with
       | Decoded entry => Ok (results ++ [entry])
       | JSONDecodeError e => Raise (ValueError ("Parse error: " ++ e)%string)
       end) lines acc = Ok results ->
  existsb (malformed loads) lines = false.
Proof.
  revert acc. induction lines as [| line lines IH]; intros acc H; [reflexivity |].
  cbn in H |- *. unfold malformed at 1.
  destruct (loads line) as [v | e]; cbn in H |- *; [eapply IH, H | discriminate].
Qed.

(** X1: [parse_logs] returns exactly when no line is malformed, and then
    it returns the decoded value of every line, one per line and in input
    order. *)
Theorem parse_logs_returns_iff_all_decode (lines : list string) :
  ((exists results, parse_logs loads lines = Ok results)
   <-> existsb (malformed loads) lines = false)
  /\ (forall results,
        parse_logs loads lines = Ok results ->
        Forall2 (fun line entry => loads line = Decoded entry) lines results).
Proof.
  split; [split |].
  - intros [results H]. eapply parse_loop_returns, H.
  - intros H. eexists. apply parse_logs_all_decoded, H.
  - intros results H. pose proof (parse_loop_returns _ _ _ H) as Hnone.
    rewrite (parse_logs_all_decoded loads lines Hnone) in H. injection H as <-.
    apply parse_entries_decoded, Hnone.
Qed.

Lemma validate_step_verdict (valid_count : nat) (errors : list rejection)
    (idx : nat) (line : string) :
  object_shaped loads line = true ->
  validate_step loads (valid_count, errors) (idx, line)
  = match verdict loads idx line with
    | Some r => Ok (valid_count, errors ++ [r])
    | None => Ok (S valid_count, errors)
    end.
Proof.
  unfold object_shaped, verdict. destruct (loads line) as [v | e] eqn:E; intros H.
  - rewrite (validate_step_record loads _ _ _ _ _ E H).
    destruct (first_violation rules v); reflexivity.
  - apply validate_step_malformed, E.
Qed.

Lemma rejections_from_cons (start : nat) (line : string) (lines : list string) :
  rejections_from loads start (line :: lines)
  = match verdict loads start line with Some r => [r] | None => [] end
    ++ rejections_from loads (S start) lines.
Proof. reflexivity. Qed.

Lemma rejections_from_length (start : nat) (lines : list string) :
  (List.length (rejections_from loads start lines) <= List.length lines)%nat.
Proof.
  revert start. induction lines as [| line lines IH]; intros start; [cbn; lia |].
  rewrite rejections_from_cons, length_app. specialize (IH (S start)).
  destruct (verdict loads start line); cbn; lia.
Qed.

Lemma validate_loop_exact (lines : list string) (start valid_count : nat)
    (errors : list rejection) :
  forallb (object_shaped loads) lines = true ->
  for_each (validate_step loads) (enumerate lines start) (valid_count, errors)
  = Ok (valid_count
        + (List.length lines - List.length (rejections_from loads start lines)),
        errors ++ rejections_from loads start lines)%nat.
Proof.
  revert start valid_count errors.
  induction lines as [| line lines IH]; intros start valid_count errors H.
  - cbn. rewrite app_nil_r, Nat.add_0_r. reflexivity.
  - cbn [forallb] in H. apply andb_prop in H as [Hline Hrest].
    rewrite enumerate_cons. cbn [for_each].
    rewrite (validate_step_verdict _ _ _ _ Hline), rejections_from_cons.
    pose proof (rejections_from_length (S start) lines) as Hlen.
    destruct (verdict loads start line) as [r |]; cbn [bind];
      rewrite (IH _ _ _ Hrest); cbn [List.length app].
    + rewrite <- app_assoc. f_equal.
    + f_equal. f_equal. lia.
Qed.

Lemma validate_loop_shape (lines : list string) (start : nat)
    (st r : nat * list rejection) :
  for_each (validate_step loads) (enumerate lines start) st = Ok r ->
  forallb (object_shaped loads) lines = true.
Proof.
  revert start st. induction lines as [| line lines IH]; intros start st H; [reflexivity |].
  rewrite enumerate_cons in H. cbn [for_each] in H. cbn [forallb].
  apply bind_ok in H as (st' & Hstep & H). rewrite (IH _ _ H), andb_true_r.
  unfold object_shaped. destruct (loads line) as [v | e] eqn:E; [| reflexivity].
  destruct (is_object v) eqn:Hv; [reflexivity |].
  rewrite (validate_step_not_object loads st start line v E Hv) in Hstep. discriminate.
Qed.

(** X2: on a batch whose lines are malformed or decode to objects,
    [validate_logs] returns, in input order, the verdict of every line
    that has one (the parse error of a malformed line, the first violated
    rule of a record) under its 1-based position, and counts the other
    lines as valid. *)
Theorem validate_logs_is_the_list_of_verdicts (lines : list string) :
  forallb (object_shaped loads) lines = true ->
  validate_logs loads lines
  = Ok ((List.length lines - List.length (rejections_from loads 1 lines))%nat,
        rejections_from loads 1 lines).
Proof.
  intros H. unfold validate_logs. rewrite (validate_loop_exact _ _ _ _ H).
  reflexivity.
Qed.

(** X3: [validate_logs] returns exactly when every line is malformed or
    decodes to an object; otherwise it raises the [AttributeError] of a
    line that decodes to another kind of value. *)
Theorem validate_logs_returns_iff_object_shaped (lines : list string) :
  ((exists r, validate_logs loads lines = Ok r)
   <-> forallb (object_shaped loads) lines = true)
  /\ (forallb (object_shaped loads) lines = false ->
      exists line v,
        In line lines /\ loads line = Decoded v /\ is_object v = false
        /\ validate_logs loads lines = Raise (AttributeError (type_of v) "get")).
Proof.
  split; [split |].
  - intros [r H]. eapply validate_loop_shape, H.
  - intros H. eexists. unfold validate_logs. apply validate_loop_exact, H.
  - intros Hbad. destruct (validate_logs loads lines) as [r | e] eqn:E.
    + apply validate_loop_shape in E. congruence.
    + destruct (validate_loop_raise loads lines 1 _ e E)
        as (pre & line & post & v & -> & _ & Hline & Hv & ->).
      exists line, v. repeat split; auto. apply in_elt.
Qed.

End Batches.

Lemma validate_logs_is_the_list_of_verdicts_witness :
  forallb (object_shaped json_loads) batch_with_malformed_line = true
  /\ validate_logs json_loads batch_with_malformed_line
     = Ok (0%nat,
           [Line 1 MissingTimestamp; Line 2 (JsonParseError "Expecting value");
            Line 3 MissingTimestamp]).
Proof.
  split; [reflexivity |].
  rewrite (validate_logs_is_the_list_of_verdicts json_loads batch_with_malformed_line
             eq_refl).
  reflexivity.
Defined.

Section BatchesCompose.

Variable loads : string -> decoded.
Variable nan_sort : list json -> list json.

Lemma enumerate_app {A : Type} (l1 l2 : list A) (start : nat) :
  enumerate (l1 ++ l2) start
  = enumerate l1 start ++ enumerate l2 (start + List.length l1).
Proof.
  revert start. induction l1 as [| x l1 IH]; intros start.
  - cbn. rewrite Nat.add_0_r. reflexivity.
  - cbn [app]. rewrite !enumerate_cons, IH. cbn [app List.length].
    rewrite Nat.add_succ_r. reflexivity.
Qed.

Lemma rejections_from_app (start : nat) (l1 l2 : list string) :
  rejections_from loads start (l1 ++ l2)
  = rejections_from loads start l1
    ++ rejections_from loads (start + List.length l1) l2.
Proof. unfold rejections_from. rewrite enumerate_app, flat_map_app. reflexivity. Qed.

Lemma verdict_shift (k idx : nat) (line : string) :
  verdict loads (k + idx) line
  = match verdict loads idx line with Some r => Some (shift k r) | None => None end.
Proof.
  unfold verdict. destruct (loads line) as [v | e]; [| reflexivity].
  destruct (first_violation rules v); reflexivity.
Qed.

Lemma rejections_from_shift (k start : nat) (lines : list string) :
  rejections_from loads (k + start) lines
  = map (shift k) (rejections_from loads start lines).
Proof.
  revert start. induction lines as [| line lines IH]; intros start; [reflexivity |].
  rewrite !rejections_from_cons, map_app, verdict_shift.
  rewrite <- Nat.add_succ_r, IH.
  destruct (verdict loads start line); reflexivity.
Qed.

Lemma validate_logs_exact (lines : list string) (r : nat * list rejection) :
  validate_logs loads lines = Ok r ->
  r = ((List.length lines - List.length (rejections_from loads 1 lines))%nat,
       rejections_from loads 1 lines).
Proof.
  intros H. pose proof (validate_loop_shape loads lines 1 _ r H) as Hshape.
  unfold validate_logs in H. rewrite (validate_loop_exact loads _ _ _ _ Hshape) in H.
  injection H as <-. reflexivity.
Qed.

(** X4: validation composes over concatenation.  When [validate_logs]
    returns on two batches, it returns on their concatenation the sum of
    the valid counts and the rejections of the first batch followed by
    those of the second, whose positions move up by the length of the
    first batch. *)
Theorem validate_logs_concatenation (l1 l2 : list string)
    (v1 v2 : nat) (r1 r2 : list rejection) :
  validate_logs loads l1 = Ok (v1, r1) ->
  validate_logs loads l2 = Ok (v2, r2) ->
  validate_logs loads (l1 ++ l2)
  = Ok ((v1 + v2)%nat, r1 ++ map (shift (List.length l1)) r2).
Proof.
  intros H1 H2.
  pose proof (validate_loop_shape loads l1 1 _ _ H1) as S1.
  pose proof (validate_loop_shape loads l2 1 _ _ H2) as S2.
  apply validate_logs_exact in H1. apply validate_logs_exact in H2.
  injection H1 as -> ->. injection H2 as -> ->.
  unfold validate_logs. rewrite validate_loop_exact
    by (rewrite forallb_app, S1, S2; reflexivity).
  rewrite rejections_from_app, (Nat.add_comm 1 (List.length l1)).
  rewrite (rejections_from_shift (List.length l1) 1 l2).
  pose proof (rejections_from_length loads 1 l1).
  pose proof (rejections_from_length loads 1 l2).
  cbn [app]. f_equal. f_equal.
  rewrite !length_app, length_map. lia.
Qed.

(** X5: when no line of the batch decodes (the empty batch included),
    [validate_logs] returns no valid line and one parse rejection per
    line, while [compute_stats] and [batch_process] raise the
    [ValueError] of an empty population, so [batch_process] gives no
    rejection list for such a batch. *)
Theorem batch_of_malformed_lines (lines : list string) :
  forallb (malformed loads) lines = true ->
  (exists rejections,
     validate_logs loads lines = Ok (0%nat, rejections)
     /\ List.length rejections = List.length lines
     /\ Forall (fun r => exists e, why r = JsonParseError e) rejections)
  /\ compute_stats loads nan_sort lines = Raise (ValueError "No valid log entries found")
  /\ batch_process loads nan_sort lines = Raise (ValueError "No valid log entries found").
Proof.
  intros H.
  assert (Hshape : forallb (object_shaped loads) lines = true).
  { clear -H. induction lines as [| l lines IH]; cbn in *; [reflexivity |].
    apply andb_prop in H as [Hl H]. rewrite (IH H), andb_true_r.
    unfold malformed in Hl. unfold object_shaped. destruct (loads l); congruence. }
  assert (Hentries : parse_entries loads lines = []).
  { clear -H. induction lines as [| l lines IH]; cbn in *; [reflexivity |].
    apply andb_prop in H as [Hl H]. unfold malformed in Hl.
    destruct (loads l); [discriminate | apply IH, H]. }
  assert (Hrej : forall start,
             List.length (rejections_from loads start lines) = List.length lines
             /\ Forall (fun r => exists e, why r = JsonParseError e)
                  (rejections_from loads start lines)).
  { clear -H. induction lines as [| l lines IH]; intros start; cbn in H.
    - split; [reflexivity | constructor].
    - apply andb_prop in H as [Hl H]. destruct (IH H (S start)) as [IH1 IH2].
      rewrite rejections_from_cons. unfold verdict, malformed in *.
      destruct (loads l) as [v | e]; [discriminate |]. cbn.
      split; [congruence | constructor; [eexists; reflexivity | exact IH2]]. }
  assert (Hstats : compute_stats loads nan_sort lines
                   = Raise (ValueError "No valid log entries found")).
  { unfold compute_stats. rewrite Hentries. reflexivity. }
  assert (Hval : validate_logs loads lines = Ok (0%nat, rejections_from loads 1 lines)).
  { unfold validate_logs. rewrite (validate_loop_exact loads _ _ _ _ Hshape).
    destruct (Hrej 1%nat) as [Hlen _]. rewrite Hlen, Nat.sub_diag. reflexivity. }
  split; [| split].
  - exists (rejections_from loads 1 lines). destruct (Hrej 1%nat). auto.
  - exact Hstats.
  - unfold batch_process. rewrite Hval. cbn. rewrite Hstats. reflexivity.
Qed.

End BatchesCompose.

Lemma validate_logs_concatenation_witness :
  validate_logs json_loads (three_line_batch ++ batch_with_malformed_line)
  = Ok (1%nat,
        [Line 2 MissingTimestamp; Line 3 (InvalidLevel (JStr "BAD"));
         Line 4 MissingTimestamp; Line 5 (JsonParseError "Expecting value");
         Line 6 MissingTimestamp]).
Proof.
  rewrite (validate_logs_concatenation json_loads
             three_line_batch batch_with_malformed_line
             1%nat 0%nat
             [Line 2 MissingTimestamp; Line 3 (InvalidLevel (JStr "BAD"))]
             [Line 1 MissingTimestamp; Line 2 (JsonParseError "Expecting value");
              Line 3 MissingTimestamp]
             eq_refl eq_refl).
  reflexivity.
Defined.

Lemma batch_of_malformed_lines_witness :
  forallb (malformed json_loads) ["{not json"; "oops"] = true
  /\ batch_process json_loads single_run ["{not json"; "oops"]
     = Raise (ValueError "No valid log entries found").
Proof.
  split; [reflexivity |].
  apply (batch_of_malformed_lines json_loads single_run ["{not json"; "oops"]).
  reflexivity.
Defined.

(** ** compute_stats: counts and histograms *)

Lemma Qeq_bool_sym (p q : Q) : Qeq_bool p q = Qeq_bool q p.
Proof.
  destruct (Qeq_bool q p) eqn:E.
  - apply Qeq_bool_iff. symmetry. apply Qeq_bool_iff, E.
  - destruct (Qeq_bool p q) eqn:E'; [| reflexivity].
    apply Qeq_bool_iff in E'. symmetry in E'. apply Qeq_bool_iff in E'. congruence.
Qed.

Lemma same_float_sym (x y : float) : same_float x y = same_float y x.
Proof.
  destruct x as [p | [|] |], y as [q | [|] |]; cbn; try reflexivity.
  apply Qeq_bool_sym.
Qed.

Lemma same_float_trans (x y z : float) :
  same_float x y = true -> same_float y z = true -> same_float x z = true.
Proof.
  destruct x as [p | [|] |], y as [q | [|] |], z as [r | [|] |]; cbn;
    try congruence.
  intros H1 H2. apply Qeq_bool_iff in H1, H2. apply Qeq_bool_iff.
  rewrite H1. exact H2.
Qed.

Lemma key_eq_sym (a b : json) : key_eq a b = key_eq b a.
Proof.
  unfold key_eq. destruct (num_of a) as [p |] eqn:Ea, (num_of b) as [q |] eqn:Eb;
    try reflexivity.
  - apply same_float_sym.
  - destruct a, b; try reflexivity. apply String.eqb_sym.
Qed.

Lemma key_eq_trans (a b c : json) :
  key_eq a b = true -> key_eq b c = true -> key_eq a c = true.
Proof.
  unfold key_eq.
  destruct (num_of a) as [p |] eqn:Ea, (num_of b) as [q |] eqn:Eb,
           (num_of c) as [r |] eqn:Ec; try discriminate.
  - apply same_float_trans.
  - destruct a, b; try discriminate; destruct c; try discriminate; auto.
    intros H1 H2. apply String.eqb_eq in H1, H2. apply String.eqb_eq. congruence.
Qed.

(** Floats that are the same key compare alike with any float. *)
Lemma float_le_same (c x y : float) :
  same_float x y = true -> float_le c x = float_le c y.
Proof.
  destruct x as [p | [|] |], y as [q | [|] |]; cbn; try congruence;
    destruct c as [r | [|] |]; cbn; try reflexivity.
  intros H. apply Qeq_bool_iff in H.
  destruct (Qle_bool r q) eqn:E.
  - apply Qle_bool_iff. rewrite H. apply Qle_bool_iff, E.
  - destruct (Qle_bool r p) eqn:E'; [| reflexivity].
    apply Qle_bool_iff in E'. rewrite H in E'. apply Qle_bool_iff in E'. congruence.
Qed.

Lemma is_error_code_key (a b : json) :
  key_eq a b = true -> is_error_code a = is_error_code b.
Proof.
  unfold key_eq, is_error_code, number_le. cbn [num_of].
  destruct (num_of a) as [x |], (num_of b) as [y |]; try discriminate.
  - apply float_le_same.
  - reflexivity.
Qed.

(** One increment adds one to the count of the keys equal to the new one
    and leaves the other counts alone. *)
Lemma count_of_incr (k k' : json) (d : list (json * nat)) :
  count_of k' (incr k d) = (count_of k' d + if key_eq k' k then 1 else 0)%nat.
Proof.
  induction d as [| [k0 c] rest IH]; cbn.
  - destruct (key_eq k' k); reflexivity.
  - destruct (key_eq k k0) eqn:Ek; cbn.
    + destruct (key_eq k' k0) eqn:E0.
      * rewrite (key_eq_trans k' k0 k E0) by (rewrite key_eq_sym; exact Ek). lia.
      * destruct (key_eq k' k) eqn:E1; [| lia].
        rewrite (key_eq_trans k' k k0 E1 Ek) in E0. discriminate.
    + destruct (key_eq k' k0) eqn:E0; [| exact IH].
      destruct (key_eq k' k) eqn:E1; [| lia].
      rewrite key_eq_sym in E1. rewrite (key_eq_trans k k' k0 E1 E0) in Ek.
      discriminate.
Qed.

Lemma count_of_fold_incr (k : json) (values : list json) (d : list (json * nat)) :
  count_of k (fold_left (fun d c => incr c d) values d)
  = (count_of k d + occurrences k values)%nat.
Proof.
  revert d. induction values as [| v values IH]; intros d; cbn.
  - unfold occurrences. cbn. lia.
  - rewrite IH, count_of_incr. unfold occurrences. cbn.
    destruct (key_eq k v); cbn; lia.
Qed.

Lemma occurrences_errors (k : json) (values : list json) :
  occurrences k (filter is_error_code values)
  = if is_error_code k then occurrences k values else 0%nat.
Proof.
  unfold occurrences. induction values as [| v values IH]; cbn [filter List.length].
  - destruct (is_error_code k); reflexivity.
  - destruct (key_eq k v) eqn:E.
    + rewrite <- (is_error_code_key k v E).
      destruct (is_error_code k); cbn [filter List.length];
        [rewrite E; cbn [List.length] |]; rewrite IH; reflexivity.
    + destruct (is_error_code v); cbn [filter]; [rewrite E |]; exact IH.
Qed.

Lemma count_loop_exact (name : string) (entries : list json) (count : nat) :
  forallb is_object entries = true ->
  for_each
    (fun count e =>
       level <- py_get e "level" JNull ;;
       Ok (if py_eq_str level name then S count else count))
    entries count
  = Ok (count + with_level name entries)%nat.
Proof.
  unfold with_level. revert count.
  induction entries as [| e entries IH]; intros count H; cbn.
  - rewrite Nat.add_0_r. reflexivity.
  - cbn in H. apply andb_prop in H as [He Hrest].
    destruct e as [| | | | | |kvs]; try discriminate. cbn.
    rewrite (IH _ Hrest). destruct (py_eq_str _ name); cbn; f_equal; lia.
Qed.

Lemma distribution_exact (entries : list json) (d d' : list (json * nat)) :
  forallb is_object entries = true ->
  for_each
    (fun d entry =>
       present <- py_contains "status_code" entry ;;
       if (present : bool) then
         code <- py_getitem entry "status_code" ;;
         if is_none code then Ok d else dict_incr code d
       else Ok d)
    entries d = Ok d' ->
  d' = fold_left (fun d c => incr c d) (carried "status_code" entries) d.
Proof.
  revert d. induction entries as [| e entries IH]; intros d Hobj H.
  - cbn in H. injection H as <-. reflexivity.
  - cbn [forallb] in Hobj. apply andb_prop in Hobj as [He Hrest].
    destruct e as [| | | | | |kvs]; try discriminate.
    cbn [for_each] in H. apply bind_ok in H as (d1 & Hstep & H).
    rewrite (IH _ Hrest H). cbn in Hstep |- *.
    destruct (lookup "status_code" kvs) as [code |]; cbn in Hstep |- *;
      [| injection Hstep as <-; reflexivity].
    destruct (is_none code); cbn in Hstep |- *; [injection Hstep as <-; reflexivity |].
    unfold dict_incr in Hstep. destruct (hashable code); [| discriminate].
    injection Hstep as <-. reflexivity.
Qed.

Lemma py_ge_400 (code : json) (b : bool) :
  py_ge code (JInt 400) = Ok b -> b = is_error_code code.
Proof.
  unfold py_ge, py_le, is_error_code, number_le. cbn [num_of].
  destruct (num_of code); [| discriminate]. intros H. injection H as <-. reflexivity.
Qed.

Lemma error_codes_exact (entries : list json) (d d' : list (json * nat)) :
  forallb is_object entries = true ->
  for_each
    (fun d entry =>
       code <- py_get entry "status_code" JNull ;;
       if is_none code then Ok d
       else
         is_error <- py_ge code (JInt 400) ;;
         if (is_error : bool) then dict_incr code d else Ok d)
    entries d = Ok d' ->
  d' = fold_left (fun d c => incr c d)
         (filter is_error_code (carried "status_code" entries)) d.
Proof.
  revert d. induction entries as [| e entries IH]; intros d Hobj H.
  - cbn in H. injection H as <-. reflexivity.
  - cbn [forallb] in Hobj. apply andb_prop in Hobj as [He Hrest].
    destruct e as [| | | | | |kvs]; try discriminate.
    cbn [for_each] in H. apply bind_ok in H as (d1 & Hstep & H).
    rewrite (IH _ Hrest H). cbn [carried flat_map field]. cbn [py_get bind] in Hstep.
    fold (carried "status_code" entries).
    set (code := match lookup "status_code" kvs with Some x => x | None => JNull end) in *.
    destruct (is_none code) eqn:Hn; [injection Hstep as <-; reflexivity |].
    apply bind_ok in Hstep as (b & Hb & Hstep). apply py_ge_400 in Hb. subst b.
    cbn [app filter]. destruct (is_error_code code); cbn [fold_left];
      [| injection Hstep as <-; reflexivity].
    unfold dict_incr in Hstep. destruct (hashable code); [| discriminate].
    injection Hstep as <-. reflexivity.
Qed.

Lemma with_level_disjoint (entries : list json) :
  (with_level "ERROR" entries + with_level "WARN" entries + with_level "INFO" entries
   <= List.length entries)%nat.
Proof.
  unfold with_level. induction entries as [| e entries IH]; cbn; [lia |].
  destruct (field "level" e) as [| | | | s | |]; cbn; try lia.
  destruct (String.eqb_spec s "ERROR") as [-> | _]; cbn; [lia |].
  destruct (String.eqb_spec s "WARN") as [-> | _]; cbn; [lia |].
  destruct (String.eqb s "INFO"); cbn; lia.
Qed.

Section StatisticsFields.

Variable loads : string -> decoded.
Variable nan_sort : list json -> list json.

Lemma parse_entries_length (lines : list string) :
  List.length (parse_entries loads lines)
  = List.length (filter (fun line => negb (malformed loads line)) lines).
Proof.
  unfold parse_entries.
  induction lines as [| line lines IH]; cbn [flat_map filter]; [reflexivity |].
  unfold malformed at 1. rewrite length_app, IH.
  destruct (loads line); reflexivity.
Qed.

(** The counts and the histograms of a returned [PythonLogStats]. *)
Lemma compute_stats_fields (lines : list string) (st : PythonLogStats) :
  compute_stats loads nan_sort lines = Ok st ->
  error_count st = with_level "ERROR" (parse_entries loads lines)
  /\ warn_count st = with_level "WARN" (parse_entries loads lines)
  /\ info_count st = with_level "INFO" (parse_entries loads lines)
  /\ status_code_distribution st
     = fold_left (fun d c => incr c d)
         (carried "status_code" (parse_entries loads lines)) []
  /\ error_count_by_code st
     = fold_left (fun d c => incr c d)
         (filter is_error_code (carried "status_code" (parse_entries loads lines))) [].
Proof.
  unfold compute_stats. set (entries := parse_entries loads lines).
  destruct entries as [| e0 rest] eqn:E; [discriminate |]. rewrite <- E. intros H.
  apply bind_ok in H as (errors & Herr & H).
  apply bind_ok in H as (warns & Hwarn & H).
  apply bind_ok in H as (infos & Hinfo & H).
  pose proof (count_level_objects _ _ _ Herr) as Hobj.
  unfold count_level in Herr, Hwarn, Hinfo.
  rewrite (count_loop_exact _ _ _ Hobj) in Herr.
  rewrite (count_loop_exact _ _ _ Hobj) in Hwarn.
  rewrite (count_loop_exact _ _ _ Hobj) in Hinfo.
  injection Herr as <-. injection Hwarn as <-. injection Hinfo as <-.
  apply bind_ok in H as (durations & _ & H).
  apply bind_ok in H as ([[[[[avg lo] hi] p50] p95] p99] & _ & H).
  apply bind_ok in H as (by_status & Hdist & H).
  apply bind_ok in H as (by_error & Hcodes & H).
  injection H as <-. cbn.
  rewrite (distribution_exact _ _ _ Hobj Hdist), (error_codes_exact _ _ _ Hobj Hcodes).
  repeat split.
Qed.

(** X6: in the statistics that [compute_stats] returns, [total_count]
    is the number of lines that decode, each of [error_count],
    [warn_count] and [info_count] is the number of parsed records whose
    [level] is that name, and the three together never exceed
    [total_count]. *)
Theorem compute_stats_level_counts (lines : list string) (st : PythonLogStats) :
  compute_stats loads nan_sort lines = Ok st ->
  total_count st
  = List.length (filter (fun line => negb (malformed loads line)) lines)
  /\ error_count st = with_level "ERROR" (parse_entries loads lines)
  /\ warn_count st = with_level "WARN" (parse_entries loads lines)
  /\ info_count st = with_level "INFO" (parse_entries loads lines)
  /\ (error_count st + warn_count st + info_count st <= total_count st)%nat
  /\ (0 < total_count st <= List.length lines)%nat.
Proof.
  intros H. destruct (compute_stats_fields lines st H) as (He & Hw & Hi & _).
  destruct (compute_stats_inv loads nan_sort lines st H) as (Hne & _ & Htotal & _).
  pose proof (with_level_disjoint (parse_entries loads lines)) as Hsum.
  pose proof (parse_entries_length lines) as Hlen.
  pose proof (filter_length_le (fun line => negb (malformed loads line)) lines) as Hle.
  assert (Hpos : (0 < List.length (parse_entries loads lines))%nat)
    by (destruct (parse_entries loads lines); [congruence | cbn; lia]).
  rewrite He, Hw, Hi, Htotal.
  split; [exact Hlen |]. split; [reflexivity |]. split; [reflexivity |].
  split; [reflexivity |]. split; [exact Hsum |]. lia.
Qed.

(** X7: in the statistics that [compute_stats] returns, the count kept
    for a status code in [status_code_distribution] is the number of
    parsed records that carry a status code equal to it. *)
Theorem status_code_distribution_counts (lines : list string) (st : PythonLogStats)
    (code : json) :
  compute_stats loads nan_sort lines = Ok st ->
  count_of code (status_code_distribution st)
  = occurrences code (carried "status_code" (parse_entries loads lines)).
Proof.
  intros H. destruct (compute_stats_fields lines st H) as (_ & _ & _ & Hd & _).
  rewrite Hd, count_of_fold_incr. reflexivity.
Qed.

(** X8: [error_count_by_code] is [status_code_distribution] restricted
    to the codes from 400 up: a code of at least 400 has the same count in
    both, and a smaller code has none in [error_count_by_code]. *)
Theorem error_count_by_code_restricts_distribution (lines : list string)
    (st : PythonLogStats) (code : json) :
  compute_stats loads nan_sort lines = Ok st ->
  count_of code (error_count_by_code st)
  = if is_error_code code then count_of code (status_code_distribution st)
    else 0%nat.
Proof.
  intros H. destruct (compute_stats_fields lines st H) as (_ & _ & _ & Hd & He).
  rewrite Hd, He, !count_of_fold_incr, occurrences_errors. reflexivity.
Qed.

(** X9: when the duration population is not empty and holds no NaN, the
    minimum and the maximum that [compute_stats] returns are durations of
    the batch that bound every duration of the batch and the three
    percentiles. *)
Theorem min_and_max_bound_the_durations (lines : list string) (st : PythonLogStats) :
  compute_stats loads nan_sort lines = Ok st ->
  carried "duration_ms" (parse_entries loads lines) <> [] ->
  existsb is_nan (carried "duration_ms" (parse_entries loads lines)) = false ->
  In (min_duration_ms st) (carried "duration_ms" (parse_entries loads lines))
  /\ In (max_duration_ms st) (carried "duration_ms" (parse_entries loads lines))
  /\ Forall (fun d => num_le (min_duration_ms st) d /\ num_le d (max_duration_ms st))
       (carried "duration_ms" (parse_entries loads lines))
  /\ num_le (min_duration_ms st) (p50_duration_ms st)
  /\ num_le (p50_duration_ms st) (p95_duration_ms st)
  /\ num_le (p95_duration_ms st) (p99_duration_ms st)
  /\ num_le (p99_duration_ms st) (max_duration_ms st).
Proof.
  intros Hst Hne Hnan.
  set (durations := carried "duration_ms" (parse_entries loads lines)) in *.
  destruct (compute_stats_sorted loads nan_sort lines st Hst Hne Hnan)
    as (sorted & Hperm & Hasc & Hord & _ & Hlo & Hhi & H50 & H95 & H99).
  fold durations in Hperm, Hhi, H50, H95, H99.
  pose proof (Permutation_length Hperm) as Hlen.
  assert (Hpos : (0 < List.length durations)%nat)
    by (destruct durations; [congruence | cbn; lia]).
  assert (Hbound : Forall (fun d => num_le (min_duration_ms st) d
                                    /\ num_le d (max_duration_ms st)) durations).
  { apply Forall_forall. intros d Hd.
    assert (Hd' : In d sorted) by (eapply Permutation_in; eauto).
    destruct (In_nth _ _ JNull Hd') as (i & Hi & <-).
    split.
    - rewrite Hlo. apply ascending_nth; auto; lia.
    - rewrite Hhi. apply ascending_nth; auto; lia. }
  assert (Hin : forall i, (i < List.length sorted)%nat -> In (nth i sorted JNull) durations).
  { intros i Hi. eapply Permutation_in; [apply Permutation_sym, Hperm |].
    apply nth_In, Hi. }
  assert (Hidx : forall pct,
             (Nat.min (List.length durations * pct / 100) (List.length durations - 1)
              < List.length sorted)%nat).
  { intros pct. rewrite <- Hlen. apply rank_in_range, Hpos. }
  split; [rewrite Hlo; apply Hin; lia |].
  split; [rewrite Hhi; apply Hin; lia |].
  split; [exact Hbound |].
  rewrite Forall_forall in Hbound.
  split; [rewrite H50; apply (proj1 (Hbound _ (Hin _ (Hidx 50%nat)))) |].
  split; [rewrite H50, H95; apply ascending_nth; auto; apply rank_monotone; lia |].
  split; [rewrite H95, H99; apply ascending_nth; auto; apply rank_monotone; lia |].
  rewrite H99. apply (proj2 (Hbound _ (Hin _ (Hidx 99%nat)))).
Qed.

End StatisticsFields.

Section StatisticsCompose.

Variable loads : string -> decoded.
Variable nan_sort : list json -> list json.

Lemma with_level_app (name : string) (l1 l2 : list json) :
  with_level name (l1 ++ l2) = (with_level name l1 + with_level name l2)%nat.
Proof. unfold with_level. rewrite filter_app, length_app. reflexivity. Qed.

Lemma occurrences_carried_app (k : json) (field_name : string) (l1 l2 : list json) :
  occurrences k (carried field_name (l1 ++ l2))
  = (occurrences k (carried field_name l1) + occurrences k (carried field_name l2))%nat.
Proof.
  unfold occurrences, carried. rewrite flat_map_app, filter_app, length_app.
  reflexivity.
Qed.

(** X10: the counts of [compute_stats] add up over concatenation.  When
    the call returns on two batches and on their concatenation, then
    [total_count], the three level counts and the count of every status
    code in both histograms are, on the concatenation, the sums of those
    of the two batches. *)
Theorem compute_stats_counts_add (l1 l2 : list string) (s1 s2 s : PythonLogStats) :
  compute_stats loads nan_sort l1 = Ok s1 ->
  compute_stats loads nan_sort l2 = Ok s2 ->
  compute_stats loads nan_sort (l1 ++ l2) = Ok s ->
  total_count s = (total_count s1 + total_count s2)%nat
  /\ error_count s = (error_count s1 + error_count s2)%nat
  /\ warn_count s = (warn_count s1 + warn_count s2)%nat
  /\ info_count s = (info_count s1 + info_count s2)%nat
  /\ (forall code,
        count_of code (status_code_distribution s)
        = (count_of code (status_code_distribution s1)
           + count_of code (status_code_distribution s2))%nat)
  /\ (forall code,
        count_of code (error_count_by_code s)
        = (count_of code (error_count_by_code s1)
           + count_of code (error_count_by_code s2))%nat).
Proof.
  intros H1 H2 Hs.
  destruct (compute_stats_inv loads nan_sort l1 s1 H1) as (_ & _ & Hn1 & _).
  destruct (compute_stats_inv loads nan_sort l2 s2 H2) as (_ & _ & Hn2 & _).
  destruct (compute_stats_fields loads nan_sort l1 s1 H1) as (He1 & Hw1 & Hi1 & Hd1 & Hc1).
  destruct (compute_stats_fields loads nan_sort l2 s2 H2) as (He2 & Hw2 & Hi2 & Hd2 & Hc2).
  destruct (compute_stats_inv loads nan_sort _ s Hs) as (_ & _ & Hn & _).
  destruct (compute_stats_fields loads nan_sort _ s Hs) as (He & Hw & Hi & Hd & Hc).
  rewrite parse_entries_app in *.
  rewrite Hn, He, Hw, Hi, Hn1, Hn2, He1, He2, Hw1, Hw2, Hi1, Hi2.
  rewrite length_app, !with_level_app.
  repeat (split; [reflexivity |]). split.
  - intros code. rewrite Hd, Hd1, Hd2, !count_of_fold_incr, occurrences_carried_app.
    cbn. lia.
  - intros code. rewrite Hc, Hc1, Hc2, !count_of_fold_incr, !occurrences_errors.
    rewrite occurrences_carried_app. destruct (is_error_code code); cbn; lia.
Qed.

End StatisticsCompose.

Lemma compute_stats_level_counts_witness :
  exists st,
    compute_stats json_loads single_run batch_without_durations = Ok st
    /\ total_count st = 2%nat /\ error_count st = 1%nat /\ warn_count st = 0%nat
    /\ info_count st = 1%nat.
Proof.
  destruct (compute_stats json_loads single_run batch_without_durations) as [st | e] eqn:E;
    [| vm_compute in E; discriminate].
  exists st. split; [reflexivity |].
  destruct (compute_stats_level_counts json_loads single_run batch_without_durations st E)
    as (Ht & He & Hw & Hi & _).
  rewrite Ht, He, Hw, Hi. repeat split.
Defined.

Lemma status_code_distribution_counts_witness :
  exists st,
    compute_stats json_loads single_run three_line_batch = Ok st
    /\ count_of (JFloat 200) (status_code_distribution st) = 1%nat
    /\ count_of (JInt 404) (status_code_distribution st) = 0%nat.
Proof.
  destruct (compute_stats json_loads single_run three_line_batch) as [st | e] eqn:E;
    [| vm_compute in E; discriminate].
  exists st. split; [reflexivity |].
  rewrite !(status_code_distribution_counts json_loads single_run three_line_batch st _ E).
  split; reflexivity.
Defined.

Lemma error_count_by_code_restricts_distribution_witness :
  exists st,
    compute_stats json_loads single_run batch_without_durations = Ok st
    /\ count_of (JInt 500) (error_count_by_code st)
       = count_of (JInt 500) (status_code_distribution st)
    /\ count_of (JInt 200) (error_count_by_code st) = 0%nat.
Proof.
  destruct (compute_stats json_loads single_run batch_without_durations) as [st | e] eqn:E;
    [| vm_compute in E; discriminate].
  exists st. split; [reflexivity |].
  rewrite !(error_count_by_code_restricts_distribution json_loads single_run
              batch_without_durations st _ E).
  split; reflexivity.
Defined.

Lemma min_and_max_bound_the_durations_witness :
  exists st,
    compute_stats json_loads single_run ten_durations_batch = Ok st
    /\ min_duration_ms st = JInt 10
    /\ max_duration_ms st = JInt 100
    /\ num_le (min_duration_ms st) (p50_duration_ms st)
    /\ num_le (p99_duration_ms st) (max_duration_ms st).
Proof.
  destruct (compute_stats json_loads single_run ten_durations_batch) as [st | e] eqn:E;
    [| vm_compute in E; discriminate].
  exists st. split; [reflexivity |].
  destruct (min_and_max_bound_the_durations json_loads single_run ten_durations_batch
              st E ltac:(discriminate) eq_refl) as (_ & _ & _ & H1 & _ & _ & H2).
  vm_compute in E. injection E as <-.
  split; [reflexivity |]. split; [reflexivity |]. split; assumption.
Defined.

Lemma compute_stats_counts_add_witness :
  exists s,
    compute_stats json_loads single_run (three_line_batch ++ batch_without_durations)
    = Ok s
    /\ total_count s = 5%nat /\ error_count s = 2%nat.
Proof.
  destruct (compute_stats json_loads single_run three_line_batch) as [s1 | e] eqn:E1;
    [| vm_compute in E1; discriminate].
  destruct (compute_stats json_loads single_run batch_without_durations)
    as [s2 | e] eqn:E2; [| vm_compute in E2; discriminate].
  destruct (compute_stats json_loads single_run
              (three_line_batch ++ batch_without_durations)) as [s | e] eqn:E;
    [| vm_compute in E; discriminate].
  destruct (compute_stats_counts_add json_loads single_run _ _ s1 s2 s E1 E2 E)
    as (Ht & He & _).
  exists s. split; [reflexivity |].
  vm_compute in E1. injection E1 as <-. vm_compute in E2. injection E2 as <-.
  split; assumption.
Defined.

(** ** filter_logs as a filter *)

Lemma level_to_num_get_rank (level : json) :
  level_to_num_get level = if hashable level then Ok (rank level) else Raise TypeError.
Proof. unfold level_to_num_get, rank. destruct level; reflexivity. Qed.

Lemma min_level_num_threshold (min_level : option string) :
  min_level_num min_level = Ok (threshold_of min_level).
Proof.
  destruct min_level as [name |]; [| reflexivity]. unfold min_level_num, threshold_of.
  destruct (truthy (JStr name)) eqn:E; [apply level_to_num_get_rank |].
  cbn in E. apply negb_false_iff, String.eqb_eq in E. subst name. reflexivity.
Qed.

Section FilterAsFilter.

Variable loads : string -> decoded.

(** The duration check of the loop body, in closed form. *)
Lemma too_fast_spec (min_duration_ms : option Q) (kvs : list (string * json)) :
  match min_duration_ms with
  | None => Ok false
  | Some m =>
      duration <- py_get (JObj kvs) "duration_ms" JNull ;;
      if is_none duration then Ok true else py_lt duration (JFloat m)
  end
  = if match min_duration_ms with
       | None => true
       | Some _ => is_none (field "duration_ms" (JObj kvs))
                   || isinstance_int_float (field "duration_ms" (JObj kvs))
       end
    then Ok (negb (duration_passes min_duration_ms (JObj kvs)))
    else Raise TypeError.
Proof.
  destruct min_duration_ms as [m |]; [| reflexivity].
  unfold duration_passes. cbn [py_get bind field].
  set (duration := match lookup "duration_ms" kvs with Some v => v | None => JNull end).
  destruct duration; cbn; try reflexivity;
    unfold Qlt_bool; rewrite negb_involutive; reflexivity.
Qed.

(** The status-code check of the loop body, in closed form. *)
Lemma unwanted_spec (status_codes : option (list Z)) (kvs : list (string * json)) :
  (if codes_given status_codes then
     status <- py_get (JObj kvs) "status_code" JNull ;;
     if is_none status then Ok true
     else Ok (negb (existsb (py_eq_int status)
                      (match status_codes with Some l => l | None => [] end)))
   else Ok false)
  = Ok (negb (status_passes status_codes (JObj kvs))).
Proof.
  unfold status_passes, status_in. destruct (codes_given status_codes); [| reflexivity].
  cbn [py_get bind field is_object andb].
  destruct (is_none _); reflexivity.
Qed.

(** One round of the loop on a record, in closed form. *)
Lemma filter_step_record (threshold : nat) (min_duration_ms : option Q)
    (status_codes : option (list Z)) (filtered : list json) (line : string)
    (kvs : list (string * json)) :
  loads line = Decoded (JObj kvs) ->
  filter_step loads threshold min_duration_ms status_codes filtered line
  = if hashable (level_of (JObj kvs)) then
      if (rank (level_of (JObj kvs)) <? threshold)%nat then Ok filtered
      else if match min_duration_ms with
              | None => true
              | Some _ => is_none (field "duration_ms" (JObj kvs))
                          || isinstance_int_float (field "duration_ms" (JObj kvs))
              end
           then Ok (filtered
                    ++ if passes threshold min_duration_ms status_codes (JObj kvs)
                       then [JObj kvs] else [])
           else Raise TypeError
    else Raise TypeError.
Proof.
  intros H. unfold filter_step. rewrite H.
  rewrite too_fast_spec, unwanted_spec.
  change (py_get (JObj kvs) "level" (JStr "DEBUG")) with (Ok (level_of (JObj kvs))).
  cbn [bind]. rewrite level_to_num_get_rank.
  destruct (hashable (level_of (JObj kvs))); [| reflexivity]. cbn [bind].
  unfold passes.
  destruct (Nat.ltb_spec (rank (level_of (JObj kvs))) threshold) as [Hlt | Hge];
    [reflexivity |].
  assert (Hle : (threshold <=? rank (level_of (JObj kvs)))%nat = true)
    by (apply Nat.leb_le; exact Hge).
  rewrite Hle. cbn [andb].
  destruct (match min_duration_ms with None => true | Some _ => _ end); [| reflexivity].
  cbn [bind].
  destruct (duration_passes min_duration_ms (JObj kvs)); cbn [negb andb];
    [| rewrite app_nil_r; reflexivity].
  destruct (status_passes status_codes (JObj kvs)); cbn [negb];
    [reflexivity | rewrite app_nil_r; reflexivity].
Qed.

Lemma passes_below_threshold (threshold : nat) (min_duration_ms : option Q)
    (status_codes : option (list Z)) (entry : json) :
  (rank (level_of entry) <? threshold)%nat = true ->
  passes threshold min_duration_ms status_codes entry = false.
Proof.
  intros H. apply Nat.ltb_lt in H. unfold passes.
  destruct (Nat.leb_spec threshold (rank (level_of entry))); [lia | reflexivity].
Qed.

(** When the loop returns, it has appended the records that pass. *)
Lemma filter_loop_exact (threshold : nat) (min_duration_ms : option Q)
    (status_codes : option (list Z)) (lines : list string) (filtered out : list json) :
  for_each (filter_step loads threshold min_duration_ms status_codes) lines filtered
  = Ok out ->
  out = filtered
        ++ filter (passes threshold min_duration_ms status_codes)
             (parse_entries loads lines)
  /\ forallb (object_shaped loads) lines = true.
Proof.
  revert filtered. induction lines as [| line lines IH]; intros filtered H.
  - cbn in H. injection H as <-. cbn. rewrite app_nil_r. auto.
  - cbn [for_each] in H. apply bind_ok in H as (mid & Hstep & H).
    destruct (IH _ H) as [-> Hshape]. cbn [forallb]. rewrite Hshape, andb_true_r.
    cbn [parse_entries flat_map]. fold (parse_entries loads lines).
    unfold object_shaped.
    destruct (loads line) as [entry | msg] eqn:E.
    + destruct entry as [| | | | | |kvs];
        try (unfold filter_step in Hstep; rewrite E in Hstep; discriminate).
      rewrite (filter_step_record _ _ _ _ _ _ E) in Hstep.
      destruct (hashable _); [| discriminate].
      destruct (rank _ <? threshold)%nat eqn:Hlt.
      * injection Hstep as <-. cbn [app filter].
        rewrite (passes_below_threshold _ _ _ _ Hlt). auto.
      * destruct (match min_duration_ms with None => true | Some _ => _ end);
          [| discriminate].
        injection Hstep as <-. cbn [app filter].
        destruct (passes _ _ _ (JObj kvs)); rewrite <- app_assoc; auto.
    + unfold filter_step in Hstep. rewrite E in Hstep. injection Hstep as <-. auto.
Qed.

(** On records that no check can fail on, the loop returns. *)
Lemma filter_loop_filterable (threshold : nat) (min_duration_ms : option Q)
    (status_codes : option (list Z)) (lines : list string) (filtered : list json) :
  forallb (filterable min_duration_ms) (parse_entries loads lines) = true ->
  for_each (filter_step loads threshold min_duration_ms status_codes) lines filtered
  = Ok (filtered
        ++ filter (passes threshold min_duration_ms status_codes)
             (parse_entries loads lines)).
Proof.
  revert filtered. induction lines as [| line lines IH]; intros filtered H.
  - cbn. rewrite app_nil_r. reflexivity.
  - cbn [parse_entries flat_map] in H |- *. fold (parse_entries loads lines) in H |- *.
    cbn [for_each]. destruct (loads line) as [entry | msg] eqn:E.
    + cbn [app forallb] in H. apply andb_prop in H as [He Hrest].
      unfold filterable in He. apply andb_prop in He as [He Hdur].
      apply andb_prop in He as [Hobj Hhash].
      destruct entry as [| | | | | |kvs]; try discriminate.
      rewrite (filter_step_record _ _ _ _ _ _ E), Hhash, Hdur.
      destruct (rank _ <? threshold)%nat eqn:Hlt; cbn [bind app filter].
      * rewrite (passes_below_threshold _ _ _ _ Hlt). apply IH, Hrest.
      * rewrite (IH _ Hrest).
        destruct (passes _ _ _ (JObj kvs)); rewrite <- app_assoc; reflexivity.
    + unfold filter_step at 1. rewrite E. cbn [bind app]. apply IH, H.
Qed.

(** X11: whenever [filter_logs] returns, its output is the list of parsed
    records, in input order and with repetitions kept, that satisfy the
    level, duration and status-code predicates together; malformed lines
    are left out, and every line that decodes is a JSON object. *)
Theorem filter_logs_returns_the_passing_records (lines : list string)
    (min_level : option string) (min_duration_ms : option Q)
    (status_codes : option (list Z)) (out : list json) :
  filter_logs loads lines min_level min_duration_ms status_codes = Ok out ->
  out = filter (passes (threshold_of min_level) min_duration_ms status_codes)
          (parse_entries loads lines)
  /\ forallb (object_shaped loads) lines = true.
Proof.
  unfold filter_logs. rewrite min_level_num_threshold. cbn [bind]. intros H.
  apply filter_loop_exact in H. exact H.
Qed.

(** X12: [filter_logs] returns on every batch whose parsed lines are
    objects with a hashable [level] and, when a minimum duration is given,
    a [duration_ms] that is absent, null or a number. *)
Theorem filter_logs_returns_on_filterable_records (lines : list string)
    (min_level : option string) (min_duration_ms : option Q)
    (status_codes : option (list Z)) :
  forallb (filterable min_duration_ms) (parse_entries loads lines) = true ->
  filter_logs loads lines min_level min_duration_ms status_codes
  = Ok (filter (passes (threshold_of min_level) min_duration_ms status_codes)
          (parse_entries loads lines)).
Proof.
  intros H. unfold filter_logs. rewrite min_level_num_threshold. cbn [bind].
  rewrite (filter_loop_filterable _ _ _ _ _ H). reflexivity.
Qed.

Lemma passes_stricter (low high : nat) (min_duration_ms : option Q)
    (status_codes : option (list Z)) (e : json) :
  (low <= high)%nat ->
  passes high min_duration_ms status_codes e
  = (high <=? rank (level_of e))%nat && passes low min_duration_ms status_codes e.
Proof.
  intros Hle. unfold passes.
  destruct (Nat.leb_spec high (rank (level_of e))) as [Hh | Hh]; [| reflexivity].
  destruct (Nat.leb_spec low (rank (level_of e))); [reflexivity | lia].
Qed.

Lemma filter_stricter (low high : nat) (min_duration_ms : option Q)
    (status_codes : option (list Z)) (entries : list json) :
  (low <= high)%nat ->
  filter (passes high min_duration_ms status_codes) entries
  = filter (fun e => (high <=? rank (level_of e))%nat)
      (filter (passes low min_duration_ms status_codes) entries).
Proof.
  intros Hle. induction entries as [| e entries IH]; [reflexivity |].
  cbn [filter]. rewrite (passes_stricter low high _ _ e Hle).
  destruct (passes low min_duration_ms status_codes e); cbn [filter].
  - destruct (high <=? rank (level_of e))%nat; cbn [andb]; rewrite IH; reflexivity.
  - rewrite andb_false_r. exact IH.
Qed.

(** X13: filtering at a higher minimum level selects from what the lower
    level returns: when both calls return, the output for the level of
    higher rank is the output for the other one filtered by that rank. *)
Theorem filter_logs_stricter_level (lines : list string)
    (low high : option string) (min_duration_ms : option Q)
    (status_codes : option (list Z)) (out_low out_high : list json) :
  (threshold_of low <= threshold_of high)%nat ->
  filter_logs loads lines low min_duration_ms status_codes = Ok out_low ->
  filter_logs loads lines high min_duration_ms status_codes = Ok out_high ->
  out_high
  = filter (fun e => (threshold_of high <=? rank (level_of e))%nat) out_low.
Proof.
  intros Hle Hlow Hhigh.
  unfold filter_logs in Hlow, Hhigh. rewrite min_level_num_threshold in Hlow, Hhigh.
  cbn [bind] in Hlow, Hhigh.
  apply filter_loop_exact in Hlow as [-> _]. apply filter_loop_exact in Hhigh as [-> _].
  cbn [app]. apply filter_stricter, Hle.
Qed.

End FilterAsFilter.

Lemma filter_logs_returns_the_passing_records_witness :
  exists out,
    filter_logs json_loads sample_logs (Some "WARN") (Some (100 # 1)) None = Ok out
    /\ out = filter (passes 2 (Some (100 # 1)) None)
               (parse_entries json_loads sample_logs)
    /\ List.length out = 2%nat.
Proof.
  destruct (filter_logs json_loads sample_logs (Some "WARN") (Some (100 # 1)) None)
    as [out | e] eqn:E; [| vm_compute in E; discriminate].
  exists out. split; [reflexivity |].
  destruct (filter_logs_returns_the_passing_records json_loads sample_logs
              (Some "WARN") (Some (100 # 1)) None out E) as [Hout _].
  split; [exact Hout |]. rewrite Hout. reflexivity.
Defined.

Lemma filter_logs_returns_on_filterable_records_witness :
  forallb (filterable (Some (100 # 1))) (parse_entries json_loads three_line_batch)
  = true
  /\ exists out,
       filter_logs json_loads three_line_batch (Some "INFO") (Some (100 # 1))
         (Some [200%Z]) = Ok out
       /\ out = [].
Proof.
  split; [reflexivity |]. eexists. split.
  - apply (filter_logs_returns_on_filterable_records json_loads three_line_batch).
    reflexivity.
  - reflexivity.
Defined.

Lemma filter_logs_stricter_level_witness :
  exists out_low out_high,
    filter_logs json_loads sample_logs (Some "INFO") None None = Ok out_low
    /\ filter_logs json_loads sample_logs (Some "ERROR") None None = Ok out_high
    /\ List.length out_low = 3%nat
    /\ out_high = filter (fun e => (3 <=? rank (level_of e))%nat) out_low.
Proof.
  destruct (filter_logs json_loads sample_logs (Some "INFO") None None)
    as [out_low | e] eqn:E1; [| vm_compute in E1; discriminate].
  destruct (filter_logs json_loads sample_logs (Some "ERROR") None None)
    as [out_high | e] eqn:E2; [| vm_compute in E2; discriminate].
  exists out_low, out_high. split; [reflexivity |]. split; [reflexivity |]. split.
  - vm_compute in E1. injection E1 as <-. reflexivity.
  - apply (filter_logs_stricter_level json_loads sample_logs
             (Some "INFO") (Some "ERROR") None None out_low out_high);
      [cbn; lia | exact E1 | exact E2].
Defined.

(** ** Batches that pass validation *)

Lemma accepted_record_typed (min_duration_ms : option Q) (entry : json) :
  is_object entry = true -> first_violation rules entry = None ->
  well_typed entry = true /\ filterable min_duration_ms entry = true.
Proof.
  intros Hobj H. destruct entry as [| | | | | |kvs]; try discriminate.
  cbn [first_violation rules] in H.
  destruct (rule_timestamp (JObj kvs)); [discriminate |].
  destruct (rule_level (JObj kvs)) eqn:Hlevel; [discriminate |].
  destruct (rule_duration (JObj kvs)) eqn:Hdur; [discriminate |].
  destruct (rule_status (JObj kvs)) eqn:Hstatus; [discriminate |].
  unfold rule_duration in Hdur. unfold rule_status in Hstatus.
  unfold rule_level in Hlevel. unfold well_typed, filterable. cbn [is_object andb].
  assert (Hd : is_none (field "duration_ms" (JObj kvs))
               || isinstance_int_float (field "duration_ms" (JObj kvs)) = true).
  { destruct (is_none (field "duration_ms" (JObj kvs))); [reflexivity |]. cbn [orb].
    destruct (isinstance_int_float (field "duration_ms" (JObj kvs)));
      [reflexivity | discriminate]. }
  assert (Hs : is_none (field "status_code" (JObj kvs))
               || isinstance_int_float (field "status_code" (JObj kvs)) = true).
  { destruct (is_none (field "status_code" (JObj kvs))); [reflexivity |]. cbn [orb].
    destruct (field "status_code" (JObj kvs)); try discriminate; reflexivity. }
  assert (Hh : hashable (level_of (JObj kvs)) = true).
  { cbn [level_of]. destruct (lookup "level" kvs) as [level |]; [| reflexivity].
    destruct level; try reflexivity; discriminate. }
  rewrite Hd, Hs, Hh. split; [reflexivity |].
  destruct min_duration_ms; reflexivity.
Qed.

Section ValidatedBatches.

Variable loads : string -> decoded.
Variable nan_sort : list json -> list json.

Lemma no_rejection_entries (lines : list string) (start : nat) :
  forallb (object_shaped loads) lines = true ->
  rejections_from loads start lines = [] ->
  List.length (parse_entries loads lines) = List.length lines
  /\ Forall (fun e => is_object e = true /\ first_violation rules e = None)
       (parse_entries loads lines).
Proof.
  revert start. induction lines as [| line lines IH]; intros start Hshape Hrej.
  - split; [reflexivity | constructor].
  - cbn [forallb] in Hshape. apply andb_prop in Hshape as [Hline Hshape].
    rewrite rejections_from_cons in Hrej. apply app_eq_nil in Hrej as [Hv Hrej].
    destruct (IH _ Hshape Hrej) as [Hlen Hall].
    cbn [parse_entries flat_map]. fold (parse_entries loads lines).
    unfold verdict in Hv. unfold object_shaped in Hline.
    destruct (loads line) as [entry | msg]; [| discriminate].
    cbn [app List.length]. split; [congruence |].
    constructor; [| exact Hall]. split; [exact Hline |].
    destruct (first_violation rules entry); [discriminate | reflexivity].
Qed.

Lemma validated_entries (lines : list string) (n : nat) :
  validate_logs loads lines = Ok (n, []) ->
  n = List.length lines
  /\ List.length (parse_entries loads lines) = List.length lines
  /\ Forall (fun e => is_object e = true /\ first_violation rules e = None)
       (parse_entries loads lines).
Proof.
  intros H. pose proof (validate_loop_shape loads lines 1 _ _ H) as Hshape.
  apply validate_logs_exact in H. injection H as -> Hrej. symmetry in Hrej.
  rewrite Hrej. cbn [List.length]. split; [lia |].
  apply (no_rejection_entries lines 1 Hshape Hrej).
Qed.

(** A batch that [validate_logs] accepts in full holds well-typed
    records only. *)
Lemma validated_well_typed (lines : list string) (n : nat) :
  lines <> [] ->
  validate_logs loads lines = Ok (n, []) ->
  parse_entries loads lines <> []
  /\ forallb well_typed (parse_entries loads lines) = true.
Proof.
  intros Hne H. destruct (validated_entries lines n H) as (_ & Hlen & Hall). split.
  - intros E. rewrite E in Hlen. destruct lines; [congruence | discriminate].
  - apply forallb_forall. rewrite Forall_forall in Hall. intros e He.
    destruct (Hall e He) as [Hobj Hok].
    apply (accepted_record_typed None e Hobj Hok).
Qed.

Lemma batch_process_validated (lines : list string) (n : nat) (st : PythonLogStats) :
  validate_logs loads lines = Ok (n, []) ->
  compute_stats loads nan_sort lines = Ok st ->
  batch_process loads nan_sort lines = Ok (st, [])
  /\ total_count st = List.length lines.
Proof.
  intros H Hst. destruct (validated_entries lines n H) as (_ & Hlen & _).
  unfold batch_process. rewrite H. cbn. rewrite Hst. cbn. split; [reflexivity |].
  destruct (compute_stats_inv loads nan_sort lines st Hst) as (_ & _ & Ht & _).
  congruence.
Qed.

Hypothesis nan_sort_permutes : forall values, Permutation values (nan_sort values).

(** X14: a batch that is not empty and that [validate_logs] accepts in
    full (no rejection) can abort the statistics in one way only.
    [batch_process] returns statistics with an empty rejection list and
    [total_count] the number of lines, or it raises the [OverflowError]
    of an int duration that is too large for a float; it returns when
    every duration of the batch is a float. *)
Theorem validated_batch_is_processed (lines : list string) (n : nat) :
  lines <> [] ->
  validate_logs loads lines = Ok (n, []) ->
  n = List.length lines
  /\ ((exists st,
         batch_process loads nan_sort lines = Ok (st, [])
         /\ total_count st = List.length lines)
      \/ batch_process loads nan_sort lines = Raise OverflowError)
  /\ (forallb is_float (carried "duration_ms" (parse_entries loads lines)) = true ->
      exists st,
        batch_process loads nan_sort lines = Ok (st, [])
        /\ total_count st = List.length lines).
Proof.
  intros Hne H. destruct (validated_entries lines n H) as (Hn & _ & _).
  destruct (validated_well_typed lines n Hne H) as [Hentries Htyped].
  split; [exact Hn |]. split.
  - destruct (compute_stats_numbers loads nan_sort nan_sort_permutes lines
                Hentries Htyped) as [[st Hst] | Hraise].
    + left. exists st. apply (batch_process_validated lines n st H Hst).
    + right. unfold batch_process. rewrite H. cbn. rewrite Hraise. reflexivity.
  - intros Hf.
    destruct (compute_stats_floats loads nan_sort nan_sort_permutes lines
                Hentries Htyped Hf) as [st Hst].
    exists st. apply (batch_process_validated lines n st H Hst).
Qed.

(** X15: on a batch that [validate_logs] accepts in full, [filter_logs]
    returns for every choice of predicates, and returns the records that
    pass them. *)
Theorem validated_batch_is_filtered (lines : list string) (n : nat)
    (min_level : option string) (min_duration_ms : option Q)
    (status_codes : option (list Z)) :
  validate_logs loads lines = Ok (n, []) ->
  filter_logs loads lines min_level min_duration_ms status_codes
  = Ok (filter (passes (threshold_of min_level) min_duration_ms status_codes)
          (parse_entries loads lines)).
Proof.
  intros H. destruct (validated_entries lines n H) as (_ & _ & Hall).
  unfold filter_logs. rewrite min_level_num_threshold. cbn [bind].
  rewrite filter_loop_filterable; [reflexivity |].
  apply forallb_forall. rewrite Forall_forall in Hall. intros e He.
  destruct (Hall e He) as [Hobj Hok].
  apply (accepted_record_typed min_duration_ms e Hobj Hok).
Qed.

End ValidatedBatches.

Lemma validated_batch_is_processed_witness :
  validate_logs json_loads sample_logs = Ok (3%nat, [])
  /\ (exists st,
        batch_process json_loads single_run sample_logs = Ok (st, [])
        /\ total_count st = 3%nat)
  /\ validate_logs json_loads huge_duration_batch = Ok (1%nat, [])
  /\ batch_process json_loads single_run huge_duration_batch = Raise OverflowError.
Proof.
  split; [reflexivity |]. split.
  - apply (validated_batch_is_processed json_loads single_run
             (fun values => Permutation_refl values) sample_logs 3);
      [discriminate | reflexivity | reflexivity].
  - split; [reflexivity |].
    destruct (proj1 (proj2 (validated_batch_is_processed json_loads single_run
                              (fun values => Permutation_refl values)
                              huge_duration_batch 1 ltac:(discriminate) eq_refl)))
      as [(st & Hst & _) | Hraise]; [| exact Hraise].
    vm_compute in Hst. discriminate.
Defined.

Lemma validated_batch_is_filtered_witness :
  exists out,
    filter_logs json_loads sample_logs (Some "ERROR") None None = Ok out
    /\ List.length out = 1%nat.
Proof.
  eexists. split.
  - apply (validated_batch_is_filtered json_loads sample_logs 3). reflexivity.
  - reflexivity.
Defined.

(** ** Reordering the batch *)

Lemma filter_length_perm {A : Type} (p : A -> bool) (l l' : list A) :
  Permutation l l' -> List.length (filter p l) = List.length (filter p l').
Proof.
  induction 1 as [| x l l' _ IH | x y l | l l' l'' _ IH1 _ IH2]; cbn.
  - reflexivity.
  - destruct (p x); cbn; congruence.
  - destruct (p x), (p y); reflexivity.
  - congruence.
Qed.

Section Reordering.

Variable loads : string -> decoded.
Variable nan_sort : list json -> list json.

(** X16: reordering the lines of a batch changes none of the counts.
    When [compute_stats] returns on a batch and on a reordering of it, the
    two results have the same [total_count] and level counts and the same
    count for every status code in both histograms; when no duration is
    NaN, they also have a minimum and a maximum with the same values. *)
Theorem compute_stats_is_order_independent (lines lines' : list string)
    (st st' : PythonLogStats) :
  Permutation lines lines' ->
  compute_stats loads nan_sort lines = Ok st ->
  compute_stats loads nan_sort lines' = Ok st' ->
  total_count st' = total_count st
  /\ error_count st' = error_count st
  /\ warn_count st' = warn_count st
  /\ info_count st' = info_count st
  /\ (forall code,
        count_of code (status_code_distribution st')
        = count_of code (status_code_distribution st))
  /\ (forall code,
        count_of code (error_count_by_code st')
        = count_of code (error_count_by_code st))
  /\ (existsb is_nan (carried "duration_ms" (parse_entries loads lines)) = false ->
      num_eq (min_duration_ms st') (min_duration_ms st)
      /\ num_eq (max_duration_ms st') (max_duration_ms st)).
Proof.
  intros Hperm Hst Hst'.
  pose proof (parse_entries_perm loads lines lines' Hperm) as Hentries.
  destruct (compute_stats_inv loads nan_sort lines st Hst) as (Hne & Htyped & Hn & Hdur).
  destruct (compute_stats_fields loads nan_sort lines st Hst) as (He & Hw & Hi & Hd & Hc).
  destruct (compute_stats_inv loads nan_sort lines' st' Hst') as (_ & _ & Hn' & Hdur').
  destruct (compute_stats_fields loads nan_sort lines' st' Hst')
    as (He' & Hw' & Hi' & Hd' & Hc').
  pose proof (carried_perm "status_code" _ _ Hentries) as Hcodes.
  pose proof (carried_perm "duration_ms" _ _ Hentries) as Hdurs.
  split; [rewrite Hn, Hn'; symmetry; apply Permutation_length, Hentries |].
  split; [rewrite He, He'; symmetry; apply filter_length_perm, Hentries |].
  split; [rewrite Hw, Hw'; symmetry; apply filter_length_perm, Hentries |].
  split; [rewrite Hi, Hi'; symmetry; apply filter_length_perm, Hentries |].
  split.
  { intros code. rewrite Hd, Hd', !count_of_fold_incr. f_equal. symmetry.
    apply filter_length_perm, Hcodes. }
  split.
  { intros code. rewrite Hc, Hc', !count_of_fold_incr, !occurrences_errors.
    destruct (is_error_code code); [| reflexivity]. f_equal. symmetry.
    apply filter_length_perm, Hcodes. }
  intros Hnan.
  destruct (carried "duration_ms" (parse_entries loads lines)) as [| d0 ds] eqn:Eds.
  - apply Permutation_nil in Hdurs. rewrite Hdurs in Hdur'. cbn in Hdur, Hdur'.
    injection Hdur as _ <- <- _ _ _. injection Hdur' as _ <- <- _ _ _.
    repeat split; reflexivity.
  - rewrite <- Eds in *.
    assert (Hne1 : carried "duration_ms" (parse_entries loads lines) <> [])
      by (rewrite Eds; discriminate).
    assert (Hne2 : carried "duration_ms" (parse_entries loads lines') <> []).
    { intros E. rewrite E in Hdurs. apply Permutation_sym, Permutation_nil in Hdurs.
      congruence. }
    assert (Hnan' : existsb is_nan (carried "duration_ms" (parse_entries loads lines'))
                    = false)
      by (rewrite <- (existsb_perm _ _ _ Hdurs); exact Hnan).
    destruct (compute_stats_sorted loads nan_sort lines st Hst Hne1 Hnan)
      as (sorted & Hp & Hasc & Hord & _ & Hlo & Hhi & _).
    destruct (compute_stats_sorted loads nan_sort lines' st' Hst' Hne2 Hnan')
      as (sorted' & Hp' & Hasc' & Hord' & _ & Hlo' & Hhi' & _).
    assert (Hss : Permutation sorted' sorted).
    { rewrite <- Hp, <- Hp'. apply Permutation_sym, Hdurs. }
    rewrite <- (Permutation_length Hdurs) in Hhi'.
    assert (Hpos : (0 < List.length sorted')%nat).
    { rewrite <- (Permutation_length Hp'), <- (Permutation_length Hdurs), Eds.
      cbn. lia. }
    rewrite Hlo, Hlo', Hhi, Hhi'.
    split; apply ascending_perm_nth; auto.
    rewrite <- (Permutation_length Hp'), <- (Permutation_length Hdurs).
    rewrite Eds. cbn. lia.
Qed.

End Reordering.

Lemma compute_stats_is_order_independent_witness :
  exists st st',
    compute_stats json_loads single_run sample_logs = Ok st
    /\ compute_stats json_loads single_run (rev sample_logs) = Ok st'
    /\ total_count st' = total_count st
    /\ num_eq (max_duration_ms st') (max_duration_ms st).
Proof.
  destruct (compute_stats json_loads single_run sample_logs) as [st | e] eqn:E;
    [| vm_compute in E; discriminate].
  destruct (compute_stats json_loads single_run (rev sample_logs)) as [st' | e] eqn:E';
    [| vm_compute in E'; discriminate].
  destruct (compute_stats_is_order_independent json_loads single_run sample_logs
              (rev sample_logs) st st' (Permutation_rev _) E E')
    as (Ht & _ & _ & _ & _ & _ & Hm).
  exists st, st'. split; [reflexivity |]. split; [reflexivity |].
  split; [exact Ht |]. apply Hm. reflexivity.
Defined.

(** ** The benchmark data through the processor *)

#[local] Ltac Zify.zify_post_hook ::= Z.div_mod_to_equations.

Ltac unfold_Qle := unfold Qle, Qplus, Qmult, inject_Z; cbn [Qnum Qden Pos.mul].

Lemma count_residue (k n : nat) :
  (k < 4)%nat ->
  List.length (filter (fun i => (i mod 4 =? k)%nat) (seq 0 n)) = ((n + 3 - k) / 4)%nat.
Proof.
  intros Hk. induction n as [| n IH].
  - cbn [seq filter List.length]. symmetry. apply Nat.div_small. lia.
  - rewrite seq_S, filter_app, length_app, IH. cbn [Nat.add filter].
    destruct (Nat.eqb_spec (n mod 4) k) as [E | E]; cbn [List.length]; lia.
Qed.

Lemma test_log_level (i : nat) :
  exists k, (k < 4)%nat /\ (i mod 4 = k)%nat
            /\ field "level" (test_log i) = JStr (nth k levels "")
            /\ level_of (test_log i) = JStr (nth k levels "").
Proof.
  exists (i mod 4)%nat. split; [apply Nat.mod_upper_bound; discriminate |].
  repeat split.
Qed.

Lemma test_log_duration (i : nat) :
  field "duration_ms" (test_log i)
  = JFloat (Qred (5 + inject_Z (Z.of_nat (i mod 200)) * (5 # 2))).
Proof. reflexivity. Qed.

Lemma duration_at_least_100 (k : nat) :
  Qle_bool 100 (Qred (5 + inject_Z (Z.of_nat k) * (5 # 2))) = (38 <=? k)%nat.
Proof.
  destruct (Nat.leb_spec 38 k) as [H | H].
  - apply Qle_bool_iff. rewrite Qred_correct. unfold_Qle. lia.
  - destruct (Qle_bool 100 (Qred (5 + inject_Z (Z.of_nat k) * (5 # 2)))) eqn:E;
      [| reflexivity].
    apply Qle_bool_iff in E. rewrite Qred_correct in E. revert E. unfold_Qle. lia.
Qed.

Lemma test_log_accepted (i : nat) :
  is_object (test_log i) = true /\ first_violation rules (test_log i) = None.
Proof.
  split; [reflexivity |]. cbn [first_violation rules].
  assert (Ht : rule_timestamp (test_log i) = None) by reflexivity.
  assert (Hl : rule_level (test_log i) = None).
  { unfold rule_level. change (match test_log i with
                               | JObj kvs => match lookup "level" kvs with
                                             | Some x => x
                                             | None => JStr ""
                                             end
                               | _ => JStr ""
                               end)
      with (JStr (nth (i mod 4) levels "")).
    assert (Hk : (i mod 4 < 4)%nat) by (apply Nat.mod_upper_bound; discriminate).
    destruct (i mod 4)%nat as [| [| [| [| k]]]]; try reflexivity. lia. }
  assert (Hd : rule_duration (test_log i) = None).
  { unfold rule_duration. rewrite test_log_duration.
    cbn [is_none isinstance_int_float andb number_lt num_of float_lt].
    unfold Qlt_bool. rewrite negb_involutive.
    assert (E : Qle_bool (inject_Z 0)
                  (Qred (5 + inject_Z (Z.of_nat (i mod 200)) * (5 # 2))) = true).
    { apply Qle_bool_iff. rewrite Qred_correct. unfold_Qle. lia. }
    rewrite E. reflexivity. }
  assert (Hs : rule_status (test_log i) = None).
  { unfold rule_status.
    change (field "status_code" (test_log i))
      with (JInt (nth (i mod 10) status_codes 0%Z)).
    assert (Hk : (i mod 10 < 10)%nat) by (apply Nat.mod_upper_bound; discriminate).
    destruct (i mod 10)%nat as [| [| [| [| [| [| [| [| [| [| k]]]]]]]]]];
      try reflexivity. lia. }
  rewrite Ht, Hl, Hd, Hs. reflexivity.
Qed.

Lemma with_level_test_logs (k : nat) (indices : list nat) :
  (k < 4)%nat ->
  with_level (nth k levels "") (map test_log indices)
  = List.length (filter (fun i => (i mod 4 =? k)%nat) indices).
Proof.
  intros Hk. unfold with_level. induction indices as [| i indices IH]; [reflexivity |].
  cbn [map filter].
  assert (E : py_eq_str (field "level" (test_log i)) (nth k levels "")
              = (i mod 4 =? k)%nat).
  { change (field "level" (test_log i)) with (JStr (nth (i mod 4) levels "")).
    assert (Hi : (i mod 4 < 4)%nat) by (apply Nat.mod_upper_bound; discriminate).
    destruct (i mod 4)%nat as [| [| [| [| j]]]]; [| | | | lia];
      destruct k as [| [| [| [| k]]]]; try reflexivity; lia. }
  rewrite E. destruct (i mod 4 =? k)%nat; cbn [List.length]; rewrite IH; reflexivity.
Qed.

Lemma test_log_durations (indices : list nat) :
  forallb is_float (carried "duration_ms" (map test_log indices)) = true
  /\ existsb is_nan (carried "duration_ms" (map test_log indices)) = false.
Proof.
  induction indices as [| i indices [IH1 IH2]]; [split; reflexivity |].
  unfold carried in *. cbn [map flat_map]. rewrite test_log_duration.
  cbn [is_none app forallb existsb is_float is_nan andb orb]. auto.
Qed.

Lemma passes_test_log (i : nat) :
  passes 2 (Some (100 # 1)) None (test_log i)
  = (2 <=? i mod 4)%nat && (38 <=? i mod 200)%nat.
Proof.
  unfold passes, duration_passes, status_passes. cbn [codes_given].
  rewrite test_log_duration.
  cbn [is_none negb isinstance_int_float andb number_lt num_of float_lt].
  unfold Qlt_bool. rewrite negb_involutive.
  change (100 # 1) with 100%Q. rewrite duration_at_least_100, andb_true_r. f_equal.
  change (level_of (test_log i)) with (JStr (nth (i mod 4) levels "")).
  assert (Hi : (i mod 4 < 4)%nat) by (apply Nat.mod_upper_bound; discriminate).
  destruct (i mod 4)%nat as [| [| [| [| j]]]]; try reflexivity. lia.
Qed.

Section BenchmarkData.

Variable loads : string -> decoded.
Variable nan_sort : list json -> list json.
Variable dumps : json -> string.

Lemma generated_entries (indices : list nat) :
  Forall (fun i => loads (dumps (test_log i)) = Decoded (test_log i)) indices ->
  parse_entries loads (map (fun i => dumps (test_log i)) indices)
  = map test_log indices.
Proof.
  induction 1 as [| i indices Hi _ IH]; [reflexivity |].
  cbn [map parse_entries flat_map]. rewrite Hi. cbn [app]. f_equal. exact IH.
Qed.

Lemma generated_verdicts (indices : list nat) (start : nat) :
  Forall (fun i => loads (dumps (test_log i)) = Decoded (test_log i)) indices ->
  forallb (object_shaped loads) (map (fun i => dumps (test_log i)) indices) = true
  /\ rejections_from loads start (map (fun i => dumps (test_log i)) indices) = [].
Proof.
  intros H. revert start. induction H as [| i indices Hi _ IH]; intros start.
  - split; reflexivity.
  - destruct (IH (S start)) as [IH1 IH2]. cbn [map forallb].
    rewrite rejections_from_cons, IH1, IH2. unfold object_shaped, verdict. rewrite Hi.
    destruct (test_log_accepted i) as [Hobj Hok]. rewrite Hobj, Hok. split; reflexivity.
Qed.

Lemma round_trip_indices (count : nat) :
  (forall i, (i < count)%nat -> loads (dumps (test_log i)) = Decoded (test_log i)) ->
  Forall (fun i => loads (dumps (test_log i)) = Decoded (test_log i)) (seq 0 count).
Proof.
  intros H. apply Forall_forall. intros i Hi. apply in_seq in Hi. apply H. lia.
Qed.

Lemma filter_test_logs (indices : list nat) :
  filter (passes 2 (Some (100 # 1)) None) (map test_log indices)
  = map test_log
      (filter (fun i => (2 <=? i mod 4)%nat && (38 <=? i mod 200)%nat) indices).
Proof.
  induction indices as [| i indices IH]; [reflexivity |].
  cbn [map filter]. rewrite passes_test_log.
  destruct ((2 <=? i mod 4)%nat && (38 <=? i mod 200)%nat); cbn [map]; rewrite IH;
    reflexivity.
Qed.

(** X17: every line that [generate_test_data] writes passes validation.
    When the decoder reads back what the serializer writes for the
    generated records, [validate_logs] counts all [count] lines as valid
    and rejects none. *)
Theorem generated_data_is_valid (count : nat) :
  (forall i, (i < count)%nat -> loads (dumps (test_log i)) = Decoded (test_log i)) ->
  validate_logs loads (generate_test_data dumps count) = Ok (count, []).
Proof.
  intros H. apply round_trip_indices in H.
  destruct (generated_verdicts (seq 0 count) 1 H) as [Hshape Hrej].
  unfold validate_logs, generate_test_data.
  rewrite (validate_loop_exact loads _ _ _ _ Hshape), Hrej.
  cbn [List.length app]. rewrite length_map, length_seq, Nat.sub_0_r. reflexivity.
Qed.

(** X18: on the data of [generate_test_data], for a count that is not
    zero, [compute_stats] returns, [total_count] is [count], and because
    the levels cycle through DEBUG, INFO, WARN, ERROR the counts are
    [count // 4] errors, [(count + 1) // 4] warnings and
    [(count + 2) // 4] infos. *)
Theorem generated_data_level_counts (count : nat) :
  (0 < count)%nat ->
  (forall i, (i < count)%nat -> loads (dumps (test_log i)) = Decoded (test_log i)) ->
  exists st,
    compute_stats loads nan_sort (generate_test_data dumps count) = Ok st
    /\ total_count st = count
    /\ error_count st = (count / 4)%nat
    /\ warn_count st = ((count + 1) / 4)%nat
    /\ info_count st = ((count + 2) / 4)%nat.
Proof.
  intros Hpos H. apply round_trip_indices in H.
  pose proof (generated_entries (seq 0 count) H) as Hentries.
  fold (generate_test_data dumps count) in Hentries.
  destruct (compute_stats_ordered_floats loads nan_sort (generate_test_data dumps count))
    as [st Hst].
  { rewrite Hentries. destruct count; [lia | discriminate]. }
  { rewrite Hentries. apply forallb_forall. intros e He. apply in_map_iff in He.
    destruct He as (i & <- & _). destruct (test_log_accepted i) as [Hobj Hok].
    apply (accepted_record_typed None _ Hobj Hok). }
  { rewrite Hentries. apply test_log_durations. }
  { rewrite Hentries. apply test_log_durations. }
  exists st. split; [exact Hst |].
  destruct (compute_stats_inv loads nan_sort _ st Hst) as (_ & _ & Hn & _).
  destruct (compute_stats_fields loads nan_sort _ st Hst) as (He & Hw & Hi & _).
  rewrite Hentries in Hn, He, Hw, Hi. rewrite length_map, length_seq in Hn.
  change "ERROR" with (nth 3 levels "") in He.
  change "WARN" with (nth 2 levels "") in Hw.
  change "INFO" with (nth 1 levels "") in Hi.
  rewrite with_level_test_logs, count_residue in He, Hw, Hi by lia.
  rewrite Hn, He, Hw, Hi. repeat split; f_equal; lia.
Qed.

(** X19: the filter call of the benchmark, [min_level = WARN] and
    [min_duration_ms = 100.0], returns on the generated data the records
    of the rounds [i] with [i % 4 >= 2] and [i % 200 >= 38], in order. *)
Theorem generated_data_filtered (count : nat) :
  (forall i, (i < count)%nat -> loads (dumps (test_log i)) = Decoded (test_log i)) ->
  filter_logs loads (generate_test_data dumps count) (Some "WARN") (Some (100 # 1)) None
  = Ok (map test_log
          (filter (fun i => (2 <=? i mod 4)%nat && (38 <=? i mod 200)%nat)
             (seq 0 count))).
Proof.
  intros H. apply round_trip_indices in H.
  pose proof (generated_entries (seq 0 count) H) as Hentries.
  fold (generate_test_data dumps count) in Hentries.
  unfold filter_logs. rewrite min_level_num_threshold. cbn [bind].
  rewrite filter_loop_filterable.
  - rewrite Hentries. cbn [app]. change (threshold_of (Some "WARN")) with 2%nat.
    rewrite filter_test_logs. reflexivity.
  - rewrite Hentries. apply forallb_forall. intros e He. apply in_map_iff in He.
    destruct He as (i & <- & _). destruct (test_log_accepted i) as [Hobj Hok].
    apply (accepted_record_typed (Some (100 # 1)) _ Hobj Hok).
Qed.

End BenchmarkData.

Lemma json_round_trip (i : nat) :
  (i < 44)%nat -> json_loads (json_dumps (test_log i)) = Decoded (test_log i).
Proof.
  intros H. do 44 (destruct i as [| i]; [vm_compute; reflexivity |]). lia.
Qed.

Lemma generated_data_is_valid_witness :
  validate_logs json_loads (generate_test_data json_dumps 44) = Ok (44%nat, []).
Proof.
  apply (generated_data_is_valid json_loads json_dumps 44). exact json_round_trip.
Defined.

Lemma generated_data_level_counts_witness :
  exists st,
    compute_stats json_loads single_run (generate_test_data json_dumps 44) = Ok st
    /\ total_count st = 44%nat
    /\ error_count st = 11%nat /\ warn_count st = 11%nat /\ info_count st = 11%nat.
Proof.
  apply (generated_data_level_counts json_loads single_run json_dumps 44);
    [lia | exact json_round_trip].
Defined.

Lemma generated_data_filtered_witness :
  filter_logs json_loads (generate_test_data json_dumps 44) (Some "WARN")
    (Some (100 # 1)) None
  = Ok [test_log 38; test_log 39; test_log 42; test_log 43].
Proof.
  apply (generated_data_filtered json_loads json_dumps 44). exact json_round_trip.
Defined.
